(** * The storage-deal acceptance reconciler of the provider

    A shallow embedding of the provider event loop ([Provider.loop]) and of
    the acceptance routines it calls ([processDealProposal],
    [processOfflineDealProposal], [processImportOfflineDealData],
    [checkDealPropUnique], [checkDealUuidUnique]).

    The reconciler is written against the components it is handed: a fund
    manager, a storage manager with its staging directory, the deals
    database, and the runtime around it (sealing pipeline, deal filter,
    clock, event bus).  Each is an interface here, a type class over the
    component's own state, and the reconciler threads the four states
    through its calls while recording, in order, every call it makes. *)

From stdpp Require Import base strings gmap sets list option pretty.

Open Scope string_scope.
Open Scope list_scope.

(** ** Errors

    Go errors are values that may wrap a cause ([fmt.Errorf] with [%w]);
    [xerrors.Is] walks the chain of causes looking for a sentinel. *)

Inductive sentinel : Type :=
| NoRows              (* sql.ErrNoRows *)
| NotFound            (* db.ErrNotFound *)
| InsufficientFunds   (* fundmanager.ErrInsufficientFunds *)
| NoSpaceLeft.        (* storagemanager.ErrNoSpaceLeft *)

Inductive error : Type :=
| ErrSentinel (s : sentinel)
| ErrorNew (msg : string)                   (* a fresh error carrying a message *)
| ErrorWrap (msg : string) (cause : error). (* fmt.Errorf("msg: %w", cause) *)

Definition sentinel_eqb (a b : sentinel) : bool :=
  match a, b with
  | NoRows, NoRows | NotFound, NotFound
  | InsufficientFunds, InsufficientFunds | NoSpaceLeft, NoSpaceLeft => true
  | _, _ => false
  end.

Fixpoint Is (e : error) (target : sentinel) : bool :=
  match e with
  | ErrSentinel s => sentinel_eqb s target
  | ErrorNew _ => false
  | ErrorWrap _ cause => Is cause target
  end.

Definition ErrNoRows := ErrSentinel NoRows.
Definition ErrNotFound := ErrSentinel NotFound.
Definition ErrInsufficientFunds := ErrSentinel InsufficientFunds.
Definition ErrNoSpaceLeft := ErrSentinel NoSpaceLeft.

(** ** Deal records *)

Definition UUID := N.           (* uuid.UUID, a 128-bit identifier *)
Definition Cid := string.       (* cid.Cid, in its string form *)
Definition Time := Z.           (* time.Time, as an instant on the wall clock *)
Definition TokenAmount := Z.    (* abi.TokenAmount *)
Definition chan := N.           (* a channel, named by its identity *)

Inductive Checkpoint : Type :=
| Accepted | Transferred | Published | PublishConfirmed
| AddedPiece | IndexedAndAnnounced | Complete.

Record DealProposal : Type := {
  PieceCID : Cid;
  PieceSize : N;
  VerifiedDeal : bool;
  Client : string;
  ProviderAddr : string;
  Label : string;
  StartEpoch : Z;
  EndEpoch : Z;
  StoragePricePerEpoch : TokenAmount;
  ProviderCollateral : TokenAmount;
  ClientCollateral : TokenAmount
}.

Record ClientDealProposal : Type := {
  Proposal : DealProposal;
  ClientSignature : string
}.

Record Transfer : Type := {
  TransferType : string;
  TransferClientID : string;
  TransferParams : string;
  TransferSize : N
}.

(** Modelled from the spec: the declaration of [types.ProviderDealState] is
    not among the sources; the fields are those the data model of the
    specification lists, under the names the reconciler uses. *)
Record ProviderDealState : Type := {
  DealUuid : UUID;
  CreatedAt : Time;
  ClientDealProposal_ : ClientDealProposal;
  IsOffline : bool;
  ClientPeerID : string;
  DealDataRoot : Cid;
  InboundFilePath : string;
  Transfer_ : Transfer;
  ChainDealID : N;
  PublishCID : option Cid;
  SectorID : N;
  Offset : N;
  Length : N;
  Checkpoint_ : Checkpoint;
  CheckpointAt : Time;
  Err : string;
  NBytesReceived : Z
}.

Definition set_InboundFilePath (path : string) (d : ProviderDealState) : ProviderDealState :=
  {| DealUuid := DealUuid d; CreatedAt := CreatedAt d;
     ClientDealProposal_ := ClientDealProposal_ d; IsOffline := IsOffline d;
     ClientPeerID := ClientPeerID d; DealDataRoot := DealDataRoot d;
     InboundFilePath := path; Transfer_ := Transfer_ d;
     ChainDealID := ChainDealID d; PublishCID := PublishCID d;
     SectorID := SectorID d; Offset := Offset d; Length := Length d;
     Checkpoint_ := Checkpoint_ d; CheckpointAt := CheckpointAt d;
     Err := Err d; NBytesReceived := NBytesReceived d |}.

Definition set_CreatedAt (t : Time) (d : ProviderDealState) : ProviderDealState :=
  {| DealUuid := DealUuid d; CreatedAt := t;
     ClientDealProposal_ := ClientDealProposal_ d; IsOffline := IsOffline d;
     ClientPeerID := ClientPeerID d; DealDataRoot := DealDataRoot d;
     InboundFilePath := InboundFilePath d; Transfer_ := Transfer_ d;
     ChainDealID := ChainDealID d; PublishCID := PublishCID d;
     SectorID := SectorID d; Offset := Offset d; Length := Length d;
     Checkpoint_ := Checkpoint_ d; CheckpointAt := CheckpointAt d;
     Err := Err d; NBytesReceived := NBytesReceived d |}.

Definition set_Checkpoint (c : Checkpoint) (d : ProviderDealState) : ProviderDealState :=
  {| DealUuid := DealUuid d; CreatedAt := CreatedAt d;
     ClientDealProposal_ := ClientDealProposal_ d; IsOffline := IsOffline d;
     ClientPeerID := ClientPeerID d; DealDataRoot := DealDataRoot d;
     InboundFilePath := InboundFilePath d; Transfer_ := Transfer_ d;
     ChainDealID := ChainDealID d; PublishCID := PublishCID d;
     SectorID := SectorID d; Offset := Offset d; Length := Length d;
     Checkpoint_ := c; CheckpointAt := CheckpointAt d;
     Err := Err d; NBytesReceived := NBytesReceived d |}.

Definition set_CheckpointAt (t : Time) (d : ProviderDealState) : ProviderDealState :=
  {| DealUuid := DealUuid d; CreatedAt := CreatedAt d;
     ClientDealProposal_ := ClientDealProposal_ d; IsOffline := IsOffline d;
     ClientPeerID := ClientPeerID d; DealDataRoot := DealDataRoot d;
     InboundFilePath := InboundFilePath d; Transfer_ := Transfer_ d;
     ChainDealID := ChainDealID d; PublishCID := PublishCID d;
     SectorID := SectorID d; Offset := Offset d; Length := Length d;
     Checkpoint_ := Checkpoint_ d; CheckpointAt := t;
     Err := Err d; NBytesReceived := NBytesReceived d |}.

Record DealParams : Type := {
  dpDealUUID : UUID;
  dpClientDealProposal : ClientDealProposal;
  dpDealDataRoot : Cid;
  dpTransfer : Transfer
}.

(** The sealing pipeline's status: tallies per sector state and per worker
    kind; the reconciler only passes it on to the deal filter. *)
Record Status : Type := {
  SectorStates : list (string * Z);
  Workers : list (string * Z)
}.

Record DealFilterParams : Type := {
  dfDealParams : DealParams;
  dfSealingPipelineState : Status
}.

Record TagFundsResp : Type := {
  Collateral : TokenAmount;
  PublishMessage : TokenAmount;
  TotalPublishMessage : TokenAmount;
  TotalCollateral : TokenAmount;
  AvailablePublishMessage : TokenAmount;
  AvailableCollateral : TokenAmount
}.

Record dealHandler : Type := {
  dhDealUuid : UUID;
  dhBus : N
}.

(** ** Requests and responses of the event loop *)

Record ProviderDealRejectionInfo : Type := {
  RiAccepted : bool;
  RiReason : string
}.

Record acceptDealResp : Type := {
  ri : ProviderDealRejectionInfo;
  respErr : option error
}.

Record acceptDealReq : Type := {
  rsp : chan;
  deal : ProviderDealState;
  dh : dealHandler;
  isImport : bool
}.

Record finishedDealReq : Type := { finDeal : ProviderDealState; finDone : chan }.
Record publishDealReq : Type := { pubDeal : ProviderDealState; pubDone : chan }.
Record storageSpaceDealReq : Type := { spcDeal : ProviderDealState; spcDone : chan }.

(** [acceptError] distinguishes a regular error from a severe one and
    carries the reason sent to the client. *)
Record acceptError : Type := {
  aeError : error;
  isSevereError : bool;
  reason : string
}.

(** ** The record of what the reconciler does

    One event per call the reconciler makes on a component, per log line
    and per channel operation, with the arguments passed and the result
    received. *)

Inductive LogVal : Type :=
| VStr (s : string)
| VAmt (a : TokenAmount)
| VSize (n : N)
| VErr (e : option error).

Inductive Event : Type :=
| EvBySignedProposalCID (c : Cid) (r : ProviderDealState + error)
| EvByID (u : UUID) (r : ProviderDealState + error)
| EvInsert (d : ProviderDealState) (r : option error)
| EvGetStatus (r : Status + error)
| EvDealFilter (p : DealFilterParams) (r : bool * string + error)
| EvTagFunds (u : UUID) (p : DealProposal) (r : TagFundsResp + error)
| EvUntagFunds (u : UUID) (r : TokenAmount * TokenAmount + error)
| EvTag (u : UUID) (size : N) (r : option error)
| EvUntag (u : UUID) (r : option error)
| EvDownloadFilePath (u : UUID) (r : string + error)
| EvRemove (path : string)
| EvNow (t : Time)
| EvInfow (id : UUID) (msg : string) (kvs : list LogVal)
| EvLogError (id : UUID) (msg : string) (e : error)
| EvMkAndInsertDealHandler (u : UUID) (h : dealHandler)
| EvEmitter (h : dealHandler) (r : option error)
| EvFailDeal (d : ProviderDealState) (e : error)
| EvCleanupDealLogged (d : ProviderDealState)
| EvFireEventDealNew (d : ProviderDealState)
| EvFireEventDealUpdate (d : ProviderDealState)
| EvSendRsp (c : chan) (resp : acceptDealResp)
| EvWgAdd
| EvGoDoDeal (d : ProviderDealState) (h : dealHandler)
| EvCloseDone (c : chan)
| EvSendDone (c : chan)
| EvLoopComplete.

(** ** The components the reconciler is handed

    Every operation takes the component's state and returns its result
    with the state that follows.  A Go result pair [(v, err)] is a sum: the
    reconciler tests [err] before it looks at [v]. *)

Class FundManager (F : Type) : Type := {
  TagFunds : UUID -> DealProposal -> F -> (TagFundsResp + error) * F;
  (* the untagged amounts, collateral first *)
  UntagFunds : UUID -> F -> (TokenAmount * TokenAmount + error) * F
}.

(** The storage manager together with the staging directory its download
    files live in; [osRemove] is [os.Remove] on that directory. *)
Class StorageManager (S : Type) : Type := {
  Tag : UUID -> N -> S -> option error * S;
  Untag : UUID -> S -> option error * S;
  DownloadFilePath : UUID -> S -> (string + error) * S;
  osRemove : string -> S -> S
}.

Class DealsDB (D : Type) : Type := {
  BySignedProposalCID : Cid -> D -> (ProviderDealState + error) * D;
  ByID : UUID -> D -> (ProviderDealState + error) * D;
  Insert : ProviderDealState -> D -> option error * D
}.

(** The sealing pipeline, the deal filter, the clock and the event bus. *)
Class Runtime (R : Type) : Type := {
  GetStatus : R -> (Status + error) * R;
  df : DealFilterParams -> R -> (bool * string + error) * R;
  Now : R -> Time * R;
  (* dh.bus.Emitter(&types.ProviderDealState{}, eventbus.Stateful) *)
  Emitter : dealHandler -> R -> option error * R
}.

(** Pure helpers of the libraries the reconciler formats its messages with,
    and the content address of a deal's signed proposal. *)
Class Codec : Type := {
  SignedProposalCid : ProviderDealState -> Cid + error;
  uuidString : UUID -> string;     (* %s of a uuid.UUID *)
  timeString : Time -> string      (* %s of a time.Time *)
}.

Section Reconciler.

Context {F S D R : Type}.
Context `{FM : FundManager F} `{SM : StorageManager S}.
Context `{DB : DealsDB D} `{RT : Runtime R} `{CD : Codec}.

(** The part of [Provider] the reconciler works on. *)
Record Provider : Type := {
  fundManager : F;
  storageManager : S;
  dealsDB : D;
  runtime : R
}.

(** Methods of [Provider] that the offline proposal path calls and whose
    bodies are not among the sources: each may change the provider in ways
    nothing below relies on. *)
Class ProviderMethods : Type := {
  mkAndInsertDealHandler : UUID -> Provider -> dealHandler * Provider;
  failDeal : ProviderDealState -> error -> Provider -> Provider;
  cleanupDealLogged : ProviderDealState -> Provider -> Provider;
  fireEventDealNew : ProviderDealState -> Provider -> Provider;
  fireEventDealUpdate : ProviderDealState -> Provider -> Provider
}.

Context `{PM : ProviderMethods}.

(** *** The reconciler's monad: provider state in, result, provider state
    and the events of the run out. *)

Definition M (A : Type) : Type := Provider -> A * Provider * list Event.

Definition ret {A : Type} (a : A) : M A := fun p => (a, p, []).

Definition bind {A B : Type} (m : M A) (k : A -> M B) : M B :=
  fun p =>
    let '(a, p1, t1) := m p in
    let '(b, p2, t2) := k a p1 in
    (b, p2, t1 ++ t2).

Notation "'let*' x ':=' c1 'in' c2" := (bind c1 (fun x => c2))
  (at level 10, x name, c1 at level 100, c2 at level 200).
Notation "c1 ;; c2" := (bind c1 (fun _ => c2))
  (at level 100, c2 at level 200, right associativity).

Definition emit (e : Event) : M unit := fun p => (tt, p, [e]).

Definition with_fundManager (f : F) (p : Provider) : Provider :=
  {| fundManager := f; storageManager := storageManager p;
     dealsDB := dealsDB p; runtime := runtime p |}.
Definition with_storageManager (s : S) (p : Provider) : Provider :=
  {| fundManager := fundManager p; storageManager := s;
     dealsDB := dealsDB p; runtime := runtime p |}.
Definition with_dealsDB (d : D) (p : Provider) : Provider :=
  {| fundManager := fundManager p; storageManager := storageManager p;
     dealsDB := d; runtime := runtime p |}.
Definition with_runtime (r : R) (p : Provider) : Provider :=
  {| fundManager := fundManager p; storageManager := storageManager p;
     dealsDB := dealsDB p; runtime := r |}.

(** *** The calls, one per call site kind *)

Definition p_dealsDB_BySignedProposalCID (c : Cid) : M (ProviderDealState + error) :=
  fun p => let '(r, d) := BySignedProposalCID c (dealsDB p) in
           (r, with_dealsDB d p, [EvBySignedProposalCID c r]).

Definition p_dealsDB_ByID (u : UUID) : M (ProviderDealState + error) :=
  fun p => let '(r, d) := ByID u (dealsDB p) in
           (r, with_dealsDB d p, [EvByID u r]).

Definition p_dealsDB_Insert (ds : ProviderDealState) : M (option error) :=
  fun p => let '(r, d) := Insert ds (dealsDB p) in
           (r, with_dealsDB d p, [EvInsert ds r]).

Definition sealingpipeline_GetStatus : M (Status + error) :=
  fun p => let '(r, rt) := GetStatus (runtime p) in
           (r, with_runtime rt p, [EvGetStatus r]).

Definition p_df (params : DealFilterParams) : M (bool * string + error) :=
  fun p => let '(r, rt) := df params (runtime p) in
           (r, with_runtime rt p, [EvDealFilter params r]).

Definition time_Now : M Time :=
  fun p => let '(t, rt) := Now (runtime p) in
           (t, with_runtime rt p, [EvNow t]).

Definition dh_bus_Emitter (h : dealHandler) : M (option error) :=
  fun p => let '(r, rt) := Emitter h (runtime p) in
           (r, with_runtime rt p, [EvEmitter h r]).

Definition p_fundManager_TagFunds (u : UUID) (prop : DealProposal) : M (TagFundsResp + error) :=
  fun p => let '(r, f) := TagFunds u prop (fundManager p) in
           (r, with_fundManager f p, [EvTagFunds u prop r]).

Definition p_fundManager_UntagFunds (u : UUID) : M (TokenAmount * TokenAmount + error) :=
  fun p => let '(r, f) := UntagFunds u (fundManager p) in
           (r, with_fundManager f p, [EvUntagFunds u r]).

Definition p_storageManager_Tag (u : UUID) (size : N) : M (option error) :=
  fun p => let '(r, s) := Tag u size (storageManager p) in
           (r, with_storageManager s p, [EvTag u size r]).

Definition p_storageManager_Untag (u : UUID) : M (option error) :=
  fun p => let '(r, s) := Untag u (storageManager p) in
           (r, with_storageManager s p, [EvUntag u r]).

Definition p_storageManager_DownloadFilePath (u : UUID) : M (string + error) :=
  fun p => let '(r, s) := DownloadFilePath u (storageManager p) in
           (r, with_storageManager s p, [EvDownloadFilePath u r]).

Definition os_Remove (path : string) : M unit :=
  fun p => (tt, with_storageManager (osRemove path (storageManager p)) p, [EvRemove path]).

Definition p_mkAndInsertDealHandler (u : UUID) : M dealHandler :=
  fun p => let '(h, p') := mkAndInsertDealHandler u p in
           (h, p', [EvMkAndInsertDealHandler u h]).

Definition p_failDeal (ds : ProviderDealState) (e : error) : M unit :=
  fun p => (tt, failDeal ds e p, [EvFailDeal ds e]).

Definition p_cleanupDealLogged (ds : ProviderDealState) : M unit :=
  fun p => (tt, cleanupDealLogged ds p, [EvCleanupDealLogged ds]).

Definition p_fireEventDealNew (ds : ProviderDealState) : M unit :=
  fun p => (tt, fireEventDealNew ds p, [EvFireEventDealNew ds]).

Definition p_fireEventDealUpdate (ds : ProviderDealState) : M unit :=
  fun p => (tt, fireEventDealUpdate ds p, [EvFireEventDealUpdate ds]).

Definition Infow (id : UUID) (msg : string) (kvs : list LogVal) : M unit :=
  emit (EvInfow id msg kvs).

Definition LogError (id : UUID) (msg : string) (e : error) : M unit :=
  emit (EvLogError id msg e).

(** *** [logFunds] *)

Definition logFunds (id : UUID) (trsp : TagFundsResp) : M unit :=
  Infow id "tagged funds for deal"
    [VStr "tagged for deal publish"; VAmt (PublishMessage trsp);
     VStr "tagged for deal collateral"; VAmt (Collateral trsp);
     VStr "total tagged for publish"; VAmt (TotalPublishMessage trsp);
     VStr "total tagged for collateral"; VAmt (TotalCollateral trsp);
     VStr "total available for publish"; VAmt (AvailablePublishMessage trsp);
     VStr "total available for collateral"; VAmt (AvailableCollateral trsp)].

(** *** [checkDealPropUnique] and [checkDealUuidUnique] *)

Definition checkDealPropUnique (deal : ProviderDealState) : M (option acceptError) :=
  match SignedProposalCid deal with
  | inr err =>
      ret (Some {| aeError := ErrorWrap "getting signed deal proposal cid" err;
                   reason := "server error: signed proposal cid";
                   isSevereError := true |})
  | inl signedPropCid =>
      let* r := p_dealsDB_BySignedProposalCID signedPropCid in
      match r with
      | inr err =>
          if Is err NoRows then
            (* no deal in the DB with this signed proposal cid: it is unique *)
            ret None
          else
            ret (Some {| aeError := ErrorWrap "looking up deal by signed deal proposal cid" err;
                         reason := "server error: lookup by proposal cid";
                         isSevereError := true |})
      | inl dl =>
          let msg := "deal proposal is identical to deal " +:+ uuidString (DealUuid dl)
                     +:+ " (proposed at " +:+ timeString (CreatedAt dl) +:+ ")" in
          ret (Some {| aeError := ErrorNew msg; reason := msg; isSevereError := false |})
      end
  end.

Definition checkDealUuidUnique (deal : ProviderDealState) : M (option acceptError) :=
  let* r := p_dealsDB_ByID (DealUuid deal) in
  match r with
  | inr err =>
      if Is err NoRows then
        (* no deal in the DB with this uuid: it is unique *)
        ret None
      else
        ret (Some {| aeError := ErrorWrap "looking up deal by uuid" err;
                     reason := "server error: unique check: lookup by deal uuid";
                     isSevereError := true |})
  | inl dl =>
      let msg := "deal has the same uuid as deal " +:+ uuidString (DealUuid dl)
                 +:+ " (proposed at " +:+ timeString (CreatedAt dl) +:+ ")" in
      ret (Some {| aeError := ErrorNew msg; reason := msg; isSevereError := false |})
  end.

(** *** [processDealProposal]

    The deal is passed by pointer and updated in place; the updated record
    is returned next to the error. *)

(** The [cleanup] closure of [processDealProposal]; it reads the deal as it
    stands when the closure is called. *)
Definition cleanup (deal : ProviderDealState) : M unit :=
  let* r := p_fundManager_UntagFunds (DealUuid deal) in
  match r with
  | inr errf =>
      if negb (Is errf NotFound) then
        LogError (DealUuid deal) "failed to untag funds during deal cleanup" errf
      else ret tt
  | inl (collat, pub) =>
      Infow (DealUuid deal) "untagged funds for deal cleanup"
        [VStr "untagged publish"; VAmt pub; VStr "untagged collateral"; VAmt collat;
         VStr "err"; VErr None]
  end ;;
  let* errs := p_storageManager_Untag (DealUuid deal) in
  match errs with
  | Some e =>
      if negb (Is e NotFound) then
        LogError (DealUuid deal) "failed to untag storage during deal cleanup" e
      else ret tt
  | None =>
      Infow (DealUuid deal) "untagged storage for deal cleanup"
        [VSize (TransferSize (Transfer_ deal))]
  end ;;
  if negb (String.eqb (InboundFilePath deal) "") then
    os_Remove (InboundFilePath deal)
  else ret tt.

Definition processDealProposal (deal : ProviderDealState)
  : M (ProviderDealState * option acceptError) :=
  (* Check that the deal proposal is unique *)
  let* aerr := checkDealPropUnique deal in
  match aerr with
  | Some a => ret (deal, Some a)
  | None =>
  (* Check that the deal uuid is unique *)
  let* aerr := checkDealUuidUnique deal in
  match aerr with
  | Some a => ret (deal, Some a)
  | None =>
  (* get current sealing pipeline status *)
  let* st := sealingpipeline_GetStatus in
  match st with
  | inr err =>
      ret (deal, Some {| aeError := ErrorWrap "failed to fetch sealing pipleine status" err;
                         reason := "server error: get sealing status";
                         isSevereError := true |})
  | inl status =>
  (* run custom decision logic *)
  let params := {| dpDealUUID := DealUuid deal;
                   dpClientDealProposal := ClientDealProposal_ deal;
                   dpDealDataRoot := DealDataRoot deal;
                   dpTransfer := Transfer_ deal |} in
  let* fr := p_df {| dfDealParams := params; dfSealingPipelineState := status |} in
  match fr with
  | inr err =>
      ret (deal, Some {| aeError := ErrorWrap "failed to invoke deal filter" err;
                         reason := "server error: deal filter error";
                         isSevereError := true |})
  | inl (accept, freason) =>
  if negb accept then
    ret (deal, Some {| aeError := ErrorNew ("deal filter rejected deal: " +:+ freason);
                       reason := freason;
                       isSevereError := false |})
  else
  (* tag the funds required for escrow and sending the publish deal message
     so that they are not used for other deals *)
  let* tr := p_fundManager_TagFunds (DealUuid deal) (Proposal (ClientDealProposal_ deal)) in
  match tr with
  | inr err0 =>
      cleanup deal ;;
      let err := ErrorWrap "failed to tag funds for deal" err0 in
      if Is err InsufficientFunds then
        ret (deal, Some {| aeError := err;
                           reason := "server error: provider has insufficient funds to accept deal";
                           isSevereError := false |})
      else
        ret (deal, Some {| aeError := err;
                           reason := "server error: tag funds";
                           isSevereError := true |})
  | inl trsp =>
  logFunds (DealUuid deal) trsp ;;
  (* tag the storage required for the deal in the staging area *)
  let* serr := p_storageManager_Tag (DealUuid deal) (TransferSize (Transfer_ deal)) in
  match serr with
  | Some err0 =>
      cleanup deal ;;
      let err := ErrorWrap "failed to tag storage for deal" err0 in
      if Is err NoSpaceLeft then
        ret (deal, Some {| aeError := err;
                           reason := "server error: provider has no space left for storage deals";
                           isSevereError := false |})
      else
        ret (deal, Some {| aeError := err;
                           reason := "server error: tag storage";
                           isSevereError := true |})
  | None =>
  (* create a file in the staging area to which we will download the deal data *)
  let* dr := p_storageManager_DownloadFilePath (DealUuid deal) in
  match dr with
  | inr err =>
      cleanup deal ;;
      ret (deal, Some {| aeError := ErrorWrap "failed to create download staging file for deal" err;
                         reason := "server error: creating download staging file";
                         isSevereError := true |})
  | inl downloadFilePath =>
  let deal := set_InboundFilePath downloadFilePath deal in
  Infow (DealUuid deal) "created deal download staging file"
    [VStr "path"; VStr (InboundFilePath deal)] ;;
  (* write deal state to the database *)
  let* t1 := time_Now in
  let deal := set_CreatedAt t1 deal in
  let deal := set_Checkpoint Accepted deal in
  let* t2 := time_Now in
  let deal := set_CheckpointAt t2 deal in
  let* ierr := p_dealsDB_Insert deal in
  match ierr with
  | Some err =>
      cleanup deal ;;
      ret (deal, Some {| aeError := ErrorWrap "failed to insert deal in db" err;
                         reason := "server error: save to db";
                         isSevereError := true |})
  | None =>
  Infow (DealUuid deal) "inserted deal into deals DB" [] ;;
  ret (deal, None)
  end end end end end end end end.

(** *** [processOfflineDealProposal]: just saves the deal to the database;
    execution resumes when [processImportOfflineDealData] is called. *)

Definition processOfflineDealProposal (ds : ProviderDealState)
  : M (ProviderDealState * option acceptError) :=
  (* Check that the deal proposal is unique *)
  let* aerr := checkDealPropUnique ds in
  match aerr with
  | Some a => ret (ds, Some a)
  | None =>
  (* Check that the deal uuid is unique *)
  let* aerr := checkDealUuidUnique ds in
  match aerr with
  | Some a => ret (ds, Some a)
  | None =>
  (* Save deal to DB *)
  let* t1 := time_Now in
  let ds := set_CreatedAt t1 ds in
  let ds := set_Checkpoint Accepted ds in
  let* t2 := time_Now in
  let ds := set_CheckpointAt t2 ds in
  let* ierr := p_dealsDB_Insert ds in
  match ierr with
  | Some err =>
      ret (ds, Some {| aeError := ErrorWrap "failed to insert deal in db" err;
                       reason := "server error: save to db";
                       isSevereError := true |})
  | None =>
  (* Set up pubsub for deal updates *)
  let* h := p_mkAndInsertDealHandler (DealUuid ds) in
  let* eerr := dh_bus_Emitter h in
  match eerr with
  | Some err0 =>
      let err := ErrorWrap "failed to create event emitter" err0 in
      p_failDeal ds err ;;
      p_cleanupDealLogged ds ;;
      ret (ds, Some {| aeError := err;
                       reason := "server error: setup pubsub";
                       isSevereError := true |})
  | None =>
  (* publish "new deal" event *)
  p_fireEventDealNew ds ;;
  (* publish an event with the current state of the deal *)
  p_fireEventDealUpdate ds ;;
  ret (ds, None)
  end end end end.

(** *** [processImportOfflineDealData] *)

Definition cleanupImport (deal : ProviderDealState) : M unit :=
  let* r := p_fundManager_UntagFunds (DealUuid deal) in
  match r with
  | inr errf =>
      if negb (Is errf NotFound) then
        LogError (DealUuid deal) "failed to untag funds during deal cleanup" errf
      else ret tt
  | inl (collat, pub) =>
      Infow (DealUuid deal) "untagged funds for deal cleanup"
        [VStr "untagged publish"; VAmt pub; VStr "untagged collateral"; VAmt collat]
  end.

Definition processImportOfflineDealData (deal : ProviderDealState)
  : M (ProviderDealState * option acceptError) :=
  (* tag the funds required for escrow and sending the publish deal message
     so that they are not used for other deals *)
  let* tr := p_fundManager_TagFunds (DealUuid deal) (Proposal (ClientDealProposal_ deal)) in
  match tr with
  | inr err0 =>
      cleanupImport deal ;;
      let err := ErrorWrap "failed to tag funds for deal" err0 in
      if Is err InsufficientFunds then
        ret (deal, Some {| aeError := err;
                           reason := "server error: provider has insufficient funds to accept deal";
                           isSevereError := false |})
      else
        ret (deal, Some {| aeError := err;
                           reason := "server error: tag funds";
                           isSevereError := true |})
  | inl trsp =>
      logFunds (DealUuid deal) trsp ;;
      ret (deal, None)
  end.

(** *** The provider loop

    The loop implements a lock over the resources used by the provider, like
    funds and storage space, so that only one deal at a time can change
    them.  [select] hands the loop one message at a time; a run of the loop
    is the list of messages it was handed before its context was done. *)

Inductive Msg : Type :=
| acceptDealChan (dealReq : acceptDealReq)
| storageSpaceChan (req : storageSpaceDealReq)
| publishedDealChan (publishedDeal : publishDealReq)
| finishedDealChan (finishedDeal : finishedDealReq).

Definition send_rsp (c : chan) (resp : acceptDealResp) : M unit := emit (EvSendRsp c resp).

Definition rejectWith (dealReq : acceptDealReq) (aerr : acceptError) : M unit :=
  let id := DealUuid (deal dealReq) in
  if isSevereError aerr then
    (* Send a rejection message to the client with a reason for rejection;
       log an error with more details for the provider *)
    let resp := {| ri := {| RiAccepted := false; RiReason := reason aerr |};
                   respErr := None |} in
    LogError id "error while processing deal acceptance request" (aeError aerr) ;;
    send_rsp (rsp dealReq) resp
  else
    (* not a severe error: don't log an error, just send a message to the
       client with a rejection reason *)
    Infow id "deal acceptance request rejected" [VStr "reason"; VStr (reason aerr)] ;;
    send_rsp (rsp dealReq)
      {| ri := {| RiAccepted := false; RiReason := reason aerr |}; respErr := None |}.

Definition startDeal (dealReq : acceptDealReq) (deal' : ProviderDealState) : M unit :=
  (* start executing the deal *)
  emit EvWgAdd ;;
  emit (EvGoDoDeal deal' (dh dealReq)) ;;
  send_rsp (rsp dealReq)
    {| ri := {| RiAccepted := true; RiReason := "" |}; respErr := None |}.

Definition acceptDeal (dealReq : acceptDealReq) : M unit :=
  let d := deal dealReq in
  Infow (DealUuid d) "processing deal acceptance request" [] ;;
  if IsOffline d then
    (* It's an offline deal *)
    if isImport dealReq then
      (* The Storage Provider is importing the deal data, so tag funds for
         the deal and execute it *)
      let* r := processImportOfflineDealData d in
      match r.2 with
      | Some aerr => rejectWith dealReq aerr
      | None => startDeal dealReq r.1
      end
    else
      (* save the deal to the database but don't execute the deal *)
      let* r := processOfflineDealProposal d in
      match r.2 with
      | None =>
          (* The deal proposal was successful. Send an Accept response to
             the client.  Don't execute the deal now, wait for data import. *)
          send_rsp (rsp dealReq)
            {| ri := {| RiAccepted := true; RiReason := "" |}; respErr := None |}
      | Some aerr => rejectWith dealReq aerr
      end
  else
    (* Process a regular deal proposal *)
    let* r := processDealProposal d in
    match r.2 with
    | Some aerr => rejectWith dealReq aerr
    | None => startDeal dealReq r.1
    end.

Definition storageSpace (req : storageSpaceDealReq) : M unit :=
  let d := spcDeal req in
  let* err := p_storageManager_Untag (DealUuid d) in
  match err with
  | Some e =>
      if negb (Is e NotFound) then
        LogError (DealUuid d) "failed to untag storage space" e
      else
        Infow (DealUuid d) "untagged storage space" []
  | None => Infow (DealUuid d) "untagged storage space" []
  end ;;
  emit (EvCloseDone (spcDone req)).

Definition publishedDeal (req : publishDealReq) : M unit :=
  let d := pubDeal req in
  let* r := p_fundManager_UntagFunds (DealUuid d) in
  match r with
  | inr errf => LogError (DealUuid d) "failed to untag funds" errf
  | inl (collat, pub) =>
      Infow (DealUuid d) "untagged funds for deal after publish"
        [VStr "untagged publish"; VAmt pub; VStr "untagged collateral"; VAmt collat]
  end ;;
  emit (EvSendDone (pubDone req)).

Definition finishedDeal (req : finishedDealReq) : M unit :=
  let d := finDeal req in
  Infow (DealUuid d) "deal finished" [] ;;
  let* r := p_fundManager_UntagFunds (DealUuid d) in
  match r with
  | inr errf =>
      if negb (Is errf NotFound) then
        LogError (DealUuid d) "failed to untag funds" errf
      else ret tt
  | inl (collat, pub) =>
      Infow (DealUuid d) "untagged funds for deal as deal finished"
        [VStr "untagged publish"; VAmt pub; VStr "untagged collateral"; VAmt collat;
         VStr "err"; VErr None]
  end ;;
  let* errs := p_storageManager_Untag (DealUuid d) in
  match errs with
  | Some e =>
      if negb (Is e NotFound) then
        LogError (DealUuid d) "failed to untag storage" e
      else ret tt
  | None => Infow (DealUuid d) "untagged storage space for deal" []
  end ;;
  emit (EvSendDone (finDone req)).

Definition loopCase (m : Msg) : M unit :=
  match m with
  | acceptDealChan dealReq => acceptDeal dealReq
  | storageSpaceChan req => storageSpace req
  | publishedDealChan req => publishedDeal req
  | finishedDealChan req => finishedDeal req
  end.

Fixpoint loop (msgs : list Msg) : M unit :=
  match msgs with
  | m :: rest => loopCase m ;; loop rest
  | [] => (* <-p.ctx.Done(), then the deferred p.wg.Done() and log line *)
      emit EvLoopComplete
  end.

End Reconciler.

Arguments Provider : clear implicits.
Arguments ProviderMethods : clear implicits.
Arguments M : clear implicits.

(** ** The reservation ledgers

    What the fund manager and the storage manager hold per deal, as the
    reconciler's claims speak of it: the funds tagged per deal UUID, the
    staging bytes tagged per deal UUID, and the files of the staging
    directory. *)

Class FundView (F : Type) : Type := {
  (* per deal: the collateral and the publish-message funds tagged *)
  fundTags : F -> gmap UUID (TokenAmount * TokenAmount)
}.

Class StorageView (S : Type) : Type := {
  storageTags : S -> gmap UUID N;
  stagingFiles : S -> gset string;
  downloadPath : UUID -> string
}.

(** Modelled from the spec: the bodies of [FundManager.TagFunds] and
    [FundManager.UntagFunds] are not among the sources.  [TagFunds] either
    records the tag for the deal or fails and records nothing; [UntagFunds]
    is idempotent: it releases the deal's tag, and answers [NotFound] when
    there is none. *)
Class FundManagerSpec (F : Type) `{FundManager F} `{FundView F} : Prop := {
  TagFunds_spec : forall u prop f,
    match TagFunds u prop f with
    | (inl _, f') => exists amt, fundTags f' = <[u := amt]> (fundTags f)
    | (inr _, f') => fundTags f' = fundTags f
    end;
  UntagFunds_spec : forall u f,
    match UntagFunds u f with
    | (inl amt, f') =>
        fundTags f !! u = Some amt /\ fundTags f' = delete u (fundTags f)
    | (inr e, f') =>
        Is e NotFound = true /\ fundTags f !! u = None /\ fundTags f' = fundTags f
    end
}.

(** Modelled from the spec: the bodies of [StorageManager.Tag],
    [StorageManager.Untag] and [StorageManager.DownloadFilePath] are not
    among the sources.  [Tag] either records the reservation or fails and
    records nothing; [Untag] is idempotent, answering [NotFound] when the
    deal holds no reservation; the download path is a function of the
    deal's UUID and not empty, and the call adds at most the file at that
    path to the staging directory; removing a file takes that file away and
    nothing else. *)
Class StorageManagerSpec (S : Type) `{StorageManager S} `{StorageView S} : Prop := {
  Tag_spec : forall u size s,
    match Tag u size s with
    | (None, s') =>
        storageTags s' = <[u := size]> (storageTags s) /\ stagingFiles s' = stagingFiles s
    | (Some _, s') =>
        storageTags s' = storageTags s /\ stagingFiles s' = stagingFiles s
    end;
  Untag_spec : forall u s,
    match Untag u s with
    | (None, s') =>
        is_Some (storageTags s !! u) /\ storageTags s' = delete u (storageTags s)
        /\ stagingFiles s' = stagingFiles s
    | (Some e, s') =>
        Is e NotFound = true /\ storageTags s !! u = None
        /\ storageTags s' = storageTags s /\ stagingFiles s' = stagingFiles s
    end;
  DownloadFilePath_spec : forall u s,
    match DownloadFilePath u s with
    | (inl path, s') =>
        path = downloadPath u /\ path <> "" /\ storageTags s' = storageTags s
        /\ stagingFiles s ⊆ stagingFiles s'
        /\ stagingFiles s' ⊆ stagingFiles s ∪ {[ path ]}
    | (inr _, s') =>
        storageTags s' = storageTags s /\ stagingFiles s' = stagingFiles s
    end;
  osRemove_spec : forall path s,
    storageTags (osRemove path s) = storageTags s
    /\ stagingFiles (osRemove path s) = stagingFiles s ∖ {[ path ]}
}.

(** ** A reference provider

    Executable components that behave as the specification describes them,
    with a schedule of infrastructure faults: the reconciler can be run on
    them. *)

Module Ref.

(** A schedule of faults: the head says whether the next call fails, and
    with which error; an empty schedule means no fault. *)
Definition faults := list (option error).

Definition next_fault (fs : faults) : option error * faults :=
  match fs with
  | [] => (None, [])
  | f :: rest => (f, rest)
  end.

(** Modelled from the spec: the fund manager of section 4.1.  [TagFunds]
    takes the provider collateral from the proposal and the configured
    publish-message fee, checks them against the escrow and wallet balances
    minus what is tagged already, and records the tag or fails with
    [ErrInsufficientFunds]; it fails with the scheduled error when its
    backing store cannot be reached. *)
Record Funds : Type := {
  escrowBalance : TokenAmount;
  walletBalance : TokenAmount;
  publishFee : TokenAmount;
  tagged : gmap UUID (TokenAmount * TokenAmount);
  tagFaults : faults
}.

Definition totalCollateralTagged (m : gmap UUID (TokenAmount * TokenAmount)) : TokenAmount :=
  map_fold (fun _ v acc => (v.1 + acc)%Z) 0%Z m.

Definition totalPublishTagged (m : gmap UUID (TokenAmount * TokenAmount)) : TokenAmount :=
  map_fold (fun _ v acc => (v.2 + acc)%Z) 0%Z m.

Definition Funds_TagFunds (u : UUID) (prop : DealProposal) (f : Funds)
  : (TagFundsResp + error) * Funds :=
  let '(flt, rest) := next_fault (tagFaults f) in
  let f0 := {| escrowBalance := escrowBalance f; walletBalance := walletBalance f;
               publishFee := publishFee f; tagged := tagged f; tagFaults := rest |} in
  match flt with
  | Some e => (inr e, f0)
  | None =>
      let coll := ProviderCollateral prop in
      let pub := publishFee f in
      let availColl := (escrowBalance f - totalCollateralTagged (tagged f))%Z in
      let availPub := (walletBalance f - totalPublishTagged (tagged f))%Z in
      if ((availColl <? coll) || (availPub <? pub))%Z then
        (inr (ErrorWrap "tagging funds" ErrInsufficientFunds), f0)
      else
        (inl {| Collateral := coll; PublishMessage := pub;
                TotalPublishMessage := (totalPublishTagged (tagged f) + pub)%Z;
                TotalCollateral := (totalCollateralTagged (tagged f) + coll)%Z;
                AvailablePublishMessage := (availPub - pub)%Z;
                AvailableCollateral := (availColl - coll)%Z |},
         {| escrowBalance := escrowBalance f; walletBalance := walletBalance f;
            publishFee := publishFee f;
            tagged := <[u := (coll, pub)]> (tagged f); tagFaults := rest |})
  end.

Definition Funds_UntagFunds (u : UUID) (f : Funds)
  : (TokenAmount * TokenAmount + error) * Funds :=
  match tagged f !! u with
  | Some amt =>
      (inl amt,
       {| escrowBalance := escrowBalance f; walletBalance := walletBalance f;
          publishFee := publishFee f; tagged := delete u (tagged f);
          tagFaults := tagFaults f |})
  | None => (inr ErrNotFound, f)
  end.

#[export] Instance Funds_FundManager : FundManager Funds :=
  {| TagFunds := Funds_TagFunds; UntagFunds := Funds_UntagFunds |}.

#[export] Instance Funds_FundView : FundView Funds := {| fundTags := tagged |}.

(** Modelled from the spec: the storage manager of section 4.2 and the
    staging directory of section 6.  A free-bytes counter is decremented
    under [Tag], which fails with [ErrNoSpaceLeft] if the reservation would
    drive it negative; downloads land in [<stagingRoot>/<UUID>.car].  The
    call site in [processDealProposal] says that [DownloadFilePath] creates
    the file, so it does here. *)
Record Storage : Type := {
  freeBytes : N;
  reserved : gmap UUID N;
  files : gset string;
  storageFaults : faults
}.

Definition stagingRoot : string := "/staging".

Definition Storage_path (u : UUID) : string :=
  stagingRoot +:+ "/" +:+ pretty u +:+ ".car".

Definition Storage_Tag (u : UUID) (size : N) (s : Storage) : option error * Storage :=
  let '(flt, rest) := next_fault (storageFaults s) in
  let s0 := {| freeBytes := freeBytes s; reserved := reserved s;
               files := files s; storageFaults := rest |} in
  match flt with
  | Some e => (Some e, s0)
  | None =>
      if (freeBytes s <? size)%N then (Some ErrNoSpaceLeft, s0)
      else (None,
            {| freeBytes := (freeBytes s - size)%N;
               reserved := <[u := size]> (reserved s);
               files := files s; storageFaults := rest |})
  end.

Definition Storage_Untag (u : UUID) (s : Storage) : option error * Storage :=
  match reserved s !! u with
  | Some size =>
      (None,
       {| freeBytes := (freeBytes s + size)%N; reserved := delete u (reserved s);
          files := files s; storageFaults := storageFaults s |})
  | None => (Some ErrNotFound, s)
  end.

Definition Storage_DownloadFilePath (u : UUID) (s : Storage) : (string + error) * Storage :=
  let '(flt, rest) := next_fault (storageFaults s) in
  match flt with
  | Some e =>
      (inr e, {| freeBytes := freeBytes s; reserved := reserved s;
                 files := files s; storageFaults := rest |})
  | None =>
      let path := Storage_path u in
      (inl path, {| freeBytes := freeBytes s; reserved := reserved s;
                    files := files s ∪ {[ path ]};
                    storageFaults := rest |})
  end.

Definition Storage_osRemove (path : string) (s : Storage) : Storage :=
  {| freeBytes := freeBytes s; reserved := reserved s;
     files := files s ∖ {[ path ]};
     storageFaults := storageFaults s |}.

#[export] Instance Storage_StorageManager : StorageManager Storage :=
  {| Tag := Storage_Tag; Untag := Storage_Untag;
     DownloadFilePath := Storage_DownloadFilePath; osRemove := Storage_osRemove |}.

(** Modelled from the spec: the deals database of section 4.3, one row per
    deal; a lookup answers the row or [sql.ErrNoRows], [Insert] requires a
    fresh UUID, and any call fails with the scheduled error when the
    database cannot be reached. *)
Record Deals : Type := {
  rows : list ProviderDealState;
  dbFaults : faults
}.

(** The content address of a signed proposal stands for the proposal and
    its signature. *)
Definition signedCid (d : ProviderDealState) : Cid + error :=
  inl (PieceCID (Proposal (ClientDealProposal_ d)) +:+ "/"
       +:+ ClientSignature (ClientDealProposal_ d)).

Definition has_cid (c : Cid) (d : ProviderDealState) : bool :=
  match signedCid d with
  | inl c' => String.eqb c c'
  | inr _ => false
  end.

Definition has_uuid (u : UUID) (d : ProviderDealState) : bool :=
  N.eqb (DealUuid d) u.

Definition Deals_pop (db : Deals) : option error * Deals :=
  let '(flt, rest) := next_fault (dbFaults db) in
  (flt, {| rows := rows db; dbFaults := rest |}).

Definition Deals_BySignedProposalCID (c : Cid) (db : Deals)
  : (ProviderDealState + error) * Deals :=
  let '(flt, db0) := Deals_pop db in
  match flt with
  | Some e => (inr e, db0)
  | None =>
      match List.find (has_cid c) (rows db) with
      | Some d => (inl d, db0)
      | None => (inr ErrNoRows, db0)
      end
  end.

Definition Deals_ByID (u : UUID) (db : Deals) : (ProviderDealState + error) * Deals :=
  let '(flt, db0) := Deals_pop db in
  match flt with
  | Some e => (inr e, db0)
  | None =>
      match List.find (has_uuid u) (rows db) with
      | Some d => (inl d, db0)
      | None => (inr ErrNoRows, db0)
      end
  end.

Definition Deals_Insert (d : ProviderDealState) (db : Deals) : option error * Deals :=
  let '(flt, db0) := Deals_pop db in
  match flt with
  | Some e => (Some e, db0)
  | None =>
      if existsb (has_uuid (DealUuid d)) (rows db) then
        (Some (ErrorNew "UNIQUE constraint failed: Deals.ID"), db0)
      else if match signedCid d with
              | inl c => existsb (has_cid c) (rows db)
              | inr _ => false
              end then
        (Some (ErrorNew "UNIQUE constraint failed: Deals.SignedProposalCID"), db0)
      else
        (None, {| rows := rows db ++ [d]; dbFaults := dbFaults db0 |})
  end.

#[export] Instance Deals_DealsDB : DealsDB Deals :=
  {| BySignedProposalCID := Deals_BySignedProposalCID;
     ByID := Deals_ByID; Insert := Deals_Insert |}.

(** The surroundings: what the sealing pipeline and the deal filter answer,
    a clock that advances with every reading, and what the event bus
    answers when asked for an emitter. *)
Record Env : Type := {
  sealingStatus : Status + error;
  dealFilter : DealFilterParams -> bool * string + error;
  clock : Time;
  emitterError : option error
}.

Definition Env_Now (e : Env) : Time * Env :=
  (clock e, {| sealingStatus := sealingStatus e; dealFilter := dealFilter e;
               clock := (clock e + 1)%Z; emitterError := emitterError e |}).

#[export] Instance Env_Runtime : Runtime Env :=
  {| GetStatus := fun e => (sealingStatus e, e);
     df := fun params e => (dealFilter e params, e);
     Now := Env_Now;
     Emitter := fun _ e => (emitterError e, e) |}.

#[export] Instance codec : Codec :=
  {| SignedProposalCid := signedCid;
     uuidString := fun u => pretty u;
     timeString := fun t => pretty t |}.

#[export] Instance Storage_StorageView : StorageView Storage :=
  {| storageTags := reserved; stagingFiles := files;
     downloadPath := Storage_path |}.

#[export] Instance methods : ProviderMethods Funds Storage Deals Env :=
  {| mkAndInsertDealHandler :=
       fun u p => ({| dhDealUuid := u; dhBus := u |}, p);
     failDeal := fun _ _ p => p;
     cleanupDealLogged := fun _ p => p;
     fireEventDealNew := fun _ p => p;
     fireEventDealUpdate := fun _ p => p |}.

End Ref.

(** ** Reading a run

    The vocabulary the statements below are written in: the stages of the
    accept sequence and where a run's events fall in it, what a cleanup
    records, and a few tests on events. *)







(** A message names a deal when the deal's UUID, as printed, occurs in it. *)
Definition names `{Codec} (u : UUID) (msg : string) : Prop :=
  exists pre post, msg = pre +:+ uuidString u +:+ post.

(** What [cleanup] records for a deal, given what the two untag calls
    answer: [NotFound] from either is passed over in silence. *)
Definition cleanupEvents (d : ProviderDealState)
    (rf : TokenAmount * TokenAmount + error) (rs : option error) : list Event :=
  [EvUntagFunds (DealUuid d) rf]
  ++ match rf with
     | inr errf =>
         if Is errf NotFound then []
         else [EvLogError (DealUuid d) "failed to untag funds during deal cleanup" errf]
     | inl (collat, pub) =>
         [EvInfow (DealUuid d) "untagged funds for deal cleanup"
            [VStr "untagged publish"; VAmt pub; VStr "untagged collateral"; VAmt collat;
             VStr "err"; VErr None]]
     end
  ++ [EvUntag (DealUuid d) rs]
  ++ match rs with
     | Some e =>
         if Is e NotFound then []
         else [EvLogError (DealUuid d) "failed to untag storage during deal cleanup" e]
     | None =>
         [EvInfow (DealUuid d) "untagged storage for deal cleanup"
            [VSize (TransferSize (Transfer_ d))]]
     end
  ++ (if String.eqb (InboundFilePath d) "" then [] else [EvRemove (InboundFilePath d)]).

Arguments cleanupEvents : simpl never.

(** The kinds of event a cleanup records. *)
Definition isCleanupEvent (e : Event) : bool :=
  match e with
  | EvUntagFunds _ _ | EvUntag _ _ | EvRemove _
  | EvInfow _ _ _ | EvLogError _ _ _ => true
  | _ => false
  end.

(** An untag call went well when it answered no error, or [NotFound]. *)
Definition untagFundsOk (rf : TokenAmount * TokenAmount + error) : bool :=
  match rf with inl _ => true | inr e => Is e NotFound end.

Definition untagOk (rs : option error) : bool :=
  match rs with None => true | Some e => Is e NotFound end.

(** How a failed fund tagging is classified, in either path that tags
    funds. *)
Definition tagFundsRejection (err0 : error) : acceptError :=
  let err := ErrorWrap "failed to tag funds for deal" err0 in
  if Is err0 InsufficientFunds then
    {| aeError := err;
       reason := "server error: provider has insufficient funds to accept deal";
       isSevereError := false |}
  else
    {| aeError := err; reason := "server error: tag funds"; isSevereError := true |}.

(** What the loop records when it turns a request down. *)
Definition rejectionEvents (dealReq : acceptDealReq) (aerr : acceptError) : list Event :=
  let id := DealUuid (deal dealReq) in
  let resp := {| ri := {| RiAccepted := false; RiReason := reason aerr |};
                 respErr := None |} in
  if isSevereError aerr then
    [EvLogError id "error while processing deal acceptance request" (aeError aerr);
     EvSendRsp (rsp dealReq) resp]
  else
    [EvInfow id "deal acceptance request rejected" [VStr "reason"; VStr (reason aerr)];
     EvSendRsp (rsp dealReq) resp].

Definition acceptedResp : acceptDealResp :=
  {| ri := {| RiAccepted := true; RiReason := "" |}; respErr := None |}.

(** What the loop records when it starts a deal: the fiber is spawned,
    then the client is answered. *)
Definition startEvents (dealReq : acceptDealReq) (d' : ProviderDealState) : list Event :=
  [EvWgAdd; EvGoDoDeal d' (dh dealReq); EvSendRsp (rsp dealReq) acceptedResp].

Definition isLogError (e : Event) : bool :=
  match e with EvLogError _ _ _ => true | _ => false end.

Definition isAcceptedReply (e : Event) : bool :=
  match e with EvSendRsp _ resp => RiAccepted (ri resp) | _ => false end.

Definition isSpawn (e : Event) : bool :=
  match e with EvGoDoDeal _ _ => true | _ => false end.

Definition isTagging (e : Event) : bool :=
  match e with EvTagFunds _ _ _ | EvTag _ _ _ => true | _ => false end.

(** Some event satisfying [a] comes before some event satisfying [b]. *)
Fixpoint precedes (a b : Event -> bool) (tr : list Event) : bool :=
  match tr with
  | [] => false
  | e :: rest => (a e && existsb b rest) || precedes a b rest
  end.

(** The loop's work on the messages it was handed, up to the point where
    its context is done. *)
Section Handled.
Context {F S D R : Type}.
Context `{FM : FundManager F} `{SM : StorageManager S}.
Context `{DB : DealsDB D} `{RT : Runtime R} `{CD : Codec}.
Context `{PM : ProviderMethods F S D R}.

Fixpoint handled (msgs : list Msg) : M F S D R unit :=
  match msgs with
  | [] => ret tt
  | m :: rest => bind (loopCase m) (fun _ => handled rest)
  end.

End Handled.

(** What a finish release records, given what the two untag calls answer. *)
Definition finishEvents (req : finishedDealReq)
    (rf : TokenAmount * TokenAmount + error) (rs : option error) : list Event :=
  let u := DealUuid (finDeal req) in
  [EvInfow u "deal finished" []; EvUntagFunds u rf]
  ++ match rf with
     | inr errf =>
         if Is errf NotFound then [] else [EvLogError u "failed to untag funds" errf]
     | inl (collat, pub) =>
         [EvInfow u "untagged funds for deal as deal finished"
            [VStr "untagged publish"; VAmt pub; VStr "untagged collateral"; VAmt collat;
             VStr "err"; VErr None]]
     end
  ++ [EvUntag u rs]
  ++ match rs with
     | Some e => if Is e NotFound then [] else [EvLogError u "failed to untag storage" e]
     | None => [EvInfow u "untagged storage space for deal" []]
     end
  ++ [EvSendDone (finDone req)].

(** What a publish release records, given what the untag call answers. *)
Definition publishEvents (req : publishDealReq)
    (rf : TokenAmount * TokenAmount + error) : list Event :=
  let u := DealUuid (pubDeal req) in
  [EvUntagFunds u rf;
   match rf with
   | inr errf => EvLogError u "failed to untag funds" errf
   | inl (collat, pub) =>
       EvInfow u "untagged funds for deal after publish"
         [VStr "untagged publish"; VAmt pub; VStr "untagged collateral"; VAmt collat]
   end;
   EvSendDone (pubDone req)].

(** What a storage release records, given what the untag call answers. *)
Definition storageSpaceEvents (req : storageSpaceDealReq) (rs : option error) : list Event :=
  let u := DealUuid (spcDeal req) in
  [EvUntag u rs;
   match rs with
   | Some e =>
       if Is e NotFound then EvInfow u "untagged storage space" []
       else EvLogError u "failed to untag storage space" e
   | None => EvInfow u "untagged storage space" []
   end;
   EvCloseDone (spcDone req)].

Arguments finishEvents : simpl never.
Arguments publishEvents : simpl never.
Arguments storageSpaceEvents : simpl never.

Definition isDone (e : Event) : bool :=
  match e with EvCloseDone _ | EvSendDone _ => true | _ => false end.

(** The bytes of staging storage tagged for a deal. *)
Definition taggedBytes {St : Type} `{StorageView St} (s : St) (u : UUID) : N :=
  default 0%N (storageTags s !! u).

(** Whether funds are tagged for a deal. *)
Definition fundsTagged {Fd : Type} `{FundView Fd} (f : Fd) (u : UUID) : bool :=
  bool_decide (is_Some (fundTags f !! u)).

(** ** Sample runs

    A provider with funds and space to spare, one whose escrow is short,
    one whose database fails on the third call, and proposals to hand
    them. *)

Module Ex.

Import Ref.

Definition prop : DealProposal :=
  {| PieceCID := "baga6ea4seaq"; PieceSize := 67108864%N; VerifiedDeal := false;
     Client := "f0100"; ProviderAddr := "f01000"; Label := "";
     StartEpoch := 1000%Z; EndEpoch := 2000%Z;
     StoragePricePerEpoch := 1%Z; ProviderCollateral := 5%Z;
     ClientCollateral := 0%Z |}.

Definition online : ProviderDealState :=
  {| DealUuid := 7%N; CreatedAt := 0%Z;
     ClientDealProposal_ := {| Proposal := prop; ClientSignature := "sig" |};
     IsOffline := false; ClientPeerID := "12D3KooW"; DealDataRoot := "bafyroot";
     InboundFilePath := "";
     Transfer_ := {| TransferType := "http"; TransferClientID := "";
                     TransferParams := "{}"; TransferSize := 62914560%N |};
     ChainDealID := 0%N; PublishCID := None; SectorID := 0%N; Offset := 0%N;
     Length := 0%N; Checkpoint_ := Accepted; CheckpointAt := 0%Z; Err := "";
     NBytesReceived := 0%Z |}.

Definition offline : ProviderDealState :=
  {| DealUuid := 8%N; CreatedAt := 0%Z;
     ClientDealProposal_ := {| Proposal := prop; ClientSignature := "sig8" |};
     IsOffline := true; ClientPeerID := "12D3KooW"; DealDataRoot := "bafyroot";
     InboundFilePath := "";
     Transfer_ := {| TransferType := ""; TransferClientID := "";
                     TransferParams := ""; TransferSize := 62914560%N |};
     ChainDealID := 0%N; PublishCID := None; SectorID := 0%N; Offset := 0%N;
     Length := 0%N; Checkpoint_ := Accepted; CheckpointAt := 0%Z; Err := "";
     NBytesReceived := 0%Z |}.

Definition handler (u : UUID) : dealHandler := {| dhDealUuid := u; dhBus := u |}.

Definition proposeOnline : acceptDealReq :=
  {| rsp := 1%N; deal := online; dh := handler 7%N; isImport := false |}.

Definition proposeOffline : acceptDealReq :=
  {| rsp := 2%N; deal := offline; dh := handler 8%N; isImport := false |}.

Definition importOffline : acceptDealReq :=
  {| rsp := 3%N; deal := offline; dh := handler 8%N; isImport := true |}.

Definition env : Env :=
  {| sealingStatus := inl {| SectorStates := [("Proving", 3%Z)]; Workers := [] |};
     dealFilter := fun _ => inl (true, "");
     clock := 1700000000%Z;
     emitterError := None |}.

Definition funds (escrow : TokenAmount) : Funds :=
  {| escrowBalance := escrow; walletBalance := 10%Z; publishFee := 1%Z;
     tagged := ∅; tagFaults := [] |}.

Definition storage : Storage :=
  {| freeBytes := 104857600%N; reserved := ∅; files := ∅; storageFaults := [] |}.

Definition rich : Provider Funds Storage Deals Env :=
  {| fundManager := funds 100%Z; storageManager := storage;
     dealsDB := {| rows := []; dbFaults := [] |}; runtime := env |}.


(** The database answers two lookups and then cannot be reached. *)
Definition failing : Provider Funds Storage Deals Env :=
  {| fundManager := funds 100%Z; storageManager := storage;
     dealsDB := {| rows := [];
                   dbFaults := [None; None; Some (ErrorNew "database is locked")] |};
     runtime := env |}.

(** A provider holding the online deal already. *)
Definition holding : Provider Funds Storage Deals Env :=
  {| fundManager := funds 100%Z; storageManager := storage;
     dealsDB := {| rows := [online]; dbFaults := [] |}; runtime := env |}.

(** A provider with 60 MiB tagged for the online deal. *)
Definition tagging : Provider Funds Storage Deals Env :=
  {| fundManager :=
       {| escrowBalance := 100%Z; walletBalance := 10%Z; publishFee := 1%Z;
          tagged := {[ 7%N := (5%Z, 1%Z) ]}; tagFaults := [] |};
     storageManager :=
       {| freeBytes := 41943040%N; reserved := {[ 7%N := 62914560%N ]};
          files := {[ Storage_path 7%N ]}; storageFaults := [] |};
     dealsDB := {| rows := [online]; dbFaults := [] |}; runtime := env |}.


(** How a failed insert is rejected. *)
Definition saveToDb : acceptError :=
  {| aeError := ErrorWrap "failed to insert deal in db" (ErrorNew "database is locked");
     reason := "server error: save to db";
     isSevereError := true |}.

Definition release1 : storageSpaceDealReq := {| spcDeal := online; spcDone := 11%N |}.
Definition release2 : storageSpaceDealReq := {| spcDeal := online; spcDone := 12%N |}.
Definition finish : finishedDealReq := {| finDeal := online; finDone := 13%N |}.
Definition publish1 : publishDealReq := {| pubDeal := online; pubDone := 14%N |}.
Definition publish2 : publishDealReq := {| pubDeal := online; pubDone := 15%N |}.

End Ex.
(** ** Answers and spawns

    What the loop itself does with a message, as opposed to the calls the
    acceptance routines make on the components: it answers on the
    message's channel, and it may start the deal's goroutine. *)

Inductive Answer : Type :=
| Replied (c : chan)       (* a response sent on the rsp channel of an accept request *)
| DoneClosed (c : chan)    (* close(done) *)
| DoneSent (c : chan).     (* done <- struct{}{} *)

Definition answerOf (e : Event) : option Answer :=
  match e with
  | EvSendRsp c _ => Some (Replied c)
  | EvCloseDone c => Some (DoneClosed c)
  | EvSendDone c => Some (DoneSent c)
  | _ => None
  end.

(** The answer a message is owed. *)
Definition answerDue (m : Msg) : Answer :=
  match m with
  | acceptDealChan dealReq => Replied (rsp dealReq)
  | storageSpaceChan req => DoneClosed (spcDone req)
  | publishedDealChan req => DoneSent (pubDone req)
  | finishedDealChan req => DoneSent (finDone req)
  end.

(** The events only the loop records, never an acceptance routine. *)
Definition isLoopEvent (e : Event) : bool :=
  match e with
  | EvSendRsp _ _ | EvWgAdd | EvGoDoDeal _ _
  | EvCloseDone _ | EvSendDone _ | EvLoopComplete => true
  | _ => false
  end.

(** Every [go] statement comes right after a [wg.Add(1)], and every
    [wg.Add(1)] is followed at once by a [go] statement. *)
Fixpoint spawnsBalanced (tr : list Event) : bool :=
  match tr with
  | [] => true
  | EvWgAdd :: rest =>
      match rest with
      | EvGoDoDeal _ _ :: rest' => spawnsBalanced rest'
      | _ => false
      end
  | EvGoDoDeal _ _ :: _ => false
  | _ :: rest => spawnsBalanced rest
  end.

(** The acceptance routine the loop hands a request to. *)
Section Routine.
Context {F S D R : Type}.
Context `{FM : FundManager F} `{SM : StorageManager S}.
Context `{DB : DealsDB D} `{RT : Runtime R} `{CD : Codec}.
Context `{PM : ProviderMethods F S D R}.

Definition routineOf (dealReq : acceptDealReq)
  : M F S D R (ProviderDealState * option acceptError) :=
  if IsOffline (deal dealReq) then
    if isImport dealReq then processImportOfflineDealData (deal dealReq)
    else processOfflineDealProposal (deal dealReq)
  else processDealProposal (deal dealReq).

End Routine.

(** Whether the loop starts the deal's goroutine for a request that was
    accepted: not for an offline proposal, which waits for its data. *)
Definition startsFiber (dealReq : acceptDealReq) : bool :=
  negb (IsOffline (deal dealReq) && negb (isImport dealReq)).

(** How a failed storage tagging is classified. *)
Definition tagStorageRejection (err0 : error) : acceptError :=
  let err := ErrorWrap "failed to tag storage for deal" err0 in
  if Is err0 NoSpaceLeft then
    {| aeError := err;
       reason := "server error: provider has no space left for storage deals";
       isSevereError := false |}
  else
    {| aeError := err; reason := "server error: tag storage"; isSevereError := true |}.

(** What the loop sends the client for what an acceptance routine
    returned. *)
Definition replyFor (aerr : option acceptError) : acceptDealResp :=
  match aerr with
  | None => acceptedResp
  | Some a => {| ri := {| RiAccepted := false; RiReason := reason a |}; respErr := None |}
  end.

(** The deal a message is about. *)
Definition dealOf (m : Msg) : ProviderDealState :=
  match m with
  | acceptDealChan dealReq => deal dealReq
  | storageSpaceChan req => spcDeal req
  | publishedDealChan req => pubDeal req
  | finishedDealChan req => finDeal req
  end.

(** An offline proposal: the one request the loop hands to provider methods
    whose bodies are not among the sources. *)
Definition isOfflineProposal (m : Msg) : bool :=
  match m with
  | acceptDealChan dealReq => negb (startsFiber dealReq)
  | _ => false
  end.

(** More sample providers and requests. *)

Module Ex2.

Import Ref.

(** No room in the staging area for the 60 MiB of the online deal. *)
Definition cramped : Provider Funds Storage Deals Env :=
  {| fundManager := Ex.funds 100%Z;
     storageManager :=
       {| freeBytes := 1024%N; reserved := ∅; files := ∅; storageFaults := [] |};
     dealsDB := {| rows := []; dbFaults := [] |}; runtime := Ex.env |}.

(** A deal filter that turns every deal down. *)
Definition choosy : Provider Funds Storage Deals Env :=
  {| fundManager := Ex.funds 100%Z; storageManager := Ex.storage;
     dealsDB := {| rows := []; dbFaults := [] |};
     runtime :=
       {| sealingStatus := sealingStatus Ex.env;
          dealFilter := fun _ => inl (false, "not taking deals today");
          clock := clock Ex.env; emitterError := None |} |}.

(** The sealing pipeline cannot be reached. *)
Definition stalled : Provider Funds Storage Deals Env :=
  {| fundManager := Ex.funds 100%Z; storageManager := Ex.storage;
     dealsDB := {| rows := []; dbFaults := [] |};
     runtime :=
       {| sealingStatus := inr (ErrorNew "connection refused");
          dealFilter := dealFilter Ex.env;
          clock := clock Ex.env; emitterError := None |} |}.

Definition finishOffline : finishedDealReq := {| finDeal := Ex.offline; finDone := 16%N |}.

End Ex2.

(** ** The status line of a deal ([gql/resolver.go])

    [dealResolver.Message] renders the state of a deal for the user
    interface from the deal's checkpoint, its error and the number of bytes
    transferred so far. *)

Module Gql.

(** The checkpoints [Message] tells apart by name; [Other] stands for any
    other checkpoint of package [dealcheckpoints], under the name its
    [String] method gives it. *)
Inductive Checkpoint : Type :=
| New | Transferred | AddedPiece | Complete
| Other (name : string).

Definition Checkpoint_String (c : Checkpoint) : string :=
  match c with
  | New => "New" | Transferred => "Transferred" | AddedPiece => "AddedPiece"
  | Complete => "Complete" | Other name => name
  end.

(** How a call ends: with a value, or in a run-time panic. *)
Inductive outcome (A : Type) : Type :=
| Returns (a : A)
| Panics (msg : string).
Arguments Returns {A} a.
Arguments Panics {A} msg.

(** Arithmetic on [uint64] wraps around. *)
Definition uint64 (n : N) : N := (n mod 2 ^ 64)%N.

(** What [Message] reads of a [dealResolver]: of the deal state it embeds,
    the checkpoint, the error and the piece size of the proposal; and the
    bytes transferred. *)
Record dealResolver : Type := {
  drCheckpoint : Checkpoint;
  drErr : string;
  drPieceSize : N;       (* ClientDealProposal.Proposal.PieceSize *)
  transferred : N
}.

Definition Message (dr : dealResolver) : outcome string :=
  match drCheckpoint dr with
  | New =>
      if (transferred dr =? 0)%N then Returns "Transfer queued"
      else if (transferred dr =? 100)%N then Returns "Transfer Complete"
      else
        if (drPieceSize dr =? 0)%N then Panics "runtime error: integer divide by zero"
        else
          let pct := (uint64 (100 * transferred dr) / drPieceSize dr)%N in
          Returns ("Transferring " +:+ pretty pct +:+ "%")
  | Transferred => Returns "Publishing"
  | AddedPiece => Returns "Sealing"
  | Complete =>
      if String.eqb (drErr dr) "" then Returns "Complete"
      else if String.eqb (drErr dr) "Cancelled" then Returns "Cancelled"
      else Returns ("Error: " +:+ drErr dr)
  | Other _ => Returns (Checkpoint_String (drCheckpoint dr))
  end.

(** A deal of 2 GiB of which 512 MiB have arrived. *)
Definition arriving : dealResolver :=
  {| drCheckpoint := New; drErr := ""; drPieceSize := 2147483648%N;
     transferred := 536870912%N |}.

(** A deal of 2 GiB, all of them transferred. *)
Definition landed : dealResolver :=
  {| drCheckpoint := New; drErr := ""; drPieceSize := 2147483648%N;
     transferred := 2147483648%N |}.

(** A deal of 100 bytes, all of them transferred. *)
Definition tiny : dealResolver :=
  {| drCheckpoint := New; drErr := ""; drPieceSize := 100%N; transferred := 100%N |}.

End Gql.
(** ** The client command that proposes a deal ([cmd/boost/deal_cmd.go])

    [dealCmdAction] reads its flags, sets up a node and a gateway
    connection, connects to the storage provider, builds and signs a deal
    proposal and sends it over a stream on the v1.2.0 deal protocol.  What
    it calls outside the file is an interface over the state of the world
    around the command. *)

From Stdlib Require Import Ascii.

Module DealCmd.

Definition DealProtocolv120 : string := "/fil/storage/mk/1.2.0".

(** [abi.ChainEpoch] and Go's [int] on a 64-bit platform are signed 64-bit
    integers: their arithmetic wraps around. *)
Definition int64 (z : Z) : Z := ((z + 2 ^ 63) mod 2 ^ 64 - 2 ^ 63)%Z.

Definition Address := string.     (* address.Address, as printed *)

(** The flags of the command as [cli.Context] answers for them: a flag the
    action asks [IsSet] about is an option. *)
Record Flags : Type := {
  flagRepo : string;
  flagProvider : string;
  flagCommp : string;
  flagPieceSize : N;
  flagCarSize : N;
  flagPayloadCid : string;
  flagStartEpoch : option Z;
  flagDuration : Z;
  flagProviderCollateral : option Z;
  flagStoragePricePerEpoch : Z;
  flagVerified : bool;
  flagWallet : string;
  flagHttpUrl : string;
  flagHttpHeaders : option (list string)
}.

Record AddrInfo : Type := { aiID : string; aiAddrs : list string }.

(** [types2.HttpRequest]; [Headers] is a nil map until it is made. *)
Record HttpRequest : Type := {
  URL : string;
  Headers : option (gmap string string)
}.

Record DealCollateralBounds : Type := { boundsMin : TokenAmount; boundsMax : TokenAmount }.

(** [types.DealParams] as the command fills it. *)
Record DealParams : Type := {
  DealUUID : UUID;
  ClientDealProposal_ : ClientDealProposal;
  DealDataRoot : Cid;
  IsOffline : bool;
  Transfer_ : Transfer
}.

Record DealResponse : Type := { Accepted : bool; Message : string }.

Inductive LogArg : Type :=
| LStr (s : string)
| LStrs (l : list string)
| LEpoch (z : Z).

Inductive Ev : Type :=
| EvSetup (repo : string) (r : option error)
| EvGetGatewayAPI (r : option error)
| EvCloser
| EvGetProvidedOrDefaultWallet (wallet : string) (r : Address + error)
| EvDebugw (msg : string) (kvs : list LogArg)
| EvGetAddrInfo (maddr : Address) (r : AddrInfo + error)
| EvConnect (ai : AddrInfo) (r : option error)
| EvUuidNew (u : UUID)
| EvCollateralBounds (size : N) (verified : bool) (r : DealCollateralBounds + error)
| EvChainHead (r : Z + error)
| EvWalletSign (addr : Address) (buf : string) (r : string + error)
| EvNewStream (peer : string) (protocol : string) (r : option error)
| EvStreamClose
| EvDoRpc (req : DealParams) (r : DealResponse + error)
| EvPrintln (msg : string).

(** The events of the steps that are named on their own below:
    [providerCollateralFor], [startEpochFor] and [dealProposal]. *)
Definition isStepEvent (e : Ev) : bool :=
  match e with
  | EvCollateralBounds _ _ _ | EvChainHead _ | EvDebugw _ _ | EvWalletSign _ _ _ => true
  | _ => false
  end.

(** The node, the gateway, the wallet and the network, over the state [W]
    of the world. *)
Class World (W : Type) : Type := {
  Setup : string -> W -> option error * W;
  GetGatewayAPI : W -> option error * W;
  closer : W -> W;
  GetProvidedOrDefaultWallet : string -> W -> (Address + error) * W;
  GetAddrInfo : Address -> W -> (AddrInfo + error) * W;
  Connect : AddrInfo -> W -> option error * W;
  uuidNew : W -> UUID * W;
  StateDealProviderCollateralBounds : N -> bool -> W -> (DealCollateralBounds + error) * W;
  (* the height of the chain head *)
  ChainHead : W -> (Z + error) * W;
  WalletSign : Address -> string -> W -> (string + error) * W;
  NewStream : string -> string -> W -> option error * W;
  streamClose : W -> W;
  (* the response is read only when there is no error *)
  doRpc : DealParams -> W -> (DealResponse + error) * W;
  Println : string -> W -> W
}.

(** Parsers and printers of the libraries. *)
Class Formats : Type := {
  addressNewFromString : string -> Address + error;
  cidParse : string -> Cid + error;
  jsonMarshal : HttpRequest -> string + error;
  cborDump : DealProposal -> string + error;
  uuidToString : UUID -> string;
  filShort : TokenAmount -> string     (* chain_types.FIL(x).Short() *)
}.

(** [strings.Split(s, sep)] for a separator of one byte: the pieces of [s]
    between the occurrences of the separator, one more than there are
    occurrences. *)
Fixpoint Split (s : string) (sep : ascii) : list string :=
  match s with
  | EmptyString => [EmptyString]
  | String c rest =>
      if Ascii.eqb c sep then EmptyString :: Split rest sep
      else match Split rest sep with
           | w :: ws => String c w :: ws
           | [] => [String c EmptyString]
           end
  end.

(** The loop over the [http-headers] flag: each header is split at ["="]
    and must give two pieces, the key and the value; a later header
    overwrites an earlier one with the same key. *)
Fixpoint parseHeaders (headers : list string) (m : gmap string string)
  : gmap string string + error :=
  match headers with
  | [] => inl m
  | header :: rest =>
      match Split header "="%char with
      | [k; v] => parseHeaders rest (<[k := v]> m)
      | _ => inr (ErrorNew ("malformed http header: " +:+ header))
      end
  end.

(** How often a byte occurs in a string. *)
Definition countByte (c : ascii) (s : string) : nat :=
  count_occ ascii_dec (String.list_ascii_of_string s) c.

(** The value the headers give a key: that of the last header with that
    key. *)
Fixpoint lastValue (key : string) (headers : list string) : option string :=
  match headers with
  | [] => None
  | header :: rest =>
      match lastValue key rest with
      | Some v => Some v
      | None =>
          match Split header "=" with
          | [k; v] => if String.eqb k key then Some v else None
          | _ => None
          end
      end
  end.

Section Command.

Context {W : Type} `{WD : World W} `{FT : Formats}.

Definition C (A : Type) : Type := W -> A * W * list Ev.

Definition ret {A : Type} (a : A) : C A := fun w => (a, w, []).

Definition bind {A B : Type} (m : C A) (k : A -> C B) : C B :=
  fun w =>
    let '(a, w1, t1) := m w in
    let '(b, w2, t2) := k a w1 in
    (b, w2, t1 ++ t2).

Notation "'let*' x ':=' c1 'in' c2" := (bind c1 (fun x => c2))
  (at level 10, x name, c1 at level 100, c2 at level 200).
Notation "c1 ;; c2" := (bind c1 (fun _ => c2))
  (at level 100, c2 at level 200, right associativity).

(** [defer f()]: [f] runs when the rest of the function has returned. *)
Definition defer {A : Type} (f : C unit) (rest : C A) : C A :=
  let* r := rest in
  f ;; ret r.

Definition clinode_Setup (repo : string) : C (option error) :=
  fun w => let '(r, w') := Setup repo w in (r, w', [EvSetup repo r]).

Definition lcli_GetGatewayAPI : C (option error) :=
  fun w => let '(r, w') := GetGatewayAPI w in (r, w', [EvGetGatewayAPI r]).

Definition call_closer : C unit := fun w => (tt, closer w, [EvCloser]).

Definition n_GetProvidedOrDefaultWallet (wallet : string) : C (Address + error) :=
  fun w => let '(r, w') := GetProvidedOrDefaultWallet wallet w in
           (r, w', [EvGetProvidedOrDefaultWallet wallet r]).

Definition log_Debugw (msg : string) (kvs : list LogArg) : C unit :=
  fun w => (tt, w, [EvDebugw msg kvs]).

Definition cmd_GetAddrInfo (maddr : Address) : C (AddrInfo + error) :=
  fun w => let '(r, w') := GetAddrInfo maddr w in (r, w', [EvGetAddrInfo maddr r]).

Definition n_Host_Connect (ai : AddrInfo) : C (option error) :=
  fun w => let '(r, w') := Connect ai w in (r, w', [EvConnect ai r]).

Definition uuid_New : C UUID :=
  fun w => let '(u, w') := uuidNew w in (u, w', [EvUuidNew u]).

Definition api_StateDealProviderCollateralBounds (size : N) (verified : bool)
  : C (DealCollateralBounds + error) :=
  fun w => let '(r, w') := StateDealProviderCollateralBounds size verified w in
           (r, w', [EvCollateralBounds size verified r]).

Definition api_ChainHead : C (Z + error) :=
  fun w => let '(r, w') := ChainHead w in (r, w', [EvChainHead r]).

Definition n_Wallet_WalletSign (addr : Address) (buf : string) : C (string + error) :=
  fun w => let '(r, w') := WalletSign addr buf w in (r, w', [EvWalletSign addr buf r]).

Definition n_Host_NewStream (peer protocol : string) : C (option error) :=
  fun w => let '(r, w') := NewStream peer protocol w in
           (r, w', [EvNewStream peer protocol r]).

Definition s_Close : C unit := fun w => (tt, streamClose w, [EvStreamClose]).

Definition call_doRpc (req : DealParams) : C (DealResponse + error) :=
  fun w => let '(r, w') := doRpc req w in (r, w', [EvDoRpc req r]).

Definition fmt_Println (msg : string) : C unit :=
  fun w => (tt, Println msg w, [EvPrintln msg]).

(** *** [dealProposal] *)

Definition dealProposal (clientAddr : Address) (rootCid : Cid) (pieceSize : N)
    (pieceCid : Cid) (minerAddr : Address) (startEpoch : Z) (duration : Z)
    (verified : bool) (providerCollateral storagePricePerEpoch : TokenAmount)
  : C (ClientDealProposal + error) :=
  let endEpoch := int64 (startEpoch + duration) in
  let proposal :=
    {| PieceCID := pieceCid; PieceSize := pieceSize; VerifiedDeal := verified;
       Client := clientAddr; ProviderAddr := minerAddr; Label := rootCid;
       StartEpoch := startEpoch; EndEpoch := endEpoch;
       StoragePricePerEpoch := storagePricePerEpoch;
       ProviderCollateral := providerCollateral;
       ClientCollateral := 0%Z |} in
  match cborDump proposal with
  | inr err => ret (inr err)
  | inl buf =>
      let* sig := n_Wallet_WalletSign clientAddr buf in
      match sig with
      | inr err => ret (inr (ErrorWrap "wallet sign failed" err))
      | inl sig => ret (inl {| Proposal := proposal; ClientSignature := sig |})
      end
  end.

(** *** [dealCmdAction]

    The action is one function in the source; its three self-contained
    steps (the transfer parameters, the provider collateral, the start
    epoch) and the message it prints are named here and used in place. *)

(** The transfer: for an online deal the URL of the CAR file and the HTTP
    headers go into the transfer parameters. *)
Definition transferFor (cctx : Flags) (isOnline : bool) (carFileSize : N)
  : Transfer + error :=
  let transfer :=
    {| TransferType := ""; TransferClientID := ""; TransferParams := "";
       TransferSize := carFileSize |} in
  if isOnline then
    (* Store the path to the CAR file as a transfer parameter *)
    let headers : option (gmap string string) + error :=
      match flagHttpHeaders cctx with
      | Some hs =>
          match parseHeaders hs ∅ with
          | inl m => inl (Some m)
          | inr err => inr err
          end
      | None => inl None
      end in
    match headers with
    | inr err => inr err
    | inl hdrs =>
        let transferParams := {| URL := flagHttpUrl cctx; Headers := hdrs |} in
        match jsonMarshal transferParams with
        | inr err => inr (ErrorWrap "marshalling request parameters" err)
        | inl paramsBytes =>
            inl {| TransferType := "http"; TransferClientID := "";
                   TransferParams := paramsBytes; TransferSize := carFileSize |}
        end
    end
  else inl transfer.

(** The provider collateral: the flag if it is set, else the minimum of
    the bounds the chain gives for the piece. *)
Definition providerCollateralFor (cctx : Flags) (pieceSize : N)
  : C (TokenAmount + error) :=
  match flagProviderCollateral cctx with
  | Some v => ret (inl v)
  | None =>
      let* r := api_StateDealProviderCollateralBounds pieceSize (flagVerified cctx) in
      match r with
      | inr err => ret (inr (ErrorWrap "node error getting collateral bounds" err))
      | inl bounds => ret (inl (boundsMin bounds))
      end
  end.

(** The start epoch: the flag if it is set, else two days after the chain
    head. *)
Definition startEpochFor (cctx : Flags) : C (Z + error) :=
  match flagStartEpoch cctx with
  | Some v => ret (inl v)
  | None =>
      let* r := api_ChainHead in
      match r with
      | inr err => ret (inr (ErrorWrap "getting chain head" err))
      | inl head =>
          log_Debugw "current block height" [LStr "number"; LEpoch head] ;;
          ret (inl (int64 (head + 5760)))   (* head + 2 days *)
      end
  end.

Definition newline : string := String "010" "".

(** What the command prints when the proposal was accepted. *)
Definition sentMessage (cctx : Flags) (isOnline : bool) (dealUuid : UUID)
    (maddr walletAddr : Address) (rootCid : Cid) (proposal : ClientDealProposal)
  : string :=
  let msg := "sent deal proposal" in
  let msg := if negb isOnline then msg +:+ " for offline deal" else msg in
  let msg := msg +:+ newline in
  let msg := msg +:+ "  deal uuid: " +:+ uuidToString dealUuid +:+ newline in
  let msg := msg +:+ "  storage provider: " +:+ maddr +:+ newline in
  let msg := msg +:+ "  client wallet: " +:+ walletAddr +:+ newline in
  let msg := msg +:+ "  payload cid: " +:+ rootCid +:+ newline in
  let msg := if isOnline
             then msg +:+ "  url: " +:+ flagHttpUrl cctx +:+ newline
             else msg in
  let msg := msg +:+ "  commp: " +:+ PieceCID (Proposal proposal) +:+ newline in
  let msg := msg +:+ "  start epoch: " +:+ pretty (StartEpoch (Proposal proposal))
                 +:+ newline in
  let msg := msg +:+ "  end epoch: " +:+ pretty (EndEpoch (Proposal proposal))
                 +:+ newline in
  msg +:+ "  provider collateral: "
      +:+ filShort (ProviderCollateral (Proposal proposal)) +:+ newline.

Definition dealCmdAction (cctx : Flags) (isOnline : bool) : C (option error) :=
  let* r := clinode_Setup (flagRepo cctx) in
  match r with
  | Some err => ret (Some err)
  | None =>
  let* r := lcli_GetGatewayAPI in
  match r with
  | Some err => ret (Some (ErrorWrap "cant setup gateway connection" err))
  | None =>
  defer call_closer (
  let* r := n_GetProvidedOrDefaultWallet (flagWallet cctx) in
  match r with
  | inr err => ret (Some err)
  | inl walletAddr =>
  log_Debugw "selected wallet" [LStr "wallet"; LStr walletAddr] ;;
  match addressNewFromString (flagProvider cctx) with
  | inr err => ret (Some err)
  | inl maddr =>
  let* r := cmd_GetAddrInfo maddr in
  match r with
  | inr err => ret (Some err)
  | inl addrInfo =>
  log_Debugw "found storage provider"
    [LStr "id"; LStr (aiID addrInfo); LStr "multiaddrs"; LStrs (aiAddrs addrInfo);
     LStr "addr"; LStr maddr] ;;
  let* r := n_Host_Connect addrInfo in
  match r with
  | Some err => ret (Some (ErrorWrap ("failed to connect to peer " +:+ aiID addrInfo) err))
  | None =>
  let* dealUuid := uuid_New in
  let commp := flagCommp cctx in
  match cidParse commp with
  | inr err => ret (Some (ErrorWrap ("parsing commp '" +:+ commp +:+ "'") err))
  | inl pieceCid =>
  let pieceSize := flagPieceSize cctx in
  if (pieceSize =? 0)%N then
    ret (Some (ErrorNew "must provide piece-size parameter for CAR url"))
  else
  let payloadCidStr := flagPayloadCid cctx in
  match cidParse payloadCidStr with
  | inr err => ret (Some (ErrorWrap ("parsing payload cid " +:+ payloadCidStr) err))
  | inl rootCid =>
  let carFileSize := flagCarSize cctx in
  if (carFileSize =? 0)%N then
    ret (Some (ErrorNew "size of car file cannot be 0"))
  else
  match transferFor cctx isOnline carFileSize with
  | inr err => ret (Some err)
  | inl transfer =>
  let* pc := providerCollateralFor cctx pieceSize in
  match pc with
  | inr err => ret (Some err)
  | inl providerCollateral =>
  let* se := startEpochFor cctx in
  match se with
  | inr err => ret (Some err)
  | inl startEpoch =>
  (* Create a deal proposal to storage provider using deal protocol v1.2.0 format *)
  let* r := dealProposal walletAddr rootCid pieceSize pieceCid maddr startEpoch
              (flagDuration cctx) (flagVerified cctx) providerCollateral
              (flagStoragePricePerEpoch cctx) in
  match r with
  | inr err => ret (Some (ErrorWrap "failed to create a deal proposal" err))
  | inl proposal =>
  let dealParams :=
    {| DealUUID := dealUuid; ClientDealProposal_ := proposal; DealDataRoot := rootCid;
       IsOffline := negb isOnline; Transfer_ := transfer |} in
  log_Debugw "about to submit deal proposal" [LStr "uuid"; LStr (uuidToString dealUuid)] ;;
  let* r := n_Host_NewStream (aiID addrInfo) DealProtocolv120 in
  match r with
  | Some err => ret (Some (ErrorWrap ("failed to open stream to peer " +:+ aiID addrInfo) err))
  | None =>
  defer s_Close (
  let* r := call_doRpc dealParams in
  match r with
  | inr err => ret (Some (ErrorWrap "send proposal rpc" err))
  | inl resp =>
  if negb (Accepted resp) then
    ret (Some (ErrorNew ("deal proposal rejected: " +:+ Message resp)))
  else
  fmt_Println (sentMessage cctx isOnline dealUuid maddr walletAddr rootCid proposal) ;;
  ret None
  end)
  end end end end end end end end end end end)
  end end.

End Command.

End DealCmd.

(** A sample world for the command: a gateway whose chain head is at a
    given height, a wallet that signs, and a storage provider that gives a
    fixed answer to every proposal. *)

Module CmdRef.

Import DealCmd.

Record Net : Type := {
  chainHeight : Z;
  providerAnswer : DealResponse + error;
  printed : list string
}.

#[export] Instance Net_World : World Net :=
  {| Setup := fun _ w => (None, w);
     GetGatewayAPI := fun w => (None, w);
     closer := fun w => w;
     GetProvidedOrDefaultWallet :=
       fun wallet w => (inl (if String.eqb wallet "" then "f1default" else wallet), w);
     GetAddrInfo :=
       fun _ w => (inl {| aiID := "12D3KooWProvider";
                          aiAddrs := ["/ip4/127.0.0.1/tcp/24001"] |}, w);
     Connect := fun _ w => (None, w);
     uuidNew := fun w => (42%N, w);
     StateDealProviderCollateralBounds :=
       fun _ _ w => (inl {| boundsMin := 10%Z; boundsMax := 1000%Z |}, w);
     ChainHead := fun w => (inl (chainHeight w), w);
     WalletSign := fun addr buf w => (inl ("signed:" +:+ buf), w);
     NewStream := fun _ _ w => (None, w);
     streamClose := fun w => w;
     doRpc := fun _ w => (providerAnswer w, w);
     Println :=
       fun msg w => {| chainHeight := chainHeight w; providerAnswer := providerAnswer w;
                       printed := printed w ++ [msg] |} |}.

#[export] Instance formats : Formats :=
  {| addressNewFromString :=
       fun s => if String.eqb s "" then inr (ErrorNew "empty address") else inl s;
     cidParse := fun s => if String.eqb s "" then inr (ErrorNew "empty cid") else inl s;
     jsonMarshal := fun r => inl ("{URL:" +:+ URL r +:+ "}");
     cborDump := fun p => inl (PieceCID p +:+ "@" +:+ pretty (StartEpoch p));
     uuidToString := fun u => pretty u;
     filShort := fun a => pretty a +:+ " aFIL" |}.

Definition flags : Flags :=
  {| flagRepo := "~/.boost-client"; flagProvider := "f01000";
     flagCommp := "baga6ea4seaq"; flagPieceSize := 67108864%N;
     flagCarSize := 62914560%N; flagPayloadCid := "bafyroot";
     flagStartEpoch := None; flagDuration := 518400%Z;
     flagProviderCollateral := None; flagStoragePricePerEpoch := 1%Z;
     flagVerified := true; flagWallet := "";
     flagHttpUrl := "http://localhost/deal.car";
     flagHttpHeaders := Some ["Authorization=Bearer abc"; "X-Trace=1"] |}.


Definition accepting : Net :=
  {| chainHeight := 1000%Z;
     providerAnswer := inl {| Accepted := true; Message := "" |};
     printed := [] |}.

Definition rejecting : Net :=
  {| chainHeight := 1000%Z;
     providerAnswer := inl {| Accepted := false; Message := "deal filter rejected deal" |};
     printed := [] |}.

End CmdRef.

(** ** The development network ([devnet]): running the startup commands

    [runCmdsWithLog] runs a list of commands one after the other, their
    output going to a log file; it is how the daemon and the miner of the
    development network are brought up. *)

Module Devnet.

(** How a call ends: the function returns, the process exits
    ([log.Fatal]), or the goroutine panics. *)
Inductive Ending : Type :=
| Returned
| Exited
| Panicked (msg : string).

Inductive Ev : Type :=
| EvCreate (name : string) (r : option error)        (* os.Create *)
| EvFatal (err : error)                              (* log.Fatal *)
| EvClose (name : string)                            (* logFile.Close *)
| EvDebugw (msg : string) (kvs : list string)
| EvRun (args : list string) (env : list string) (logfile : string) (r : option error)
| EvCtxErr (r : option error)
| EvErrorw (msg : string) (err : error) (logfile : string).

(** The operating system and the context, over the state [W] of the world:
    creating the log file, running a command to its end, and asking the
    context whether it was cancelled. *)
Class System (W : Type) : Type := {
  osCreate : string -> W -> option error * W;
  fileClose : string -> W -> W;
  cmdRun : list string -> list string -> string -> W -> option error * W;
  ctxErr : W -> option error * W
}.

(** [strings.Join(elems, sep)] *)
Fixpoint Join (elems : list string) (sep : string) : string :=
  match elems with
  | [] => ""
  | [e] => e
  | e :: rest => e +:+ sep +:+ Join rest sep
  end.

Section Run.

Context {W : Type} `{SY : System W}.

(** The loop of [runCmdsWithLog] over the commands still to run: the
    ending, the world and the events. *)
Fixpoint runLoop (name : string) (logFile : string) (homeDir : string)
    (commands : list (list string)) (w : W) : Ending * W * list Ev :=
  match commands with
  | [] => (Returned, w, [])
  | cmdArgs :: rest =>
      let debug := EvDebugw "running command"
                     ["name"; name; "cmd"; Join cmdArgs " "] in
      match cmdArgs with
      | [] =>
          (* cmdArgs[0] of an empty command *)
          (Panicked "runtime error: index out of range [0] with length 0", w, [debug])
      | _ :: _ =>
          let env := ["HOME=" +:+ homeDir] in
          let '(err, w1) := cmdRun cmdArgs env logFile w in
          match err with
          | None =>
              let '(e, w2, t) := runLoop name logFile homeDir rest w1 in
              (e, w2, debug :: EvRun cmdArgs env logFile err :: t)
          | Some err' =>
              (* If ctx.Err()!=nil, we cancelled the command via SIGINT. *)
              let '(cerr, w2) := ctxErr w1 in
              match cerr with
              | None =>
                  (Returned, w2,
                   [debug; EvRun cmdArgs env logFile err; EvCtxErr cerr;
                    EvErrorw "check logfile for details" err' logFile])
              | Some _ =>
                  let '(e, w3, t) := runLoop name logFile homeDir rest w2 in
                  (e, w3, debug :: EvRun cmdArgs env logFile err :: EvCtxErr cerr :: t)
              end
          end
      end
  end.

Definition runCmdsWithLog (name : string) (commands : list (list string))
    (homeDir : string) (w : W) : Ending * W * list Ev :=
  let logName := name +:+ ".log" in
  let '(err, w1) := osCreate logName w in
  match err with
  | Some e => (Exited, w1, [EvCreate logName err; EvFatal e])
  | None =>
      (* defer logFile.Close() *)
      let '(e, w2, t) := runLoop name logName homeDir commands w1 in
      (e, fileClose logName w2, EvCreate logName err :: t ++ [EvClose logName])
  end.

End Run.

(** The commands a run started, in order. *)
Definition started (tr : list Ev) : list (list string) :=
  omap (fun e => match e with EvRun args _ _ _ => Some args | _ => None end) tr.

(** A command failed while the context was live. *)
Fixpoint failedLive (tr : list Ev) : bool :=
  match tr with
  | EvRun _ _ _ (Some _) :: EvCtxErr None :: _ => true
  | _ :: rest => failedLive rest
  | [] => false
  end.

End Devnet.

(** ** Following a deal ([gql/resolver.go])

    [resolver.DealUpdate] is the subscription behind the deal page: it
    subscribes to the updates of a deal, sends the deal's current state on
    a channel and starts a goroutine that pipes every later update to it. *)

Module GqlSub.

(** [types.ProviderDealInfo]; a [dealResolver] is made of one, field by
    field. *)
Record ProviderDealInfo : Type := {
  Deal : ProviderDealState;
  Transferred : N
}.

Inductive Ev : Type :=
| EvMakeChan                                   (* c := make(chan *dealResolver, 1) *)
| EvSubscribeDealUpdates (u : UUID) (r : option error)
| EvSubscribeNewDeals (r : option error)
| EvCloseChan                                  (* close(c) *)
| EvByID (u : UUID) (r : ProviderDealState + error)
| EvTransferred (u : UUID) (n : N)             (* provider.Transport.Transferred *)
| EvSelectDone                                 (* a select took <-ctx.Done() *)
| EvSend (di : ProviderDealInfo)               (* c <- newDealResolver(di, dealsDB) *)
| EvGo                                         (* the go statement *)
| EvOut (di : ProviderDealInfo)                (* evti := <-sub.Out() *)
| EvSubClose.                                  (* sub.Close() *)

(** The provider, the database and the context of the request, over the
    state [W] of the world.  A [select] is given both its cases; the
    world says which one it takes. *)
Class Surroundings (W : Type) : Type := {
  UnmarshalText : string -> UUID + error;          (* uuid.UUID.UnmarshalText *)
  IsDealExecNotFound : error -> bool;    (* xerrors.Is(err, ErrDealExecNotFound) *)
  SubscribeDealUpdates : UUID -> W -> option error * W;
  SubscribeNewDeals : W -> option error * W;
  ByID : UUID -> W -> (ProviderDealState + error) * W;
  TransportTransferred : UUID -> W -> N * W;
  (* whether the context is done when a select is entered, and its error *)
  ctxDone : W -> bool * W;
  ctxErr : W -> error
}.

(** What the goroutine meets, step by step. *)
Inductive Step : Type :=
| Cancelled                                    (* <-ctx.Done() in the outer select *)
| Updated (di : ProviderDealInfo) (sent : bool). (* an update; whether it was sent
                                                    before the context was done *)

(** What the caller gets: the channel (open or closed) or nothing, and the
    error. *)
Inductive Channel : Type := Open | Closed.

Section Resolver.

Context {W : Type} `{SR : Surroundings W}.

Definition toUuid (id : string) : UUID + error :=
  match UnmarshalText id with
  | inr err => inr (ErrorWrap ("parsing graphql ID '" +:+ id +:+ "' as UUID") err)
  | inl dealUuid => inl dealUuid
  end.

Definition dealByID (dealUuid : UUID) (w : W)
  : (ProviderDealInfo + error) * W * list Ev :=
  let '(r, w1) := ByID dealUuid w in
  match r with
  | inr err => (inr err, w1, [EvByID dealUuid r])
  | inl deal =>
      let '(n, w2) := TransportTransferred (DealUuid deal) w1 in
      (inl {| Deal := deal; Transferred := n |}, w2,
       [EvByID dealUuid r; EvTransferred (DealUuid deal) n])
  end.

(** The goroutine of [DealUpdate]: the events, and whether it has
    returned. *)
Fixpoint pipe (steps : list Step) : list Ev * bool :=
  match steps with
  | [] => ([], false)
  | Cancelled :: _ =>
      (* Connection closed; the deferred sub.Close() runs *)
      ([EvSelectDone; EvSubClose], true)
  | Updated di sent :: rest =>
      (* Pipe the update to the deal subscription channel *)
      if sent then
        let '(t, returned) := pipe rest in
        (EvOut di :: EvSend di :: t, returned)
      else
        ([EvOut di; EvSelectDone; EvSubClose], true)
  end.

(** [DealUpdate]: what it returns, the world after the call, the events
    of the call, and the events of the goroutine if one was started. *)
Definition DealUpdate (id : string) (steps : list Step) (w : W)
  : (option Channel * option error) * W * list Ev :=
  match toUuid id with
  | inr err => ((None, Some err), w, [])
  | inl dealUuid =>
      let '(serr, w1) := SubscribeDealUpdates dealUuid w in
      match serr with
      | Some err =>
          if IsDealExecNotFound err then
            ((Some Closed, None), w1,
             [EvMakeChan; EvSubscribeDealUpdates dealUuid serr; EvCloseChan])
          else
            ((None, Some (ErrorWrap (id +:+ ": subscribing to deal updates") err)), w1,
             [EvMakeChan; EvSubscribeDealUpdates dealUuid serr])
      | None =>
          (* Send an update to the client with the initial state *)
          let '(r, w2, t) := dealByID dealUuid w1 in
          match r with
          | inr err =>
              ((None, Some err), w2,
               [EvMakeChan; EvSubscribeDealUpdates dealUuid serr] ++ t)
          | inl deal =>
              let '(done, w3) := ctxDone w2 in
              if done then
                ((None, Some (ctxErr w3)), w3,
                 [EvMakeChan; EvSubscribeDealUpdates dealUuid serr] ++ t ++ [EvSelectDone])
              else
                ((Some Open, None), w3,
                 [EvMakeChan; EvSubscribeDealUpdates dealUuid serr] ++ t
                 ++ [EvSend deal; EvGo] ++ (pipe steps).1)
          end
      end
  end.

(** [DealNew]: the same goroutine, over the subscription to new deals;
    nothing is sent before it starts. *)
Definition DealNew (steps : list Step) (w : W)
  : (option Channel * option error) * W * list Ev :=
  let '(serr, w1) := SubscribeNewDeals w in
  match serr with
  | Some err =>
      ((None, Some (ErrorWrap "subscribing to new deal events" err)), w1,
       [EvMakeChan; EvSubscribeNewDeals serr])
  | None =>
      ((Some Open, None), w1,
       [EvMakeChan; EvSubscribeNewDeals serr; EvGo] ++ (pipe steps).1)
  end.

End Resolver.

(** What was sent on the channel, in order. *)
Definition delivered (tr : list Ev) : list ProviderDealInfo :=
  omap (fun e => match e with EvSend di => Some di | _ => None end) tr.

(** The updates among the steps of the goroutine, in order. *)
Definition updates (steps : list Step) : list ProviderDealInfo :=
  omap (fun s => match s with Updated di _ => Some di | Cancelled => None end) steps.

End GqlSub.

(** A small world for [DealUpdate]: the answers of the provider and of
    the database are fixed, identifiers are decimal numbers. *)
Module SubRef.

Import GqlSub.

Record Feed : Type := {
  subscribing : option error;
  row : ProviderDealState + error;
  moved : N;
  done : bool
}.

#[export] Instance Feed_Surroundings : Surroundings Feed := {|
  UnmarshalText := fun s =>
    if String.eqb s "7" then inl 7%N else inr (ErrorNew "invalid UUID length");
  IsDealExecNotFound :=
    fix notFound err :=
      match err with
      | ErrorNew msg => String.eqb msg "deal execution not found"
      | ErrorWrap _ cause => notFound cause
      | ErrSentinel _ => false
      end;
  SubscribeDealUpdates := fun _ w => (subscribing w, w);
  SubscribeNewDeals := fun w => (subscribing w, w);
  ByID := fun _ w => (row w, w);
  TransportTransferred := fun _ w => (moved w, w);
  ctxDone := fun w => (done w, w);
  ctxErr := fun _ => ErrorNew "context canceled"
|}.

(** The deal is known and the connection stays open. *)
Definition following : Feed :=
  {| subscribing := None; row := inl Ex.online; moved := 512; done := false |}.

(** The subscription is made, then the database has no such row. *)
Definition vanished : Feed :=
  {| subscribing := None; row := inr (ErrSentinel NoRows); moved := 0;
     done := false |}.

End SubRef.

(** ** A provider whose stores cannot be reached

    The managers of the reference provider behind a store that is locked:
    tagging works as before, every untag call fails with an error that is
    not [NotFound] and releases nothing.  This is the failure the
    [LogError] branches of the cleanup and of the release handlers are
    written for. *)

Module Locked.

Import Ref.

Definition locked : error := ErrorNew "database is locked".

Record LockedFunds : Type := { fundsBehind : Funds }.

Record LockedStorage : Type := { storageBehind : Storage }.

#[export] Instance LockedFunds_FundManager : FundManager LockedFunds :=
  {| TagFunds := fun u prop f =>
       let '(r, f') := Funds_TagFunds u prop (fundsBehind f) in
       (r, {| fundsBehind := f' |});
     UntagFunds := fun _ f => (inr locked, f) |}.

#[export] Instance LockedFunds_FundView : FundView LockedFunds :=
  {| fundTags := fun f => tagged (fundsBehind f) |}.

#[export] Instance LockedStorage_StorageManager : StorageManager LockedStorage :=
  {| Tag := fun u size s =>
       let '(r, s') := Storage_Tag u size (storageBehind s) in
       (r, {| storageBehind := s' |});
     Untag := fun _ s => (Some locked, s);
     DownloadFilePath := fun u s =>
       let '(r, s') := Storage_DownloadFilePath u (storageBehind s) in
       (r, {| storageBehind := s' |});
     osRemove := fun path s =>
       {| storageBehind := Storage_osRemove path (storageBehind s) |} |}.

#[export] Instance LockedStorage_StorageView : StorageView LockedStorage :=
  {| storageTags := fun s => reserved (storageBehind s);
     stagingFiles := fun s => files (storageBehind s);
     downloadPath := Storage_path |}.

#[export] Instance methods : ProviderMethods LockedFunds LockedStorage Deals Env :=
  {| mkAndInsertDealHandler :=
       fun u p => ({| dhDealUuid := u; dhBus := u |}, p);
     failDeal := fun _ _ p => p;
     cleanupDealLogged := fun _ p => p;
     fireEventDealNew := fun _ p => p;
     fireEventDealUpdate := fun _ p => p |}.

(** The managers of a provider, behind the lock. *)
Definition behind (p : Provider Funds Storage Deals Env)
  : Provider LockedFunds LockedStorage Deals Env :=
  {| fundManager := {| fundsBehind := fundManager p |};
     storageManager := {| storageBehind := storageManager p |};
     dealsDB := dealsDB p; runtime := runtime p |}.

(** Funds and 60 MiB tagged for the online deal, and the store locked. *)
Definition tagging : Provider LockedFunds LockedStorage Deals Env := behind Ex.tagging.

(** Nothing held for the online deal, 1 KiB of staging space left, and the
    store locked. *)
Definition cramped : Provider LockedFunds LockedStorage Deals Env := behind Ex2.cramped.

End Locked.

(** A provider of the reference kind that holds funds and 60 MiB for the
    online deal, with no row for it in the database. *)
Definition heldBefore : Provider Ref.Funds Ref.Storage Ref.Deals Ref.Env :=
  {| fundManager := fundManager Ex.tagging;
     storageManager := storageManager Ex.tagging;
     dealsDB := {| Ref.rows := []; Ref.dbFaults := [] |};
     runtime := Ex.env |}.

(** ** Running the reconciler symbolically *)

Ltac head_of t := lazymatch t with ?f _ => head_of f | _ => t end.

(** A scrutinee is stuck when it is a variable or a call that does not
    reduce: a call on a component, or a routine kept folded. *)
Ltac stuck x := let h := head_of x in first [ is_var h | is_const h ].

Ltac run_step :=
  match goal with
  | |- context [match ?x with pair _ _ => _ end] => stuck x; destruct x as [? ?] eqn:?
  | |- context [match ?x with inl _ => _ | inr _ => _ end] => stuck x; destruct x eqn:?
  | |- context [match ?x with Some _ => _ | None => _ end] => stuck x; destruct x eqn:?
  | |- context [if ?b then _ else _] => stuck b; destruct b eqn:?
  end.

Ltac run := repeat (run_step; simplify_eq; cbn).

Create HintDb calls.
#[export] Hint Unfold p_dealsDB_BySignedProposalCID p_dealsDB_ByID p_dealsDB_Insert
  sealingpipeline_GetStatus p_df time_Now dh_bus_Emitter
  p_fundManager_TagFunds p_fundManager_UntagFunds p_storageManager_Tag
  p_storageManager_Untag p_storageManager_DownloadFilePath os_Remove
  p_mkAndInsertDealHandler p_failDeal p_cleanupDealLogged p_fireEventDealNew
  p_fireEventDealUpdate Infow LogError send_rsp logFunds bind ret emit
  with_fundManager with_storageManager with_dealsDB with_runtime : calls.

(** Membership in a list that is written out. *)
Ltac elem_cases H :=
  repeat (lazymatch type of H with
          | _ ∈ _ :: _ => apply elem_of_cons in H as [H | H]; [try discriminate H |]
          end);
  try (lazymatch type of H with _ ∈ [] => apply elem_of_nil in H; destruct H end).

(** *** Lists of events *)






(** Show an event in a list that is written out. *)
Ltac elem_find :=
  apply list_elem_of_In; cbn; repeat first [ left; reflexivity | right ].

Lemma split_here {A : Type} (s : list A) : s = [] ++ s.
Proof. reflexivity. Qed.

Lemma split_later {A : Type} (x : A) (l pre s : list A) :
  l = pre ++ s -> x :: l = (x :: pre) ++ s.
Proof. intros ->. reflexivity. Qed.

(** Find the prefix in front of a suffix that is written out. *)
Ltac solve_split := first [ apply split_here | apply split_later; solve_split ].

Ltac use_tests :=
  repeat match goal with
  | H : ?b = true |- context [?b] => rewrite H
  | H : ?b = false |- context [?b] => rewrite H
  end.


Section ReconcilerFacts.

Context {F S D R : Type}.
Context `{FM : FundManager F} `{SM : StorageManager S}.
Context `{DB : DealsDB D} `{RT : Runtime R} `{CD : Codec}.
Context `{PM : ProviderMethods F S D R}.
Context `{FV : FundView F} `{SV : StorageView S}.

(** [cleanup] as a function of what the two untag calls answer. *)
Lemma cleanup_run (d : ProviderDealState) (p : Provider F S D R) :
  cleanup d p =
    let '(rf, f') := UntagFunds (DealUuid d) (fundManager p) in
    let '(rs, s') := Untag (DealUuid d) (storageManager p) in
    (tt,
     {| fundManager := f';
        storageManager :=
          if String.eqb (InboundFilePath d) "" then s' else osRemove (InboundFilePath d) s';
        dealsDB := dealsDB p; runtime := runtime p |},
     cleanupEvents d rf rs).
Proof.
  destruct p as [f0 s0 d0 r0]. unfold cleanup, cleanupEvents.
  autounfold with calls. cbn. run; reflexivity.
Qed.



Lemma cleanupEvents_kind d rf rs e :
  e ∈ cleanupEvents d rf rs -> isCleanupEvent e = true.
Proof.
  unfold cleanupEvents. intros Hin.
  destruct rf as [[? ?] | e1], rs as [e2 |]; cbn in Hin;
    repeat match type of Hin with context [if ?b then _ else _] => destruct b end;
    cbn in Hin; elem_cases Hin; subst; reflexivity.
Qed.


Lemma cleanupEvents_quiet d rf rs :
  untagFundsOk rf = true -> untagOk rs = true ->
  existsb isLogError (cleanupEvents d rf rs) = false.
Proof.
  unfold cleanupEvents, untagFundsOk, untagOk. intros Hf Hs.
  destruct rf as [[? ?] | e1], rs as [e2 |]; cbn; rewrite ?Hf, ?Hs; cbn;
    destruct (InboundFilePath d =? ""); reflexivity.
Qed.

Lemma cleanupEvents_existsb (P : Event -> bool) d rf rs :
  (forall e, isCleanupEvent e = true -> P e = false) ->
  existsb P (cleanupEvents d rf rs) = false.
Proof.
  intros HP. apply not_true_is_false. intros Hex.
  apply existsb_exists in Hex as (e & Hin & He).
  apply list_elem_of_In, cleanupEvents_kind, HP in Hin. congruence.
Qed.

(** What a cleanup does: both untags, the staging file removed if the deal
    records one, and no error logged when the untags answer nil or
    NotFound. *)
Lemma cleanupEvents_facts d rf rs :
  EvUntagFunds (DealUuid d) rf ∈ cleanupEvents d rf rs
  /\ EvUntag (DealUuid d) rs ∈ cleanupEvents d rf rs
  /\ (forall path, EvRemove path ∈ cleanupEvents d rf rs <->
                   path = InboundFilePath d /\ path <> "")
  /\ (untagFundsOk rf = true -> untagOk rs = true ->
        existsb isLogError (cleanupEvents d rf rs) = false).
Proof.
  split; [unfold cleanupEvents; set_solver |].
  split; [unfold cleanupEvents; set_solver |].
  split; [| apply cleanupEvents_quiet].
  intros path. unfold cleanupEvents.
  destruct (InboundFilePath d =? "") eqn:Hp.
  - apply String.eqb_eq in Hp. split.
    + intros Hin. exfalso.
      destruct rf as [[? ?] | e1], rs as [e2 |]; cbn in Hin;
        repeat match type of Hin with context [if ?b then _ else _] => destruct b end;
        cbn in Hin; elem_cases Hin.
    + intros [-> Hne]. congruence.
  - apply String.eqb_neq in Hp. split.
    + intros Hin.
      destruct rf as [[? ?] | e1], rs as [e2 |]; cbn in Hin;
        repeat match type of Hin with context [if ?b then _ else _] => destruct b end;
        cbn in Hin; elem_cases Hin; by simplify_eq.
    + intros [-> _]. set_solver.
Qed.

(** What the ledgers hold after an untag. *)
Lemma UntagFunds_clears `{!FundManagerSpec F} (u : UUID) (f : F) :
  fundTags (UntagFunds u f).2 !! u = None.
Proof.
  pose proof (UntagFunds_spec u f) as Hs.
  destruct (UntagFunds u f) as [[amt | e] f']; cbn.
  - destruct Hs as [_ ->]. apply lookup_delete_eq.
  - destruct Hs as (_ & Hnone & ->). exact Hnone.
Qed.

Lemma Untag_clears `{!StorageManagerSpec S} (u : UUID) (s : S) :
  storageTags (Untag u s).2 !! u = None.
Proof.
  pose proof (Untag_spec u s) as Hs.
  destruct (Untag u s) as [[e |] s']; cbn.
  - destruct Hs as (_ & Hnone & -> & _). exact Hnone.
  - destruct Hs as (_ & -> & _). apply lookup_delete_eq.
Qed.

(** Tagging and then untagging a deal that held nothing leaves the ledgers
    as they were, whether the tagging went through or not. *)
Lemma funds_restored `{!FundManagerSpec F} (u : UUID) prop (f0 f1 f2 : F) r rf :
  fundTags f0 !! u = None ->
  TagFunds u prop f0 = (r, f1) ->
  UntagFunds u f1 = (rf, f2) ->
  fundTags f2 = fundTags f0.
Proof.
  intros Hfresh Htag Huntag.
  pose proof (TagFunds_spec u prop f0) as Ht. rewrite Htag in Ht.
  pose proof (UntagFunds_spec u f1) as Hu. rewrite Huntag in Hu.
  destruct r as [trsp | e].
  - destruct Ht as [amt Ht]. destruct rf as [amt' | e'].
    + destruct Hu as [_ ->]. rewrite Ht. by apply delete_insert_id.
    + destruct Hu as (_ & Hnone & _). rewrite Ht, lookup_insert_eq in Hnone. discriminate.
  - destruct rf as [amt' | e'].
    + destruct Hu as [Hsome _]. rewrite Ht, Hfresh in Hsome. discriminate.
    + destruct Hu as (_ & _ & ->). exact Ht.
Qed.

Lemma untag_fresh `{!StorageManagerSpec S} (u : UUID) (s0 s1 : S) rs :
  storageTags s0 !! u = None ->
  Untag u s0 = (rs, s1) ->
  storageTags s1 = storageTags s0 /\ stagingFiles s1 = stagingFiles s0.
Proof.
  intros Hfresh Huntag.
  pose proof (Untag_spec u s0) as Hu. rewrite Huntag in Hu.
  destruct rs as [e |].
  - by destruct Hu as (_ & _ & -> & ->).
  - destruct Hu as ([sz Hsome] & _). rewrite Hfresh in Hsome. discriminate.
Qed.

Lemma untag_tagged `{!StorageManagerSpec S} (u : UUID) (s0 s1 : S) rs (m : gmap UUID N) size :
  m !! u = None ->
  storageTags s0 = <[u := size]> m ->
  Untag u s0 = (rs, s1) ->
  storageTags s1 = m /\ stagingFiles s1 = stagingFiles s0.
Proof.
  intros Hfresh Htags Huntag.
  pose proof (Untag_spec u s0) as Hu. rewrite Huntag in Hu.
  destruct rs as [e |].
  - destruct Hu as (_ & Hnone & _). rewrite Htags, lookup_insert_eq in Hnone. discriminate.
  - destruct Hu as (_ & -> & ->). rewrite Htags. split; [by apply delete_insert_id | done].
Qed.

Lemma storage_restored_tag `{!StorageManagerSpec S} (u : UUID) size (s0 s1 s2 : S) e rs :
  storageTags s0 !! u = None ->
  Tag u size s0 = (Some e, s1) ->
  Untag u s1 = (rs, s2) ->
  storageTags s2 = storageTags s0 /\ stagingFiles s2 = stagingFiles s0.
Proof.
  intros Hfresh Htag Huntag.
  pose proof (Tag_spec u size s0) as Ht. rewrite Htag in Ht. destruct Ht as [Ht1 Ht2].
  rewrite <- Ht1, <- Ht2. eapply untag_fresh; [by rewrite Ht1 | done].
Qed.

Lemma storage_restored `{!StorageManagerSpec S} (u : UUID) size (s0 s1 s2 s3 : S) rd rs :
  storageTags s0 !! u = None ->
  downloadPath u ∉ stagingFiles s0 ->
  Tag u size s0 = (None, s1) ->
  DownloadFilePath u s1 = (rd, s2) ->
  Untag u s2 = (rs, s3) ->
  match rd with
  | inr _ => storageTags s3 = storageTags s0 /\ stagingFiles s3 = stagingFiles s0
  | inl path =>
      (path =? "") = false
      /\ storageTags (osRemove path s3) = storageTags s0
      /\ stagingFiles (osRemove path s3) = stagingFiles s0
  end.
Proof.
  intros Hfresh Hfile Htag Hdl Huntag.
  pose proof (Tag_spec u size s0) as Ht. rewrite Htag in Ht. destruct Ht as [Ht1 Ht2].
  pose proof (DownloadFilePath_spec u s1) as Hd. rewrite Hdl in Hd.
  destruct rd as [path | e].
  - destruct Hd as (-> & Hne & Hd1 & Hsub1 & Hsub2).
    assert (Htags : storageTags s2 = <[u := size]> (storageTags s0)) by congruence.
    destruct (untag_tagged u s2 s3 rs _ _ Hfresh Htags Huntag) as [Hu1 Hu2].
    split; [by apply String.eqb_neq |].
    destruct (osRemove_spec (downloadPath u) s3) as [-> ->].
    split; [exact Hu1 |]. rewrite Hu2. apply set_eq. intros x.
    rewrite elem_of_difference, elem_of_singleton. split.
    + intros [Hx Hnx]. apply Hsub2 in Hx. rewrite Ht2 in Hx.
      apply elem_of_union in Hx as [Hx | Hx]; [done |].
      apply elem_of_singleton in Hx. done.
    + intros Hx. split; [apply Hsub1; by rewrite Ht2 | congruence].
  - destruct Hd as [Hd1 Hd2].
    assert (Htags : storageTags s2 = <[u := size]> (storageTags s0)) by congruence.
    destruct (untag_tagged u s2 s3 rs _ _ Hfresh Htags Huntag) as [Hu1 Hu2].
    split; [exact Hu1 | congruence].
Qed.

Lemma Untag_answer `{!StorageManagerSpec S} (u : UUID) (s : S) :
  untagOk (Untag u s).1 = true.
Proof.
  pose proof (Untag_spec u s) as Hs.
  destruct (Untag u s) as [[e |] s']; cbn; [by destruct Hs | reflexivity].
Qed.

Lemma UntagFunds_answer `{!FundManagerSpec F} (u : UUID) (f : F) :
  untagFundsOk (UntagFunds u f).1 = true.
Proof.
  pose proof (UntagFunds_spec u f) as Hs.
  destruct (UntagFunds u f) as [[amt | e] f']; cbn; [reflexivity | by destruct Hs].
Qed.

(** What [acceptDeal] does around the three acceptance routines. *)

Lemma rejectWith_run dealReq aerr (p : Provider F S D R) :
  rejectWith dealReq aerr p = (tt, p, rejectionEvents dealReq aerr).
Proof.
  unfold rejectWith, rejectionEvents. autounfold with calls.
  destruct (isSevereError aerr); reflexivity.
Qed.

Lemma acceptDeal_online dealReq (p : Provider F S D R) :
  IsOffline (deal dealReq) = false ->
  acceptDeal dealReq p =
    let '(r, p1, tr) := processDealProposal (deal dealReq) p in
    (tt, p1,
     EvInfow (DealUuid (deal dealReq)) "processing deal acceptance request" []
       :: tr ++ match r.2 with
                | Some aerr => rejectionEvents dealReq aerr
                | None => startEvents dealReq r.1
                end).
Proof.
  intros Hon. unfold acceptDeal. rewrite Hon. unfold bind at 1 2. cbn.
  destruct (processDealProposal (deal dealReq) p) as [[[d' a] p1] tr].
  destruct a as [aerr |]; cbn.
  - rewrite rejectWith_run. reflexivity.
  - reflexivity.
Qed.

Lemma acceptDeal_import dealReq (p : Provider F S D R) :
  IsOffline (deal dealReq) = true -> isImport dealReq = true ->
  acceptDeal dealReq p =
    let '(r, p1, tr) := processImportOfflineDealData (deal dealReq) p in
    (tt, p1,
     EvInfow (DealUuid (deal dealReq)) "processing deal acceptance request" []
       :: tr ++ match r.2 with
                | Some aerr => rejectionEvents dealReq aerr
                | None => startEvents dealReq r.1
                end).
Proof.
  intros Hoff Himp. unfold acceptDeal. rewrite Hoff, Himp. unfold bind at 1 2. cbn.
  destruct (processImportOfflineDealData (deal dealReq) p) as [[[d' a] p1] tr].
  destruct a as [aerr |]; cbn.
  - rewrite rejectWith_run. reflexivity.
  - reflexivity.
Qed.

Lemma acceptDeal_offline dealReq (p : Provider F S D R) :
  IsOffline (deal dealReq) = true -> isImport dealReq = false ->
  acceptDeal dealReq p =
    let '(r, p1, tr) := processOfflineDealProposal (deal dealReq) p in
    (tt, p1,
     EvInfow (DealUuid (deal dealReq)) "processing deal acceptance request" []
       :: tr ++ match r.2 with
                | Some aerr => rejectionEvents dealReq aerr
                | None => [EvSendRsp (rsp dealReq) acceptedResp]
                end).
Proof.
  intros Hoff Himp. unfold acceptDeal. rewrite Hoff, Himp. unfold bind at 1 2. cbn.
  destruct (processOfflineDealProposal (deal dealReq) p) as [[[d' a] p1] tr].
  destruct a as [aerr |]; cbn.
  - rewrite rejectWith_run. reflexivity.
  - reflexivity.
Qed.



(** *** The release handlers *)

Lemma storageSpace_run (req : storageSpaceDealReq) (p : Provider F S D R) :
  storageSpace req p =
    let '(rs, s') := Untag (DealUuid (spcDeal req)) (storageManager p) in
    (tt, with_storageManager s' p, storageSpaceEvents req rs).
Proof.
  unfold storageSpace, storageSpaceEvents. autounfold with calls. cbn. run; reflexivity.
Qed.

Lemma publishedDeal_run (req : publishDealReq) (p : Provider F S D R) :
  publishedDeal req p =
    let '(rf, f') := UntagFunds (DealUuid (pubDeal req)) (fundManager p) in
    (tt, with_fundManager f' p, publishEvents req rf).
Proof.
  unfold publishedDeal, publishEvents. autounfold with calls. cbn. run; reflexivity.
Qed.

Lemma finishedDeal_run (req : finishedDealReq) (p : Provider F S D R) :
  finishedDeal req p =
    let '(rf, f') := UntagFunds (DealUuid (finDeal req)) (fundManager p) in
    let '(rs, s') := Untag (DealUuid (finDeal req)) (storageManager p) in
    (tt, with_storageManager s' (with_fundManager f' p), finishEvents req rf rs).
Proof.
  destruct p as [f0 s0 d0 r0].
  unfold finishedDeal, finishEvents. autounfold with calls. cbn. run; reflexivity.
Qed.

Lemma loop_handled (msgs : list Msg) (p : Provider F S D R) :
  loop msgs p =
    let '(_, p1, tr) := handled msgs p in (tt, p1, tr ++ [EvLoopComplete]).
Proof.
  revert p. induction msgs as [| m msgs IH]; intros p; cbn.
  - reflexivity.
  - unfold bind. destruct (loopCase m p) as [[[] p1] t1].
    rewrite IH. destruct (handled msgs p1) as [[[] p2] t2].
    by rewrite app_assoc.
Qed.

Lemma handled_app (ms1 ms2 : list Msg) (p : Provider F S D R) :
  handled (ms1 ++ ms2) p =
    let '(_, p1, t1) := handled ms1 p in
    let '(_, p2, t2) := handled ms2 p1 in
    (tt, p2, t1 ++ t2).
Proof.
  revert p. induction ms1 as [| m ms1 IH]; intros p; cbn.
  - destruct (handled ms2 p) as [[[] p2] t2]. reflexivity.
  - unfold bind. destruct (loopCase m p) as [[[] p1] t1].
    rewrite IH. destruct (handled ms1 p1) as [[[] p2] t2].
    destruct (handled ms2 p2) as [[[] p3] t3]. by rewrite app_assoc.
Qed.

Lemma loop_one (m : Msg) (p : Provider F S D R) :
  loop [m] p =
    let '(_, p1, t1) := loopCase m p in (tt, p1, t1 ++ [EvLoopComplete]).
Proof. cbn. unfold bind, emit. by destruct (loopCase m p) as [[[] p1] t1]. Qed.

Lemma loop_two (m1 m2 : Msg) (p : Provider F S D R) :
  loop [m1; m2] p =
    let '(_, p1, t1) := loopCase m1 p in
    let '(_, p2, t2) := loopCase m2 p1 in
    (tt, p2, t1 ++ t2 ++ [EvLoopComplete]).
Proof.
  cbn. unfold bind, emit. destruct (loopCase m1 p) as [[[] p1] t1].
  by destruct (loopCase m2 p1) as [[[] p2] t2].
Qed.

Lemma storageSpaceEvents_quiet req rs :
  untagOk rs = true -> existsb isLogError (storageSpaceEvents req rs) = false.
Proof.
  unfold storageSpaceEvents, untagOk. intros Hok.
  destruct rs as [e |]; cbn; [by rewrite Hok | done].
Qed.

Lemma storageSpaceEvents_logged req rs :
  existsb isLogError (storageSpaceEvents req rs) = negb (untagOk rs).
Proof.
  unfold storageSpaceEvents, untagOk.
  destruct rs as [e |]; cbn; [by destruct (Is e NotFound) | done].
Qed.

Lemma storageSpaceEvents_done req rs :
  List.filter isDone (storageSpaceEvents req rs) = [EvCloseDone (spcDone req)].
Proof.
  unfold storageSpaceEvents. destruct rs as [e |]; cbn; [by destruct (Is e NotFound) | done].
Qed.


Lemma finishEvents_quiet req rf rs :
  untagFundsOk rf = true -> untagOk rs = true ->
  existsb isLogError (finishEvents req rf rs) = false.
Proof.
  unfold finishEvents, untagFundsOk, untagOk. intros Hf Hs.
  destruct rf as [[? ?] | e1], rs as [e2 |]; cbn; rewrite ?Hf, ?Hs; reflexivity.
Qed.

Lemma finishEvents_logged req rf rs :
  existsb isLogError (finishEvents req rf rs) = negb (untagFundsOk rf && untagOk rs).
Proof.
  unfold finishEvents, untagFundsOk, untagOk.
  destruct rf as [[? ?] | e1], rs as [e2 |]; cbn;
    repeat match goal with |- context [if ?b then _ else _] => destruct b end;
    reflexivity.
Qed.

Lemma finishEvents_done req rf rs :
  List.filter isDone (finishEvents req rf rs) = [EvSendDone (finDone req)].
Proof.
  unfold finishEvents.
  destruct rf as [[? ?] | e1], rs as [e2 |]; cbn;
    repeat match goal with |- context [if ?b then _ else _] => destruct b end;
    reflexivity.
Qed.

Lemma finishEvents_last req rf rs :
  exists pre, finishEvents req rf rs = pre ++ [EvSendDone (finDone req)]
              /\ EvUntagFunds (DealUuid (finDeal req)) rf ∈ pre
              /\ EvUntag (DealUuid (finDeal req)) rs ∈ pre.
Proof.
  unfold finishEvents. eexists. split; [by rewrite !app_assoc |].
  split; set_solver.
Qed.


Lemma publishEvents_done req rf :
  List.filter isDone (publishEvents req rf) = [EvSendDone (pubDone req)].
Proof. unfold publishEvents. by destruct rf as [[? ?] | e]. Qed.

Lemma precedes_app_l (a b : Event -> bool) (l1 l2 : list Event) :
  existsb a l1 = false -> precedes a b (l1 ++ l2) = precedes a b l2.
Proof.
  induction l1 as [| x l1 IH]; cbn; [done |]. intros Ha.
  apply orb_false_iff in Ha as [Hx Hl]. rewrite Hx. cbn. by apply IH.
Qed.


End ReconcilerFacts.

(** Replace the record of a folded [cleanup] by what it is. *)
Ltac resolve_cleanup :=
  repeat match goal with
  | H : cleanup _ _ = _ |- _ =>
      rewrite cleanup_run in H; cbn in H;
      repeat (match type of H with
              | context [match ?x with pair _ _ => _ end] => destruct x as [? ?] eqn:?
              end; cbn in H);
      simplify_eq
  end.

(** Membership in a list that ends in the record of a cleanup. *)
Ltac elem_all H :=
  unfold startEvents in H;
  repeat first
    [ lazymatch type of H with
      | _ ∈ _ :: _ => apply elem_of_cons in H as [H | H]; [try discriminate H |]
      end
    | lazymatch type of H with
      | _ ∈ [] => apply elem_of_nil in H; destruct H
      end
    | lazymatch type of H with
      | _ ∈ cleanupEvents _ _ _ ++ _ =>
          apply elem_of_app in H as [H | H];
          [apply cleanupEvents_kind in H; try discriminate H |]
      end
    | lazymatch type of H with
      | _ ∈ cleanupEvents _ _ _ => apply cleanupEvents_kind in H; try discriminate H
      end ].

(** The ledgers after the untag calls of a cleanup. *)
Ltac ledger_cleared :=
  repeat match goal with
  | |- context [if ?b then _ else _] => destruct b
  | |- context [storageTags (osRemove ?path ?s)] =>
      rewrite (proj1 (osRemove_spec path s))
  end;
  match goal with
  | H : UntagFunds ?u ?f = (_, ?f') |- fundTags ?f' !! ?u = None =>
      let X := fresh in
      pose proof (UntagFunds_clears u f) as X; rewrite H in X; exact X
  | H : Untag ?u ?s = (_, ?s') |- storageTags ?s' !! ?u = None =>
      let X := fresh in
      pose proof (Untag_clears u s) as X; rewrite H in X; exact X
  end.

Ltac unfold_accept :=
  unfold processDealProposal, processOfflineDealProposal, processImportOfflineDealData,
    checkDealPropUnique, checkDealUuidUnique, cleanupImport;
  autounfold with calls; cbn.


(** ** The claims, on any components *)

Section Claims.

Context {F S D R : Type}.
Context `{FM : FundManager F} `{SM : StorageManager S}.
Context `{DB : DealsDB D} `{RT : Runtime R} `{CD : Codec}.
Context `{PM : ProviderMethods F S D R}.
Context `{FV : FundView F} `{SV : StorageView S}.

(** Where fund tagging fails in the online path, the proposal is rejected
    with the classification [tagFundsRejection] gives. *)
Lemma online_tagFunds_rejection (d0 : ProviderDealState) (p0 p0' : Provider F S D R)
    d0' aerr tr0 prop0 e :
  processDealProposal d0 p0 = (d0', aerr, p0', tr0) ->
  EvTagFunds (DealUuid d0) prop0 (inr e) ∈ tr0 ->
  aerr = Some (tagFundsRejection e).
Proof.
  intros Hrun Hin. revert Hrun. unfold_accept. run.
  all: intros ?; simplify_eq; resolve_cleanup.
  all: rewrite ?app_nil_r in *; elem_all Hin; simplify_eq.
  all: unfold tagFundsRejection; use_tests; reflexivity.
Qed.

(** The acceptance routine itself neither spawns the fiber nor answers the
    client. *)
Lemma processDealProposal_silent (d : ProviderDealState) (p : Provider F S D R) :
  existsb isSpawn (processDealProposal d p).2 = false
  /\ existsb isAcceptedReply (processDealProposal d p).2 = false.
Proof.
  unfold_accept. run.
  all: resolve_cleanup; rewrite ?app_nil_r.
  all: cbn; rewrite ?cleanupEvents_existsb by (by intros []); by split.
Qed.




(** C2.  For every deal proposal (online, or offline in its proposal phase)
    whose signed-proposal CID is [c]: if the lookup by that CID finds a
    deal, or that lookup answers "no rows" and the lookup by the proposal's
    UUID finds a deal, the proposal is rejected non-severely (an info line,
    no error line) with a reason that names the found deal's UUID; if both
    lookups answer "no rows" ([sql.ErrNoRows], the lookups' not-found
    sentinel) the checks pass and the acceptance goes on to its next call;
    any other error of a lookup is a severe rejection, logged as an
    error. *)
Theorem C2_uniqueness (dealReq : acceptDealReq) (p : Provider F S D R) (c : Cid) :
  IsOffline (deal dealReq) && isImport dealReq = false ->
  SignedProposalCid (deal dealReq) = inl c ->
  let u := DealUuid (deal dealReq) in
  let '(r1, db1) := BySignedProposalCID c (dealsDB p) in
  let '(r2, db2) := ByID u db1 in
  let tr := (acceptDeal dealReq p).2 in
  let processing := EvInfow u "processing deal acceptance request" [] in
  let nonSevere why :=
    [EvInfow u "deal acceptance request rejected" [VStr "reason"; VStr why];
     EvSendRsp (rsp dealReq)
       {| ri := {| RiAccepted := false; RiReason := why |}; respErr := None |}] in
  let severe why err :=
    [EvLogError u "error while processing deal acceptance request" err;
     EvSendRsp (rsp dealReq)
       {| ri := {| RiAccepted := false; RiReason := why |}; respErr := None |}] in
  match r1 with
  | inl dl =>
      exists why, names (DealUuid dl) why
        /\ tr = [processing; EvBySignedProposalCID c r1] ++ nonSevere why
  | inr e1 =>
      if Is e1 NoRows then
        match r2 with
        | inl dl =>
            exists why, names (DealUuid dl) why
              /\ tr = [processing; EvBySignedProposalCID c r1; EvByID u r2] ++ nonSevere why
        | inr e2 =>
            if Is e2 NoRows then
              exists next rest,
                tr = [processing; EvBySignedProposalCID c r1; EvByID u r2] ++ next :: rest
                /\ if IsOffline (deal dealReq)
                   then exists t, next = EvNow t
                   else exists st, next = EvGetStatus st
            else
              tr = [processing; EvBySignedProposalCID c r1; EvByID u r2]
                   ++ severe "server error: unique check: lookup by deal uuid"
                        (ErrorWrap "looking up deal by uuid" e2)
        end
      else
        tr = [processing; EvBySignedProposalCID c r1]
             ++ severe "server error: lookup by proposal cid"
                  (ErrorWrap "looking up deal by signed deal proposal cid" e1)
  end.
Proof.
  intros Hprop Hcid u.
  destruct (IsOffline (deal dealReq)) eqn:Hoff; cbn in Hprop.
  - rewrite (acceptDeal_offline _ _ Hoff Hprop).
    unfold_accept. rewrite Hcid. cbn. subst u. run.
    all: try reflexivity.
    all: try (eexists; split; [eexists _, _; reflexivity | reflexivity]).
    all: eexists _, _; split; [reflexivity | eauto].
  - rewrite (acceptDeal_online _ _ Hoff).
    unfold_accept. rewrite Hcid. cbn. subst u. run.
    all: try reflexivity.
    all: try (eexists; split; [eexists _, _; reflexivity | reflexivity]).
    all: try (eexists _, _; split; [reflexivity | eauto]).
Qed.


(** C4, as amended.  For every online acceptance attempt that is
    rejected: the rejection is sent after everything the acceptance did.
    If the attempt got as far as the fund-tagging stage (it failed at fund
    tagging, storage tagging, the staging-file path or the insert), the
    acceptance ends with the cleanup: funds untagged, storage untagged, the
    staging file removed if and only if the deal records one, and no error
    logged when the untags answer nil or [NotFound].  If it did not get
    that far, neither manager was called.  The fund ledger, the storage
    ledger and the staging directory are as they were before the attempt
    provided that the fund and storage managers meet their contracts and
    that nothing was held for the deal beforehand: no funds and no storage
    tagged for its UUID, no [InboundFilePath] recorded in the request, no
    file at its download path. *)
Theorem C4_cleanup (dealReq : acceptDealReq) (p p' : Provider F S D R)
    (d' : ProviderDealState) (aerr : acceptError) (tr : list Event) :
  let d := deal dealReq in
  let u := DealUuid d in
  IsOffline d = false ->
  processDealProposal d p = (d', Some aerr, p', tr) ->
  (* the rejection is sent after everything the acceptance did *)
  acceptDeal dealReq p =
    (tt, p', EvInfow u "processing deal acceptance request" []
               :: tr ++ rejectionEvents dealReq aerr)
  (* from the fund-tagging stage on, the acceptance ends with a cleanup *)
  /\ ((exists prop r, EvTagFunds u prop r ∈ tr) ->
        DealUuid d' = u
        /\ exists pre rf rs,
             tr = pre ++ cleanupEvents d' rf rs
             /\ EvUntagFunds u rf ∈ cleanupEvents d' rf rs
             /\ EvUntag u rs ∈ cleanupEvents d' rf rs
             /\ (forall path, EvRemove path ∈ cleanupEvents d' rf rs <->
                              path = InboundFilePath d' /\ path <> "")
             /\ (untagFundsOk rf = true -> untagOk rs = true ->
                   existsb isLogError (cleanupEvents d' rf rs) = false))
  (* before that stage, no reservation is touched *)
  /\ ((forall prop r, EvTagFunds u prop r ∉ tr) ->
        fundManager p' = fundManager p /\ storageManager p' = storageManager p)
  (* the ledgers and the staging directory are as they were *)
  /\ (FundManagerSpec F -> StorageManagerSpec S ->
        fundTags (fundManager p) !! u = None ->
        storageTags (storageManager p) !! u = None ->
        InboundFilePath d = "" ->
        downloadPath u ∉ stagingFiles (storageManager p) ->
        fundTags (fundManager p') = fundTags (fundManager p)
        /\ storageTags (storageManager p') = storageTags (storageManager p)
        /\ stagingFiles (storageManager p') = stagingFiles (storageManager p)).
Proof.
  intros d u Hon Hrun. subst d u.
  split.
  { rewrite (acceptDeal_online _ _ Hon), Hrun. reflexivity. }
  revert Hrun. unfold_accept. run.
  all: intros ?; simplify_eq; resolve_cleanup.
  all: rewrite ?app_nil_r in *.
  all: (split; [| split]);
    [ intros (? & ? & Hin); elem_all Hin;
      (split; [reflexivity |]); eexists _, _, _;
      (split; [solve_split |]);
      match goal with
      | |- context [cleanupEvents ?d0 ?rf ?rs] => exact (cleanupEvents_facts d0 rf rs)
      end
    | intros Hno; first [ by split | exfalso; eapply Hno; elem_find ]
    | intros FMS SMS Hf Hs Hpath Hfile; cbn ].
  all: try by repeat split.
  all: rewrite ?Hpath; cbn.
  all: (split; [eapply funds_restored; eauto |]).
  all: try (eapply untag_fresh; by eauto).
  all: try (eapply storage_restored_tag; by eauto).
  all: match goal with
       | Ht : Tag _ _ _ = (None, _), Hd : DownloadFilePath _ _ = _, Hu : Untag _ _ = _ |- _ =>
           pose proof (storage_restored _ _ _ _ _ _ _ _ Hs Hfile Ht Hd Hu) as Hr; cbn in Hr
       end.
  all: try exact Hr.
  all: destruct Hr as (-> & Hr); exact Hr.
Qed.

(** C5, as amended.  For every offline deal proposal in its proposal phase
    ([IsOffline = true], [isImport = false]) that passes both uniqueness
    checks, the reconciler spawns no fiber and tags neither funds nor
    storage, and it attempts the insert of the deal stamped with the clock
    and at checkpoint [Accepted].  If the insert succeeds it creates the
    deal handler and asks its bus for a stateful emitter; if that succeeds
    too it fires the new-deal event and the deal's current state and
    answers [Accepted: true].  If the insert fails the proposal is rejected
    severely ("server error: save to db"); if the emitter cannot be created
    the deal is failed and cleaned up and the proposal rejected severely
    ("server error: setup pubsub"). *)
Theorem C5_offline_proposal (dealReq : acceptDealReq) (p p' : Provider F S D R)
    (tr : list Event) :
  let d := deal dealReq in
  let u := DealUuid d in
  IsOffline d = true ->
  isImport dealReq = false ->
  acceptDeal dealReq p = (tt, p', tr) ->
  (* both uniqueness checks pass *)
  (exists c e1, EvBySignedProposalCID c (inr e1) ∈ tr /\ Is e1 NoRows = true) ->
  (exists e2, EvByID u (inr e2) ∈ tr /\ Is e2 NoRows = true) ->
  (* no fiber is spawned and nothing is tagged *)
  existsb isSpawn tr = false
  /\ existsb isTagging tr = false
  (* the row is written at checkpoint Accepted *)
  /\ exists pre t1 t2 ir rest,
       let ds := set_CheckpointAt t2 (set_Checkpoint Accepted (set_CreatedAt t1 d)) in
       tr = pre ++ [EvNow t1; EvNow t2; EvInsert ds ir] ++ rest
       /\ match ir with
          | Some err =>
              rest = rejectionEvents dealReq
                       {| aeError := ErrorWrap "failed to insert deal in db" err;
                          reason := "server error: save to db";
                          isSevereError := true |}
          | None =>
              exists h er,
                rest = EvMkAndInsertDealHandler u h :: EvEmitter h er
                         :: match er with
                            | Some err0 =>
                                let err := ErrorWrap "failed to create event emitter" err0 in
                                [EvFailDeal ds err; EvCleanupDealLogged ds]
                                ++ rejectionEvents dealReq
                                     {| aeError := err;
                                        reason := "server error: setup pubsub";
                                        isSevereError := true |}
                            | None =>
                                [EvFireEventDealNew ds; EvFireEventDealUpdate ds;
                                 EvSendRsp (rsp dealReq) acceptedResp]
                            end
          end.
Proof.
  intros d u Hoff Himp Hrun (c & e1 & Hin1 & He1) (e2 & Hin2 & He2). subst d u.
  rewrite (acceptDeal_offline _ _ Hoff Himp) in Hrun.
  revert Hrun. unfold_accept. run.
  all: intros ?; simplify_eq.
  all: elem_all Hin1; elem_all Hin2; simplify_eq; try congruence.
  all: (split; [reflexivity | split; [reflexivity |]]).
  all: eexists _, _, _, _, _; cbn; (split; [solve_split |]).
  all: cbn; first [ reflexivity | by eexists _, (Some _) | by eexists _, None ].
Qed.

(** C6.  For every offline import request ([IsOffline = true],
    [isImport = true]) the only call on a component is the fund tagging: no
    uniqueness lookup, no sealing status, no filter, no storage tagging.
    On success the funds are logged, the fiber is spawned and the client is
    answered.  On failure the funds are untagged, [NotFound] from the untag
    passed over in silence, and the request is rejected with the
    classification the online path gives the same error. *)
Theorem C6_offline_import (dealReq : acceptDealReq) (p : Provider F S D R) :
  let d := deal dealReq in
  let u := DealUuid d in
  let prop := Proposal (ClientDealProposal_ d) in
  IsOffline d = true ->
  isImport dealReq = true ->
  let processing := EvInfow u "processing deal acceptance request" [] in
  let '(r, f1) := TagFunds u prop (fundManager p) in
  let '(rf, f2) := UntagFunds u f1 in
  match r with
  | inl trsp =>
      (* only the funds are tagged, then the fiber is spawned *)
      exists logged,
        acceptDeal dealReq p =
          (tt, with_fundManager f1 p,
           [processing; EvTagFunds u prop r; logged] ++ startEvents dealReq d)
        /\ logFunds u trsp p = (tt, p, [logged])
  | inr e =>
      (* the funds are untagged, NotFound passed over, and the request is
         rejected *)
      acceptDeal dealReq p =
        (tt, with_fundManager f2 p,
         [processing; EvTagFunds u prop r; EvUntagFunds u rf]
         ++ match rf with
            | inr errf =>
                if Is errf NotFound then []
                else [EvLogError u "failed to untag funds during deal cleanup" errf]
            | inl (collat, pub) =>
                [EvInfow u "untagged funds for deal cleanup"
                   [VStr "untagged publish"; VAmt pub;
                    VStr "untagged collateral"; VAmt collat]]
            end
         ++ rejectionEvents dealReq (tagFundsRejection e))
      (* classified as the online path classifies it *)
      /\ forall d0 (p0 p0' : Provider F S D R) d0' aerr tr0 prop0,
           processDealProposal d0 p0 = (d0', aerr, p0', tr0) ->
           EvTagFunds (DealUuid d0) prop0 (inr e) ∈ tr0 ->
           aerr = Some (tagFundsRejection e)
  end.
Proof.
  intros d u prop Hoff Himp processing. subst d u prop processing.
  rewrite (acceptDeal_import _ _ Hoff Himp).
  destruct p as [f0 s0 d0 r0].
  unfold_accept. run.
  all: try (eexists; split; reflexivity).
  all: (split; [| intros ? ? ? ? ? ? ? Hr Hi;
                   exact (online_tagFunds_rejection _ _ _ _ _ _ _ _ Hr Hi)]).
  all: unfold tagFundsRejection; cbn; use_tests; reflexivity.
Qed.

(** C7, as amended.  Whatever the storage manager answers, a storage
    release makes one [Untag] call for the deal's UUID and then closes the
    done channel of its message, once; an error is logged exactly when
    [Untag] answers an error other than [NotFound], and the storage manager
    is left as [Untag] left it.  With a storage manager that meets its
    contract, processing one storage release for a deal, or two in a row,
    leaves zero bytes tagged for that deal, logs no error (the second untag
    answers [NotFound], which is tolerated), and closes the done channel of
    each message, once. *)
Theorem C7_storage_release_idempotent (req1 req2 : storageSpaceDealReq)
    (p : Provider F S D R) :
  let u := DealUuid (spcDeal req1) in
  DealUuid (spcDeal req2) = u ->
  (* whatever Untag answers *)
  (exists rs s1 rs2 s2,
     Untag u (storageManager p) = (rs, s1)
     /\ Untag u s1 = (rs2, s2)
     /\ loop [storageSpaceChan req1] p =
          (tt, with_storageManager s1 p, storageSpaceEvents req1 rs ++ [EvLoopComplete])
     /\ loop [storageSpaceChan req1; storageSpaceChan req2] p =
          (tt, with_storageManager s2 (with_storageManager s1 p),
           storageSpaceEvents req1 rs ++ storageSpaceEvents req2 rs2 ++ [EvLoopComplete])
     /\ List.filter isDone (storageSpaceEvents req1 rs ++ storageSpaceEvents req2 rs2)
        = [EvCloseDone (spcDone req1); EvCloseDone (spcDone req2)]
     /\ existsb isLogError (storageSpaceEvents req1 rs) = negb (untagOk rs)
     /\ existsb isLogError (storageSpaceEvents req2 rs2) = negb (untagOk rs2))
  (* with a storage manager that meets its contract *)
  /\ (StorageManagerSpec S ->
      (* one release *)
      (exists p1 rs,
         loop [storageSpaceChan req1] p =
           (tt, p1, storageSpaceEvents req1 rs ++ [EvLoopComplete])
         /\ untagOk rs = true
         /\ existsb isLogError (storageSpaceEvents req1 rs) = false
         /\ List.filter isDone (storageSpaceEvents req1 rs) = [EvCloseDone (spcDone req1)]
         /\ taggedBytes (storageManager p1) u = 0%N)
      (* two releases *)
      /\ (exists p2 rs e2,
            loop [storageSpaceChan req1; storageSpaceChan req2] p =
              (tt, p2, storageSpaceEvents req1 rs ++ storageSpaceEvents req2 (Some e2)
                         ++ [EvLoopComplete])
            /\ Is e2 NotFound = true
            /\ existsb isLogError
                 (storageSpaceEvents req1 rs ++ storageSpaceEvents req2 (Some e2)) = false
            /\ List.filter isDone
                 (storageSpaceEvents req1 rs ++ storageSpaceEvents req2 (Some e2))
               = [EvCloseDone (spcDone req1); EvCloseDone (spcDone req2)]
            /\ taggedBytes (storageManager p2) u = 0%N)).
Proof.
  intros u Hsame.
  rewrite loop_one, loop_two. cbn [loopCase]. rewrite storageSpace_run. fold u.
  destruct (Untag u (storageManager p)) as [rs s1] eqn:E1.
  rewrite storageSpace_run, Hsame. cbn [storageManager with_storageManager].
  destruct (Untag u s1) as [rs2 s2] eqn:E2.
  split.
  { exists rs, s1, rs2, s2.
    split; [reflexivity |]. split; [exact E2 |].
    do 2 (split; [reflexivity |]).
    split; [by rewrite List.filter_app, !storageSpaceEvents_done |].
    split; apply storageSpaceEvents_logged. }
  intros SMS.
  pose proof (Untag_answer u (storageManager p)) as Hok.
  pose proof (Untag_clears u (storageManager p)) as Hclr.
  rewrite E1 in Hok, Hclr. cbn in Hok, Hclr.
  split.
  - exists (with_storageManager s1 p), rs.
    split; [reflexivity |]. split; [exact Hok |].
    split; [by apply storageSpaceEvents_quiet |].
    split; [apply storageSpaceEvents_done |].
    unfold taggedBytes. cbn. by rewrite Hclr.
  - pose proof (Untag_spec u s1) as H2. rewrite E2 in H2.
    destruct rs2 as [e2 |].
    + destruct H2 as (Hnf & Hnone & Htags & _).
      exists (with_storageManager s2 (with_storageManager s1 p)), rs, e2.
      split; [reflexivity |]. split; [exact Hnf |].
      split.
      { rewrite existsb_app, !storageSpaceEvents_quiet; done. }
      split.
      { by rewrite List.filter_app, !storageSpaceEvents_done. }
      unfold taggedBytes. cbn. by rewrite Htags, Hnone.
    + destruct H2 as ([sz Hsome] & _). rewrite Hclr in Hsome. discriminate.
Qed.

(** C8, as amended.  For every finish release, whatever the loop handled
    before it: the funds and then the storage of the deal are untagged,
    both always, and then done is signalled, once; an error is logged
    exactly when one of the untags answers an error other than [NotFound],
    and each manager is left as its untag left it.  Provided the fund and
    storage managers meet their contracts, no error is logged and no fund
    and no storage reservation remains for the deal's UUID. *)
Theorem C8_finish_release (earlier : list Msg) (req : finishedDealReq)
    (p : Provider F S D R) :
  let u := DealUuid (finDeal req) in
  exists p0 tr0 p' rf rs,
    (* whatever was handled before *)
    handled earlier p = (tt, p0, tr0)
    (* both untags are made, then done is signalled *)
    /\ loop (earlier ++ [finishedDealChan req]) p =
         (tt, p', tr0 ++ finishEvents req rf rs ++ [EvLoopComplete])
    /\ UntagFunds u (fundManager p0) = (rf, fundManager p')
    /\ Untag u (storageManager p0) = (rs, storageManager p')
    /\ (exists pre,
          finishEvents req rf rs = pre ++ [EvSendDone (finDone req)]
          /\ EvUntagFunds u rf ∈ pre /\ EvUntag u rs ∈ pre)
    /\ List.filter isDone (finishEvents req rf rs) = [EvSendDone (finDone req)]
    (* NotFound from either is no error; any other error is logged *)
    /\ existsb isLogError (finishEvents req rf rs)
       = negb (untagFundsOk rf && untagOk rs)
    (* with managers that meet their contracts, nothing remains reserved
       for the deal *)
    /\ (FundManagerSpec F -> StorageManagerSpec S ->
          existsb isLogError (finishEvents req rf rs) = false
          /\ fundsTagged (fundManager p') u = false
          /\ taggedBytes (storageManager p') u = 0%N).
Proof.
  intros u.
  rewrite loop_handled, handled_app.
  destruct (handled earlier p) as [[[] p0] tr0].
  cbn [handled loopCase]. unfold bind, ret. rewrite finishedDeal_run. fold u.
  destruct (UntagFunds u (fundManager p0)) as [rf f'] eqn:Ef.
  destruct (Untag u (storageManager p0)) as [rs s'] eqn:Es.
  exists p0, tr0, (with_storageManager s' (with_fundManager f' p0)), rf, rs.
  split; [reflexivity |].
  split; [by rewrite app_nil_r, <- app_assoc |].
  split; [exact Ef |]. split; [exact Es |].
  split; [apply finishEvents_last |].
  split; [apply finishEvents_done |].
  split; [apply finishEvents_logged |].
  intros FMS SMS.
  pose proof (UntagFunds_answer u (fundManager p0)) as Hfa.
  pose proof (UntagFunds_clears u (fundManager p0)) as Hfc.
  pose proof (Untag_answer u (storageManager p0)) as Hsa.
  pose proof (Untag_clears u (storageManager p0)) as Hsc.
  rewrite Ef in Hfa, Hfc. rewrite Es in Hsa, Hsc. cbn in Hfa, Hfc, Hsa, Hsc.
  split; [by apply finishEvents_quiet |].
  unfold fundsTagged, taggedBytes. cbn. rewrite Hfc, Hsc. split; [| reflexivity].
  apply bool_decide_eq_false. by intros [? ?].
Qed.

(** C9, as amended.  For every online deal that [processDealProposal]
    accepts, the loop spawns the deal fiber and then answers the client
    [Accepted: true]: the spawn comes before the reply, and no accepting
    reply comes before a spawn. *)
Theorem C9_spawn_then_reply (dealReq : acceptDealReq) (p p1 : Provider F S D R)
    (d' : ProviderDealState) (tr : list Event) :
  IsOffline (deal dealReq) = false ->
  processDealProposal (deal dealReq) p = (d', None, p1, tr) ->
  let run :=
    EvInfow (DealUuid (deal dealReq)) "processing deal acceptance request" []
      :: tr ++ [EvWgAdd; EvGoDoDeal d' (dh dealReq);
                EvSendRsp (rsp dealReq) acceptedResp] in
  acceptDeal dealReq p = (tt, p1, run)
  /\ precedes isSpawn isAcceptedReply run = true
  /\ precedes isAcceptedReply isSpawn run = false.
Proof.
  intros Hon Hrun run.
  destruct (processDealProposal_silent (deal dealReq) p) as [Hs Ha].
  rewrite Hrun in Hs, Ha. cbn in Hs, Ha.
  split.
  { rewrite (acceptDeal_online _ _ Hon), Hrun. reflexivity. }
  subst run. cbn [precedes isSpawn isAcceptedReply andb orb].
  rewrite !precedes_app_l by done. split; reflexivity.
Qed.

(** C10.  For every publish release the loop makes one untag of the deal's
    funds, logs one line and signals done once, whatever the untag answers.
    Any error of the untag is logged as an error, [NotFound] included, which
    the finish release passes over.  A second publish release for the same
    deal still signals done; with a fund manager that meets its contract its
    untag answers [NotFound], and that is logged as an error. *)
Theorem C10_publish_release (req1 req2 : publishDealReq) (p : Provider F S D R) :
  let u := DealUuid (pubDeal req1) in
  let '(rf, f1) := UntagFunds u (fundManager p) in
  let '(rf2, f2) := UntagFunds u f1 in
  (* one untag attempt, one log line, one signal, whatever the untag answers *)
  publishedDeal req1 p = (tt, with_fundManager f1 p, publishEvents req1 rf)
  /\ List.filter isDone (publishEvents req1 rf) = [EvSendDone (pubDone req1)]
  /\ (exists logged, publishEvents req1 rf = [EvUntagFunds u rf; logged; EvSendDone (pubDone req1)])
  (* any error is logged as an error, NotFound too, unlike on finish *)
  /\ (forall e, rf = inr e ->
        EvLogError u "failed to untag funds" e ∈ publishEvents req1 rf
        /\ (Is e NotFound = true ->
              forall done rs,
                EvLogError u "failed to untag funds" e
                  ∉ finishEvents {| finDeal := pubDeal req1; finDone := done |} rf rs))
  (* a second publish release for the same deal *)
  /\ (DealUuid (pubDeal req2) = u ->
        loop [publishedDealChan req1; publishedDealChan req2] p =
          (tt, with_fundManager f2 (with_fundManager f1 p),
           publishEvents req1 rf ++ publishEvents req2 rf2 ++ [EvLoopComplete])
        /\ List.filter isDone (publishEvents req2 rf2) = [EvSendDone (pubDone req2)]
        /\ (FundManagerSpec F ->
              exists e2, rf2 = inr e2 /\ Is e2 NotFound = true
                /\ EvLogError u "failed to untag funds" e2 ∈ publishEvents req2 rf2)).
Proof.
  intros u.
  destruct (UntagFunds u (fundManager p)) as [rf f1] eqn:E1.
  destruct (UntagFunds u f1) as [rf2 f2] eqn:E2.
  split. { rewrite publishedDeal_run. fold u. by rewrite E1. }
  split; [apply publishEvents_done |].
  split. { unfold publishEvents. eexists. reflexivity. }
  split.
  { intros e ->. split; [unfold publishEvents; fold u; set_solver |].
    intros Hnf done rs Hin. unfold finishEvents in Hin. cbn in Hin. rewrite Hnf in Hin.
    cbn in Hin. fold u in Hin.
    destruct rs as [e' |]; cbn in Hin;
      repeat match type of Hin with context [if ?b then _ else _] => destruct b end;
      cbn in Hin; elem_cases Hin. }
  intros Hsame. split.
  { rewrite loop_two. cbn [loopCase]. rewrite publishedDeal_run. fold u. rewrite E1.
    rewrite publishedDeal_run, Hsame. cbn [fundManager with_fundManager]. by rewrite E2. }
  split; [apply publishEvents_done |].
  intros FMS.
  pose proof (UntagFunds_clears u (fundManager p)) as Hclr. rewrite E1 in Hclr. cbn in Hclr.
  pose proof (UntagFunds_spec u f1) as H2. rewrite E2 in H2.
  destruct rf2 as [amt | e2].
  - destruct H2 as [Hsome _]. rewrite Hclr in Hsome. discriminate.
  - destruct H2 as (Hnf & _). exists e2. split; [done |]. split; [done |].
    unfold publishEvents. rewrite Hsame. set_solver.
Qed.


End Claims.

(** ** The reference provider meets the contracts *)

Module RefFacts.

Import Ref.

Lemma Funds_spec : FundManagerSpec Funds.
Proof.
  split.
  - intros u prop f. cbn. unfold Funds_TagFunds.
    destruct (next_fault (tagFaults f)) as [[e |] rest]; cbn; [reflexivity |].
    match goal with |- context [if ?b then _ else _] => destruct b end; cbn;
      [reflexivity | eauto].
  - intros u f. cbn. unfold Funds_UntagFunds.
    destruct (tagged f !! u) as [amt |] eqn:E; cbn; auto.
Qed.

Lemma Storage_path_not_empty (u : UUID) : Storage_path u <> "".
Proof. unfold Storage_path, stagingRoot. cbn. discriminate. Qed.

Lemma Storage_spec : StorageManagerSpec Storage.
Proof.
  split.
  - intros u size s. cbn. unfold Storage_Tag.
    destruct (next_fault (storageFaults s)) as [[e |] rest]; cbn; [done |].
    destruct (freeBytes s <? size)%N; cbn; done.
  - intros u s. cbn. unfold Storage_Untag.
    destruct (reserved s !! u) as [size |] eqn:E; cbn; eauto.
  - intros u s. cbn. unfold Storage_DownloadFilePath.
    destruct (next_fault (storageFaults s)) as [[e |] rest]; cbn; [done |].
    split; [done |]. split; [apply Storage_path_not_empty |].
    split; [done |]. set_solver.
  - intros path s. cbn. done.
Qed.

End RefFacts.

(** ** The claims on the sample runs *)

Module Samples.

Import Ref Locked.

Lemma run_eq {A B : Type} (x : A * B * list Event) : x = (x.1.1, x.1.2, x.2).
Proof. by destruct x as [[? ?] ?]. Qed.

Ltac by_run := apply list_elem_of_In; vm_compute; tauto.


Lemma C2_witness :
  IsOffline (deal Ex.proposeOnline) && isImport Ex.proposeOnline = false
  /\ SignedProposalCid (deal Ex.proposeOnline) = inl "baga6ea4seaq/sig"
  /\ names 7%N "deal proposal is identical to deal 7 (proposed at 0)".
Proof.
  split; [reflexivity |]. split; [reflexivity |].
  pose proof (C2_uniqueness Ex.proposeOnline Ex.holding "baga6ea4seaq/sig"
                eq_refl eq_refl) as H.
  vm_compute in H. destruct H as (why & (pre & post & Hw) & Htr).
  injection Htr as <-. exists pre, post. exact Hw.
Defined.


Lemma C4_witness :
  let run := processDealProposal Ex.online Ex.failing in
  IsOffline Ex.online = false
  /\ run = (run.1.1.1, Some Ex.saveToDb, run.1.2, run.2)
  /\ fundTags (fundManager run.1.2) = fundTags (fundManager Ex.failing)
  /\ storageTags (storageManager run.1.2) = storageTags (storageManager Ex.failing)
  /\ stagingFiles (storageManager run.1.2) = stagingFiles (storageManager Ex.failing).
Proof.
  intros run.
  assert (Hrun : run = (run.1.1.1, Some Ex.saveToDb, run.1.2, run.2)) by (vm_compute; reflexivity).
  split; [reflexivity |]. split; [exact Hrun |].
  destruct (C4_cleanup Ex.proposeOnline Ex.failing run.1.2 run.1.1.1 Ex.saveToDb run.2
              eq_refl Hrun) as (_ & _ & _ & Hledger).
  apply (Hledger RefFacts.Funds_spec RefFacts.Storage_spec);
    [reflexivity | reflexivity | reflexivity | apply not_elem_of_empty].
Defined.

Lemma C5_witness :
  let run := acceptDeal Ex.proposeOffline Ex.rich in
  IsOffline (deal Ex.proposeOffline) = true
  /\ isImport Ex.proposeOffline = false
  /\ EvBySignedProposalCID "baga6ea4seaq/sig8" (inr ErrNoRows) ∈ run.2
  /\ EvByID 8%N (inr ErrNoRows) ∈ run.2
  /\ existsb isSpawn run.2 = false
  /\ existsb isTagging run.2 = false.
Proof.
  intros run.
  assert (H1 : EvBySignedProposalCID "baga6ea4seaq/sig8" (inr ErrNoRows) ∈ run.2) by by_run.
  assert (H2 : EvByID 8%N (inr ErrNoRows) ∈ run.2) by by_run.
  split; [reflexivity |]. split; [reflexivity |]. split; [exact H1 |]. split; [exact H2 |].
  destruct (C5_offline_proposal Ex.proposeOffline Ex.rich run.1.2 run.2
              eq_refl eq_refl (run_eq run)
              (ex_intro _ _ (ex_intro _ _ (conj H1 eq_refl)))
              (ex_intro _ _ (conj H2 eq_refl))) as (Hs & Ht & _).
  split; [exact Hs | exact Ht].
Defined.

Lemma C6_witness :
  IsOffline (deal Ex.importOffline) = true
  /\ isImport Ex.importOffline = true
  /\ exists trsp logged,
       (acceptDeal Ex.importOffline Ex.rich).2 =
         [EvInfow 8%N "processing deal acceptance request" [];
          EvTagFunds 8%N Ex.prop (inl trsp); logged;
          EvWgAdd; EvGoDoDeal Ex.offline (Ex.handler 8%N);
          EvSendRsp 3%N acceptedResp].
Proof.
  split; [reflexivity |]. split; [reflexivity |].
  pose proof (C6_offline_import Ex.importOffline Ex.rich eq_refl eq_refl) as H.
  vm_compute in H. destruct H as (logged & Hrun & _).
  eexists _, logged. exact (f_equal snd Hrun).
Defined.

Lemma C7_witness :
  DealUuid (spcDeal Ex.release2) = DealUuid (spcDeal Ex.release1)
  /\ taggedBytes (storageManager Ex.tagging) 7%N = 62914560%N
  /\ taggedBytes
       (storageManager
          (loop [storageSpaceChan Ex.release1; storageSpaceChan Ex.release2] Ex.tagging).1.2)
       7%N = 0%N.
Proof.
  split; [reflexivity |]. split; [reflexivity |].
  destruct (C7_storage_release_idempotent Ex.release1 Ex.release2 Ex.tagging eq_refl)
    as (_ & Hspec).
  destruct (Hspec RefFacts.Storage_spec)
    as (_ & p2 & rs & e2 & Hrun & _ & _ & _ & Hzero).
  rewrite Hrun. exact Hzero.
Defined.

Lemma C8_witness :
  let run := loop [storageSpaceChan Ex.release1; finishedDealChan Ex.finish] Ex.tagging in
  fundsTagged (fundManager Ex.tagging) 7%N = true
  /\ fundsTagged (fundManager run.1.2) 7%N = false
  /\ taggedBytes (storageManager run.1.2) 7%N = 0%N.
Proof.
  intros run. split; [reflexivity |].
  destruct (C8_finish_release [storageSpaceChan Ex.release1] Ex.finish Ex.tagging)
    as (p0 & tr0 & p' & rf & rs & _ & Hrun & _ & _ & _ & _ & _ & Hledger).
  destruct (Hledger RefFacts.Funds_spec RefFacts.Storage_spec) as (_ & Hf & Hs).
  unfold run. cbn [app] in Hrun. rewrite Hrun. split; [exact Hf | exact Hs].
Defined.

Lemma C9_witness :
  let run := processDealProposal Ex.online Ex.rich in
  IsOffline (deal Ex.proposeOnline) = false
  /\ run = (run.1.1.1, None, run.1.2, run.2)
  /\ precedes isSpawn isAcceptedReply (acceptDeal Ex.proposeOnline Ex.rich).2 = true.
Proof.
  intros run.
  assert (Hrun : run = (run.1.1.1, None, run.1.2, run.2)) by (vm_compute; reflexivity).
  split; [reflexivity |]. split; [exact Hrun |].
  destruct (C9_spawn_then_reply Ex.proposeOnline Ex.rich run.1.2 run.1.1.1 run.2
              eq_refl Hrun) as (Hacc & Hsr & _).
  rewrite Hacc. exact Hsr.
Defined.

Lemma C10_witness :
  DealUuid (pubDeal Ex.publish2) = DealUuid (pubDeal Ex.publish1)
  /\ exists e2,
       Is e2 NotFound = true
       /\ EvLogError 7%N "failed to untag funds" e2
            ∈ (loop [publishedDealChan Ex.publish1; publishedDealChan Ex.publish2] Ex.tagging).2.
Proof.
  split; [reflexivity |].
  pose proof (C10_publish_release Ex.publish1 Ex.publish2 Ex.tagging) as H.
  cbn zeta in H.
  destruct (UntagFunds (DealUuid (pubDeal Ex.publish1)) (fundManager Ex.tagging))
    as [rf f1].
  destruct (UntagFunds (DealUuid (pubDeal Ex.publish1)) f1) as [rf2 f2].
  destruct H as (_ & _ & _ & _ & Htwo).
  destruct (Htwo eq_refl) as (Hrun & _ & Hspec).
  destruct (Hspec RefFacts.Funds_spec) as (e2 & -> & Hnf & Hin).
  exists e2. split; [exact Hnf |]. rewrite Hrun. cbn [snd].
  apply elem_of_app. right. apply elem_of_app. left. exact Hin.
Defined.

(** *** Where the claims as worded fail *)


Lemma C5_counterexample :
  let tr := (acceptDeal Ex.proposeOffline Ex.failing).2 in
  IsOffline (deal Ex.proposeOffline) = true
  /\ isImport Ex.proposeOffline = false
  /\ EvBySignedProposalCID "baga6ea4seaq/sig8" (inr ErrNoRows) ∈ tr
  /\ EvByID 8%N (inr ErrNoRows) ∈ tr
  /\ existsb isAcceptedReply tr = false
  /\ (forall d, EvFireEventDealNew d ∉ tr)
  /\ EvSendRsp (rsp Ex.proposeOffline)
       {| ri := {| RiAccepted := false; RiReason := "server error: save to db" |};
          respErr := None |} ∈ tr.
Proof.
  intros tr. split; [reflexivity |]. split; [reflexivity |].
  split; [by_run |]. split; [by_run |]. split; [reflexivity |].
  split; [| by_run].
  intros d Hin. apply list_elem_of_In in Hin. vm_compute in Hin.
  repeat (destruct Hin as [Hin | Hin]; [discriminate Hin |]). exact Hin.
Qed.

Lemma C9_counterexample :
  let tr := (acceptDeal Ex.proposeOnline Ex.rich).2 in
  EvSendRsp (rsp Ex.proposeOnline) acceptedResp ∈ tr
  /\ precedes isAcceptedReply isSpawn tr = false
  /\ precedes isSpawn isAcceptedReply tr = true.
Proof.
  intros tr. split; [by_run |]. split; reflexivity.
Qed.

(** C4 as worded: a rejected attempt releases what was held for the
    deal's UUID before it, although both managers meet their contracts;
    and when the store is locked, a rejected attempt leaves the funds it
    tagged in place. *)
Lemma C4_counterexample :
  let noSpace :=
    {| ri := {| RiAccepted := false;
                RiReason := "server error: provider has no space left for storage deals" |};
       respErr := None |} in
  let run := acceptDeal Ex.proposeOnline heldBefore in
  let run' := acceptDeal Ex.proposeOnline Locked.cramped in
  (* held before, gone after the rejection *)
  (EvTag 7%N 62914560%N (Some ErrNoSpaceLeft) ∈ run.2
   /\ EvSendRsp (rsp Ex.proposeOnline) noSpace ∈ run.2
   /\ fundTags (fundManager heldBefore) !! 7%N = Some (5%Z, 1%Z)
   /\ storageTags (storageManager heldBefore) !! 7%N = Some 62914560%N
   /\ fundTags (fundManager run.1.2) !! 7%N = None
   /\ storageTags (storageManager run.1.2) !! 7%N = None)
  (* nothing held before, funds tagged after the rejection *)
  /\ (EvTag 7%N 62914560%N (Some ErrNoSpaceLeft) ∈ run'.2
      /\ EvUntagFunds 7%N (inr Locked.locked) ∈ run'.2
      /\ EvSendRsp (rsp Ex.proposeOnline) noSpace ∈ run'.2
      /\ fundTags (fundManager Locked.cramped) !! 7%N = None
      /\ fundTags (fundManager run'.1.2) !! 7%N = Some (5%Z, 1%Z)).
Proof.
  intros noSpace run run'. split.
  - split; [by_run |]. split; [by_run |]. by vm_compute.
  - split; [by_run |]. split; [by_run |]. split; [by_run |]. by vm_compute.
Qed.

(** C7 as worded: with the store locked the release logs an error and
    closes done, and the 60 MiB stay tagged. *)
Lemma C7_counterexample :
  let run := loop [storageSpaceChan Ex.release1; storageSpaceChan Ex.release2]
               Locked.tagging in
  taggedBytes (storageManager Locked.tagging) 7%N = 62914560%N
  /\ run.2 = [EvUntag 7%N (Some Locked.locked);
              EvLogError 7%N "failed to untag storage space" Locked.locked;
              EvCloseDone (spcDone Ex.release1);
              EvUntag 7%N (Some Locked.locked);
              EvLogError 7%N "failed to untag storage space" Locked.locked;
              EvCloseDone (spcDone Ex.release2);
              EvLoopComplete]
  /\ taggedBytes (storageManager run.1.2) 7%N = 62914560%N.
Proof. intros run. by vm_compute. Qed.

(** C8 as worded: with the store locked the finish release logs both
    errors and signals done, and the funds and the 60 MiB stay tagged. *)
Lemma C8_counterexample :
  let run := loop [finishedDealChan Ex.finish] Locked.tagging in
  run.2 = [EvInfow 7%N "deal finished" [];
           EvUntagFunds 7%N (inr Locked.locked);
           EvLogError 7%N "failed to untag funds" Locked.locked;
           EvUntag 7%N (Some Locked.locked);
           EvLogError 7%N "failed to untag storage" Locked.locked;
           EvSendDone (finDone Ex.finish);
           EvLoopComplete]
  /\ fundsTagged (fundManager run.1.2) 7%N = true
  /\ taggedBytes (storageManager run.1.2) 7%N = 62914560%N.
Proof. intros run. by vm_compute. Qed.

End Samples.

(** ** More on the reconciler

    What the loop does with every message, the rejections of the online
    path stage by stage, and how the reservations of deals relate. *)

Section More.

Context {F S D R : Type}.
Context `{FM : FundManager F} `{SM : StorageManager S}.
Context `{DB : DealsDB D} `{RT : Runtime R} `{CD : Codec}.
Context `{PM : ProviderMethods F S D R}.
Context `{FV : FundView F} `{SV : StorageView S}.

Lemma routine_no_loop_event (dealReq : acceptDealReq) (p : Provider F S D R) :
  existsb isLoopEvent (routineOf dealReq p).2 = false.
Proof.
  unfold routineOf.
  destruct (IsOffline (deal dealReq)); [destruct (isImport dealReq) |].
  all: unfold_accept; run.
  all: resolve_cleanup; rewrite ?app_nil_r.
  all: cbn; rewrite ?cleanupEvents_existsb by (by intros []); reflexivity.
Qed.

Lemma acceptDeal_routine (dealReq : acceptDealReq) (p : Provider F S D R) :
  acceptDeal dealReq p =
    let '(r, p1, tr) := routineOf dealReq p in
    (tt, p1,
     EvInfow (DealUuid (deal dealReq)) "processing deal acceptance request" []
       :: tr ++ match r.2 with
                | Some aerr => rejectionEvents dealReq aerr
                | None =>
                    if startsFiber dealReq then startEvents dealReq r.1
                    else [EvSendRsp (rsp dealReq) acceptedResp]
                end).
Proof.
  unfold routineOf, startsFiber.
  destruct (IsOffline (deal dealReq)) eqn:Hoff; [destruct (isImport dealReq) eqn:Himp |].
  - by rewrite (acceptDeal_import _ _ Hoff Himp).
  - by rewrite (acceptDeal_offline _ _ Hoff Himp).
  - by rewrite (acceptDeal_online _ _ Hoff).
Qed.

(** The deal an acceptance routine returns is the deal of the request,
    under the same UUID and with the same signed proposal. *)
Lemma routine_same_deal (dealReq : acceptDealReq) (p : Provider F S D R) :
  DealUuid (routineOf dealReq p).1.1.1 = DealUuid (deal dealReq)
  /\ ClientDealProposal_ (routineOf dealReq p).1.1.1 = ClientDealProposal_ (deal dealReq).
Proof.
  unfold routineOf.
  destruct (IsOffline (deal dealReq)); [destruct (isImport dealReq) |].
  all: unfold_accept; run.
  all: resolve_cleanup; by split.
Qed.

Lemma no_loop_event_elem (tr : list Event) (e : Event) :
  existsb isLoopEvent tr = false -> e ∈ tr -> isLoopEvent e = false.
Proof.
  intros Hq Hin. destruct (isLoopEvent e) eqn:He; [| reflexivity].
  assert (existsb isLoopEvent tr = true) as Hex; [| congruence].
  apply existsb_exists. exists e. split; [by apply list_elem_of_In | done].
Qed.

Lemma no_loop_event_answers (tr : list Event) :
  existsb isLoopEvent tr = false -> omap answerOf tr = [].
Proof.
  induction tr as [| e tr IH]; [reflexivity |]. cbn. intros Hq.
  apply orb_false_elim in Hq as [He Hq]. rewrite (IH Hq).
  by destruct e.
Qed.

Lemma no_loop_event_balanced (tr rest : list Event) :
  existsb isLoopEvent tr = false -> spawnsBalanced (tr ++ rest) = spawnsBalanced rest.
Proof.
  induction tr as [| e tr IH]; [reflexivity |]. cbn. intros Hq.
  apply orb_false_elim in Hq as [He Hq]. rewrite <- (IH Hq).
  by destruct e.
Qed.

(** X1.  Every accept request is answered exactly once: whichever of the
    three acceptance routines the loop hands it to, and whatever the
    components answer, the loop sends one response, on the request's own
    [rsp] channel, as the last thing it does for the request.  The response
    never carries an error; it says [Accepted: true] exactly when the
    routine returned no error, and otherwise carries the reason of the
    routine's error.  The loop itself leaves the provider as the routine
    left it. *)
Theorem X1_one_reply (dealReq : acceptDealReq) (p : Provider F S D R) :
  let '(r, p1, tr) := routineOf dealReq p in
  exists pre,
    acceptDeal dealReq p = (tt, p1, pre ++ [EvSendRsp (rsp dealReq) (replyFor r.2)])
    /\ (forall c resp, EvSendRsp c resp ∉ pre)
    /\ respErr (replyFor r.2) = None
    /\ (RiAccepted (ri (replyFor r.2)) = true <-> r.2 = None)
    /\ (forall aerr, r.2 = Some aerr -> RiReason (ri (replyFor r.2)) = reason aerr).
Proof.
  pose proof (routine_no_loop_event dealReq p) as Hq.
  rewrite acceptDeal_routine.
  destruct (routineOf dealReq p) as [[[d' aerr] p1] tr]. cbn in Hq |- *.
  assert (Hnone : forall c resp, EvSendRsp c resp ∉ tr).
  { intros c resp Hin. by apply (no_loop_event_elem _ _ Hq) in Hin. }
  destruct aerr as [a |]; cbn.
  - unfold rejectionEvents. destruct (isSevereError a).
    + eexists (_ :: tr ++ [_]). split; [cbn; by rewrite <- app_assoc |].
      split; [| cbn; repeat split; intros; by simplify_eq].
      intros c resp Hin. apply elem_of_cons in Hin as [Hin | Hin]; [done |].
      apply elem_of_app in Hin as [Hin | Hin]; [by apply Hnone in Hin |]. elem_cases Hin.
    + eexists (_ :: tr ++ [_]). split; [cbn; by rewrite <- app_assoc |].
      split; [| cbn; repeat split; intros; by simplify_eq].
      intros c resp Hin. apply elem_of_cons in Hin as [Hin | Hin]; [done |].
      apply elem_of_app in Hin as [Hin | Hin]; [by apply Hnone in Hin |]. elem_cases Hin.
  - destruct (startsFiber dealReq); unfold startEvents.
    + eexists (_ :: tr ++ [_; _]). split; [cbn; by rewrite <- app_assoc |].
      split; [| cbn; repeat split; intros; by simplify_eq].
      intros c resp Hin. apply elem_of_cons in Hin as [Hin | Hin]; [done |].
      apply elem_of_app in Hin as [Hin | Hin]; [by apply Hnone in Hin |]. elem_cases Hin.
    + eexists (_ :: tr). split; [reflexivity |].
      split; [| cbn; repeat split; intros; by simplify_eq].
      intros c resp Hin. apply elem_of_cons in Hin as [Hin | Hin]; [done |].
      by apply Hnone in Hin.
Qed.

Lemma loopCase_answer (m : Msg) (p : Provider F S D R) :
  omap answerOf (loopCase m p).2 = [answerDue m].
Proof.
  destruct m as [dealReq | req | req | req]; cbn [loopCase answerDue].
  - pose proof (routine_no_loop_event dealReq p) as Hq.
    rewrite acceptDeal_routine.
    destruct (routineOf dealReq p) as [[[d' aerr] p1] tr]. cbn in Hq |- *.
    rewrite omap_app, (no_loop_event_answers _ Hq). cbn.
    destruct aerr as [a |]; cbn.
    + unfold rejectionEvents. by destruct (isSevereError a).
    + by destruct (startsFiber dealReq).
  - rewrite storageSpace_run.
    destruct (Untag _ _) as [rs s']. cbn. unfold storageSpaceEvents.
    destruct rs as [e |]; cbn; [by destruct (Is e NotFound) | done].
  - rewrite publishedDeal_run.
    destruct (UntagFunds _ _) as [rf f']. cbn. unfold publishEvents.
    by destruct rf as [[? ?] | e].
  - rewrite finishedDeal_run.
    destruct (UntagFunds _ _) as [rf f']. destruct (Untag _ _) as [rs s']. cbn.
    unfold finishEvents.
    destruct rf as [[? ?] | e1], rs as [e2 |]; cbn;
      repeat match goal with |- context [if ?b then _ else _] => destruct b end;
      reflexivity.
Qed.

(** X3.  The loop answers every message it is handed exactly once, on the
    message's own channel, in the order the messages came: a response on
    [rsp] for an accept request, [close(done)] for a storage release, a send
    on [done] for a publish release and for a finish release; and it sends
    or closes nothing else. *)
Theorem X3_loop_answers (msgs : list Msg) (p : Provider F S D R) :
  omap answerOf (loop msgs p).2 = map answerDue msgs.
Proof.
  rewrite loop_handled.
  assert (Hh : forall q : Provider F S D R,
             omap answerOf (handled msgs q).2 = map answerDue msgs).
  { induction msgs as [| m msgs IH]; intros q; [reflexivity |].
    cbn [handled]. unfold bind.
    pose proof (loopCase_answer m q) as Hm.
    destruct (loopCase m q) as [[[] q1] t1].
    specialize (IH q1). destruct (handled msgs q1) as [[[] q2] t2].
    cbn in *. by rewrite omap_app, Hm, IH. }
  specialize (Hh p). destruct (handled msgs p) as [[[] p1] tr]. cbn in *.
  by rewrite omap_app, Hh, app_nil_r.
Qed.

Lemma loopCase_spawns (m : Msg) (p : Provider F S D R) (rest : list Event) :
  spawnsBalanced ((loopCase m p).2 ++ rest) = spawnsBalanced rest
  /\ forall d h, EvGoDoDeal d h ∈ (loopCase m p).2 ->
       exists dealReq, m = acceptDealChan dealReq /\ h = dh dealReq
         /\ startsFiber dealReq = true
         /\ DealUuid d = DealUuid (deal dealReq)
         /\ ClientDealProposal_ d = ClientDealProposal_ (deal dealReq).
Proof.
  destruct m as [dealReq | req | req | req]; cbn [loopCase].
  - pose proof (routine_no_loop_event dealReq p) as Hq.
    pose proof (routine_same_deal dealReq p) as [Hu Hp].
    rewrite acceptDeal_routine.
    destruct (routineOf dealReq p) as [[[d' aerr] p1] tr]. cbn in Hq, Hu, Hp |- *.
    rewrite <- app_assoc, (no_loop_event_balanced _ _ Hq).
    assert (Hnone : forall d h, EvGoDoDeal d h ∉ tr).
    { intros d h Hin. by apply (no_loop_event_elem _ _ Hq) in Hin. }
    destruct aerr as [a |]; cbn.
    + unfold rejectionEvents. split; [by destruct (isSevereError a) |].
      intros d h Hin. exfalso.
      apply elem_of_cons in Hin as [Hin | Hin]; [done |].
      apply elem_of_app in Hin as [Hin | Hin]; [by apply Hnone in Hin |].
      destruct (isSevereError a); elem_cases Hin.
    + destruct (startsFiber dealReq) eqn:Hst; (split; [reflexivity |]).
      * intros d h Hin.
        apply elem_of_cons in Hin as [Hin | Hin]; [done |].
        apply elem_of_app in Hin as [Hin | Hin]; [by apply Hnone in Hin |].
        unfold startEvents in Hin. elem_cases Hin. simplify_eq. by exists dealReq.
      * intros d h Hin. exfalso.
        apply elem_of_cons in Hin as [Hin | Hin]; [done |].
        apply elem_of_app in Hin as [Hin | Hin]; [by apply Hnone in Hin |].
        elem_cases Hin.
  - rewrite storageSpace_run.
    destruct (Untag _ _) as [rs s']. cbn. unfold storageSpaceEvents.
    split.
    + destruct rs as [e |]; cbn; [by destruct (Is e NotFound) | done].
    + intros d h Hin. exfalso.
      destruct rs as [e |]; cbn in Hin; [destruct (Is e NotFound) |]; elem_cases Hin.
  - rewrite publishedDeal_run.
    destruct (UntagFunds _ _) as [rf f']. cbn. unfold publishEvents.
    split; [by destruct rf as [[? ?] | e] |].
    intros d h Hin. exfalso. destruct rf as [[? ?] | e]; elem_cases Hin.
  - rewrite finishedDeal_run.
    destruct (UntagFunds _ _) as [rf f']. destruct (Untag _ _) as [rs s']. cbn.
    unfold finishEvents.
    split.
    + destruct rf as [[? ?] | e1], rs as [e2 |]; cbn;
        repeat match goal with |- context [if ?b then _ else _] => destruct b end;
        reflexivity.
    + intros d h Hin. exfalso.
      destruct rf as [[? ?] | e1], rs as [e2 |]; cbn in Hin;
        repeat match type of Hin with context [if ?b then _ else _] => destruct b end;
        cbn in Hin; elem_cases Hin.
Qed.

(** X2.  Over any run of the loop, every [go] statement that starts a
    deal's goroutine comes right after a [wg.Add(1)], and every [wg.Add(1)]
    is followed at once by such a [go] statement.  A goroutine is started
    only for an accept request the loop was handed, with that request's
    deal handler, on a deal with the request's UUID and signed proposal, and
    never for an offline proposal. *)
Theorem X2_spawns (msgs : list Msg) (p : Provider F S D R) :
  spawnsBalanced (loop msgs p).2 = true
  /\ forall d h, EvGoDoDeal d h ∈ (loop msgs p).2 ->
       exists dealReq, acceptDealChan dealReq ∈ msgs /\ h = dh dealReq
         /\ startsFiber dealReq = true
         /\ DealUuid d = DealUuid (deal dealReq)
         /\ ClientDealProposal_ d = ClientDealProposal_ (deal dealReq).
Proof.
  rewrite loop_handled.
  assert (Hh : forall (q : Provider F S D R) rest,
             spawnsBalanced ((handled msgs q).2 ++ rest) = spawnsBalanced rest
             /\ forall d h, EvGoDoDeal d h ∈ (handled msgs q).2 ->
                  exists dealReq, acceptDealChan dealReq ∈ msgs /\ h = dh dealReq
                    /\ startsFiber dealReq = true
                    /\ DealUuid d = DealUuid (deal dealReq)
                    /\ ClientDealProposal_ d = ClientDealProposal_ (deal dealReq)).
  { induction msgs as [| m msgs IH]; intros q rest.
    - cbn. split; [reflexivity |]. intros d h Hin. elem_cases Hin.
    - cbn [handled]. unfold bind.
      pose proof (loopCase_spawns m q) as Hm.
      destruct (loopCase m q) as [[[] q1] t1].
      specialize (IH q1). destruct (handled msgs q1) as [[[] q2] t2].
      cbn in *. split.
      + rewrite <- app_assoc. rewrite (proj1 (Hm _)). apply IH.
      + intros d h Hin. apply elem_of_app in Hin as [Hin | Hin].
        * destruct (proj2 (Hm []) d h Hin) as (dealReq & -> & Hrest).
          exists dealReq. split; [apply elem_of_cons; by left | exact Hrest].
        * destruct (proj2 (IH []) d h Hin) as (dealReq & Hmem & Hrest).
          exists dealReq. split; [apply elem_of_cons; by right | exact Hrest]. }
  destruct (handled msgs p) as [[[] p1] tr] eqn:E. cbn.
  specialize (Hh p). rewrite E in Hh. cbn in Hh. split.
  - rewrite (proj1 (Hh _)). reflexivity.
  - intros d h Hin. apply elem_of_app in Hin as [Hin | Hin]; [| elem_cases Hin].
    exact (proj2 (Hh []) d h Hin).
Qed.

(** X4.  When the storage manager cannot tag the deal's bytes, an online
    proposal is rejected after the cleanup: the size asked for is the deal's
    [Transfer.Size]; if the error is [ErrNoSpaceLeft] (directly or wrapped)
    the rejection is not severe and the client is told "server error:
    provider has no space left for storage deals", otherwise it is severe,
    logged as an error, and the client is told "server error: tag storage".
    No staging file is asked for, nothing is inserted, no goroutine is
    started, and, with a fund manager that meets its contract, the funds
    tagged a moment before are released. *)
Theorem X4_no_space_left (dealReq : acceptDealReq) (p p' : Provider F S D R)
    (tr : list Event) (size : N) (e : error) :
  let u := DealUuid (deal dealReq) in
  IsOffline (deal dealReq) = false ->
  acceptDeal dealReq p = (tt, p', tr) ->
  EvTag u size (Some e) ∈ tr ->
  let answer why :=
    EvSendRsp (rsp dealReq)
      {| ri := {| RiAccepted := false; RiReason := why |}; respErr := None |} in
  size = TransferSize (Transfer_ (deal dealReq))
  /\ (exists pre rf rs,
        tr = pre ++ [EvTag u size (Some e)] ++ cleanupEvents (deal dealReq) rf rs
                 ++ rejectionEvents dealReq (tagStorageRejection e))
  /\ (Is e NoSpaceLeft = true ->
        rejectionEvents dealReq (tagStorageRejection e) =
          [EvInfow u "deal acceptance request rejected"
             [VStr "reason";
              VStr "server error: provider has no space left for storage deals"];
           answer "server error: provider has no space left for storage deals"])
  /\ (Is e NoSpaceLeft = false ->
        rejectionEvents dealReq (tagStorageRejection e) =
          [EvLogError u "error while processing deal acceptance request"
             (ErrorWrap "failed to tag storage for deal" e);
           answer "server error: tag storage"])
  /\ (forall r, EvDownloadFilePath u r ∉ tr)
  /\ (forall d r, EvInsert d r ∉ tr)
  /\ existsb isSpawn tr = false
  /\ (FundManagerSpec F -> fundTags (fundManager p') !! u = None).
Proof.
  intros u Hon Hrun Hin answer.
  rewrite (acceptDeal_online _ _ Hon) in Hrun. subst u answer.
  revert Hrun. unfold_accept. run.
  all: intros ?; simplify_eq; resolve_cleanup.
  all: rewrite ?app_nil_r in *.
  all: elem_all Hin; simplify_eq.
  all: unfold tagStorageRejection; cbn in *; use_tests; cbn.
  all: (split; [reflexivity |]).
  all: (split; [eexists _, _, _; solve_split |]).
  all: (split; [intros; first [ done | reflexivity ] |]).
  all: (split; [intros; first [ done | reflexivity ] |]).
  all: (split; [intros ? Hi; elem_all Hi |]).
  all: (split; [intros ? ? Hi; elem_all Hi |]).
  all: (split; [rewrite ?existsb_app; cbn;
                  rewrite ?cleanupEvents_existsb by (by intros []); reflexivity |]).
  all: intros FMS; cbn; ledger_cleared.
Qed.

(** X5.  The deal filter is shown the deal's UUID, signed proposal, data
    root and transfer, together with the sealing status that was fetched
    just before.  If it accepts, the next call tags the funds.  If it
    declines, the proposal is rejected without severity and the client is
    sent the filter's own reason, word for word; if it fails, the rejection
    is severe with "server error: deal filter error".  In both cases
    neither the fund manager nor the storage manager is called. *)
Theorem X5_deal_filter (dealReq : acceptDealReq) (p p' : Provider F S D R)
    (tr : list Event) (params : DealFilterParams) (r : bool * string + error) :
  let d := deal dealReq in
  IsOffline d = false ->
  acceptDeal dealReq p = (tt, p', tr) ->
  EvDealFilter params r ∈ tr ->
  (* what the filter is shown *)
  dfDealParams params =
    {| dpDealUUID := DealUuid d; dpClientDealProposal := ClientDealProposal_ d;
       dpDealDataRoot := DealDataRoot d; dpTransfer := Transfer_ d |}
  /\ exists pre post,
       tr = pre ++ EvGetStatus (inl (dfSealingPipelineState params))
                :: EvDealFilter params r :: post
       /\ match r with
          | inl (true, _) =>
              exists tagged rest,
                post = EvTagFunds (DealUuid d) (Proposal (ClientDealProposal_ d)) tagged :: rest
          | inl (false, why) =>
              post = rejectionEvents dealReq
                       {| aeError := ErrorNew ("deal filter rejected deal: " +:+ why);
                          reason := why; isSevereError := false |}
              /\ fundManager p' = fundManager p
              /\ storageManager p' = storageManager p
          | inr err =>
              post = rejectionEvents dealReq
                       {| aeError := ErrorWrap "failed to invoke deal filter" err;
                          reason := "server error: deal filter error";
                          isSevereError := true |}
              /\ fundManager p' = fundManager p
              /\ storageManager p' = storageManager p
          end.
Proof.
  intros d Hon Hrun Hin. subst d.
  rewrite (acceptDeal_online _ _ Hon) in Hrun.
  revert Hrun. unfold_accept. run.
  all: intros ?; simplify_eq; resolve_cleanup.
  all: rewrite ?app_nil_r in *.
  all: elem_all Hin; simplify_eq.
  all: (split; [reflexivity |]).
  all: eexists _, _; (split; [solve_split |]); cbn.
  all: first [ by eexists _, _ | by repeat split ].
Qed.

(** X6.  When the status of the sealing pipeline cannot be fetched, an
    online proposal is rejected at once and severely: the error is logged,
    the client is sent "server error: get sealing status", the deal filter
    is not run, nothing is tagged, and the fund manager and the storage
    manager are left untouched. *)
Theorem X6_sealing_status (dealReq : acceptDealReq) (p p' : Provider F S D R)
    (tr : list Event) (err : error) :
  let d := deal dealReq in
  IsOffline d = false ->
  acceptDeal dealReq p = (tt, p', tr) ->
  EvGetStatus (inr err) ∈ tr ->
  (exists pre,
     tr = pre ++ [EvGetStatus (inr err);
                  EvLogError (DealUuid d) "error while processing deal acceptance request"
                    (ErrorWrap "failed to fetch sealing pipleine status" err);
                  EvSendRsp (rsp dealReq)
                    {| ri := {| RiAccepted := false;
                                RiReason := "server error: get sealing status" |};
                       respErr := None |}])
  /\ (forall params r, EvDealFilter params r ∉ tr)
  /\ existsb isTagging tr = false
  /\ fundManager p' = fundManager p
  /\ storageManager p' = storageManager p.
Proof.
  intros d Hon Hrun Hin. subst d.
  rewrite (acceptDeal_online _ _ Hon) in Hrun.
  revert Hrun. unfold_accept. run.
  all: intros ?; simplify_eq; resolve_cleanup.
  all: rewrite ?app_nil_r in *.
  all: elem_all Hin; simplify_eq.
  all: (split; [eexists; solve_split |]).
  all: (split; [intros ? ? Hi; elem_all Hi |]).
  all: by repeat split.
Qed.

(** X7.  When the insert into the deals database fails, the staging file
    that was allocated for the deal a moment before is removed again: the
    deal that could not be inserted carries the path the storage manager
    gave, the cleanup that follows works on that deal, so the one file it
    removes is the file at that path (if the path is not empty); the
    proposal is rejected severely with "server error: save to db" and no
    goroutine is started.  With managers that meet their contracts nothing
    stays tagged for the deal and the file is gone from the staging
    directory. *)
Theorem X7_insert_failure (dealReq : acceptDealReq) (p p' : Provider F S D R)
    (tr : list Event) (d0 : ProviderDealState) (err : error) :
  let u := DealUuid (deal dealReq) in
  IsOffline (deal dealReq) = false ->
  acceptDeal dealReq p = (tt, p', tr) ->
  EvInsert d0 (Some err) ∈ tr ->
  exists path pre rf rs,
    EvDownloadFilePath u (inl path) ∈ pre
    /\ DealUuid d0 = u /\ InboundFilePath d0 = path
    /\ tr = pre ++ [EvInsert d0 (Some err)] ++ cleanupEvents d0 rf rs
              ++ rejectionEvents dealReq
                   {| aeError := ErrorWrap "failed to insert deal in db" err;
                      reason := "server error: save to db";
                      isSevereError := true |}
    /\ (forall q, EvRemove q ∈ tr <-> q = path /\ path <> "")
    /\ existsb isSpawn tr = false
    /\ (FundManagerSpec F -> StorageManagerSpec S ->
          fundTags (fundManager p') !! u = None
          /\ storageTags (storageManager p') !! u = None
          /\ path ∉ stagingFiles (storageManager p')).
Proof.
  intros u Hon Hrun Hin. subst u.
  rewrite (acceptDeal_online _ _ Hon) in Hrun.
  revert Hrun. unfold_accept. run.
  all: intros ?; simplify_eq; resolve_cleanup.
  all: rewrite ?app_nil_r in *.
  all: elem_all Hin; simplify_eq.
  all: eexists _, _, _, _.
  all: (split; [| split; [reflexivity | split; [reflexivity | split; [solve_split |]]]]);
    [elem_find |].
  all: cbn [InboundFilePath set_CheckpointAt set_Checkpoint set_CreatedAt set_InboundFilePath].
  split.
  { intros q. split.
    - intros Hi.
      repeat lazymatch type of Hi with
             | _ ∈ _ :: _ => apply elem_of_cons in Hi as [Hi | Hi]; [discriminate Hi |]
             end.
      apply elem_of_app in Hi as [Hi | Hi]; [| elem_cases Hi].
      lazymatch type of Hi with
      | _ ∈ cleanupEvents ?d ?rf ?rs =>
          destruct (cleanupEvents_facts d rf rs) as (_ & _ & Hrm & _)
      end.
      apply Hrm in Hi. cbn in Hi. destruct Hi as [-> Hi]. by split.
    - intros [-> Hne].
      repeat lazymatch goal with
             | |- _ ∈ _ :: _ => apply elem_of_cons; right
             end.
      apply elem_of_app. left.
      lazymatch goal with
      | |- _ ∈ cleanupEvents ?d ?rf ?rs =>
          destruct (cleanupEvents_facts d rf rs) as (_ & _ & Hrm & _)
      end.
      apply Hrm. by split. }
  split.
  { cbn. rewrite existsb_app, cleanupEvents_existsb by (by intros []). reflexivity. }
  intros FMS SMS.
  pose proof (DownloadFilePath_spec (DealUuid (deal dealReq)) s1) as Hd.
  rewrite Heqp6 in Hd. destruct Hd as (_ & Hne & _).
  apply String.eqb_neq in Hne. cbn. rewrite Hne.
  split; [ledger_cleared |]. split; [ledger_cleared |].
  rewrite (proj2 (osRemove_spec _ _)).
  apply not_elem_of_difference. right. by apply elem_of_singleton.
Qed.


(** X8.  The goroutine is started on the deal as it was written to the
    database: whenever the loop starts a goroutine for an online proposal,
    the deal it hands to [doDeal] is the deal of the one insert the
    acceptance made, which is the request's deal with [InboundFilePath] set
    to the path the storage manager allocated, [CreatedAt] and
    [CheckpointAt] set to the two clock readings and [Checkpoint] set to
    [Accepted]; the insert succeeded, the handler is the request's, and the
    goroutine is started after the insert and before the client is
    answered. *)
Theorem X8_spawned_deal (dealReq : acceptDealReq) (p p' : Provider F S D R)
    (tr : list Event) (d' : ProviderDealState) (h : dealHandler) :
  let d := deal dealReq in
  let u := DealUuid d in
  IsOffline d = false ->
  acceptDeal dealReq p = (tt, p', tr) ->
  EvGoDoDeal d' h ∈ tr ->
  h = dh dealReq
  /\ exists path t1 t2 pre,
       d' = set_CheckpointAt t2 (set_Checkpoint Accepted
              (set_CreatedAt t1 (set_InboundFilePath path d)))
       /\ tr = pre ++ [EvNow t1; EvNow t2; EvInsert d' None;
                       EvInfow u "inserted deal into deals DB" [];
                       EvWgAdd; EvGoDoDeal d' h;
                       EvSendRsp (rsp dealReq) acceptedResp]
       /\ EvDownloadFilePath u (inl path) ∈ pre
       /\ (forall d0 r, EvInsert d0 r ∉ pre).
Proof.
  intros d u Hon Hrun Hin. subst d u.
  rewrite (acceptDeal_online _ _ Hon) in Hrun.
  revert Hrun. unfold_accept. run.
  all: intros ?; simplify_eq; resolve_cleanup.
  all: rewrite ?app_nil_r in *.
  all: elem_all Hin; simplify_eq.
  all: (split; [reflexivity |]).
  all: eexists _, _, _, _.
  all: (split; [reflexivity |]).
  all: (split; [solve_split |]).
  all: (split; [elem_find |]).
  all: intros ? ? Hi; elem_cases Hi.
Qed.

(** *** Calls for one deal and the ledger entries of another *)

Lemma TagFunds_other `{!FundManagerSpec F} (u u' : UUID) prop (f : F) :
  u' <> u -> fundTags (TagFunds u prop f).2 !! u' = fundTags f !! u'.
Proof.
  intros Hne. pose proof (TagFunds_spec u prop f) as Hs.
  destruct (TagFunds u prop f) as [[trsp | e] f']; cbn.
  - destruct Hs as [amt ->]. by apply lookup_insert_ne.
  - by rewrite Hs.
Qed.

Lemma UntagFunds_other `{!FundManagerSpec F} (u u' : UUID) (f : F) :
  u' <> u -> fundTags (UntagFunds u f).2 !! u' = fundTags f !! u'.
Proof.
  intros Hne. pose proof (UntagFunds_spec u f) as Hs.
  destruct (UntagFunds u f) as [[amt | e] f']; cbn.
  - destruct Hs as [_ ->]. by apply lookup_delete_ne.
  - destruct Hs as (_ & _ & ->). reflexivity.
Qed.

Lemma Tag_other `{!StorageManagerSpec S} (u u' : UUID) size (s : S) :
  u' <> u -> storageTags (Tag u size s).2 !! u' = storageTags s !! u'.
Proof.
  intros Hne. pose proof (Tag_spec u size s) as Hs.
  destruct (Tag u size s) as [[e |] s']; cbn.
  - destruct Hs as [-> _]. reflexivity.
  - destruct Hs as [-> _]. by apply lookup_insert_ne.
Qed.

Lemma Untag_other `{!StorageManagerSpec S} (u u' : UUID) (s : S) :
  u' <> u -> storageTags (Untag u s).2 !! u' = storageTags s !! u'.
Proof.
  intros Hne. pose proof (Untag_spec u s) as Hs.
  destruct (Untag u s) as [[e |] s']; cbn.
  - destruct Hs as (_ & _ & -> & _). reflexivity.
  - destruct Hs as (_ & -> & _). by apply lookup_delete_ne.
Qed.

Lemma DownloadFilePath_tags `{!StorageManagerSpec S} (u : UUID) (s : S) :
  storageTags (DownloadFilePath u s).2 = storageTags s.
Proof.
  pose proof (DownloadFilePath_spec u s) as Hs.
  destruct (DownloadFilePath u s) as [[path | e] s']; cbn.
  - by destruct Hs as (_ & _ & -> & _).
  - by destruct Hs as [-> _].
Qed.

(** Rewrite the ledgers after a recorded call into the ledgers before it. *)
Ltac ledger_back u' Hne :=
  repeat match goal with
  | |- context [storageTags (osRemove ?path ?s)] =>
      rewrite (proj1 (osRemove_spec path s))
  | H : TagFunds ?u ?pr ?f = (_, ?f') |- context [fundTags ?f' !! u'] =>
      let X := fresh in
      pose proof (TagFunds_other u u' pr f Hne) as X; rewrite H in X; cbn in X;
      rewrite X; clear X
  | H : UntagFunds ?u ?f = (_, ?f') |- context [fundTags ?f' !! u'] =>
      let X := fresh in
      pose proof (UntagFunds_other u u' f Hne) as X; rewrite H in X; cbn in X;
      rewrite X; clear X
  | H : Tag ?u ?sz ?s = (_, ?s') |- context [storageTags ?s' !! u'] =>
      let X := fresh in
      pose proof (Tag_other u u' sz s Hne) as X; rewrite H in X; cbn in X;
      rewrite X; clear X
  | H : Untag ?u ?s = (_, ?s') |- context [storageTags ?s' !! u'] =>
      let X := fresh in
      pose proof (Untag_other u u' s Hne) as X; rewrite H in X; cbn in X;
      rewrite X; clear X
  | H : DownloadFilePath ?u ?s = (_, ?s') |- context [storageTags ?s'] =>
      let X := fresh in
      pose proof (DownloadFilePath_tags u s) as X; rewrite H in X; cbn in X;
      rewrite X; clear X
  end.

Lemma loopCase_other `{!FundManagerSpec F} `{!StorageManagerSpec S}
    (m : Msg) (p : Provider F S D R) (u' : UUID) :
  DealUuid (dealOf m) <> u' ->
  isOfflineProposal m = false ->
  fundTags (fundManager (loopCase m p).1.2) !! u' = fundTags (fundManager p) !! u'
  /\ storageTags (storageManager (loopCase m p).1.2) !! u'
     = storageTags (storageManager p) !! u'.
Proof.
  intros Hne Hprop. assert (Hne' : u' <> DealUuid (dealOf m)) by congruence.
  destruct m as [dealReq | req | req | req]; cbn [loopCase dealOf] in *.
  - cbn in Hprop. apply negb_false_iff in Hprop.
    rewrite acceptDeal_routine.
    unfold routineOf, startsFiber in *.
    destruct (IsOffline (deal dealReq)); [destruct (isImport dealReq); [| done] |].
    + unfold_accept. run. all: split; cbn; ledger_back u' Hne'; reflexivity.
    + unfold_accept. run.
      all: resolve_cleanup; cbn.
      all: repeat match goal with |- context [if ?b then _ else _] => destruct b end.
      all: split; cbn; ledger_back u' Hne'; reflexivity.
  - rewrite storageSpace_run. destruct (Untag _ _) as [rs s'] eqn:E. cbn.
    split; [reflexivity |]. ledger_back u' Hne'. reflexivity.
  - rewrite publishedDeal_run. destruct (UntagFunds _ _) as [rf f'] eqn:E. cbn.
    split; [| reflexivity]. ledger_back u' Hne'. reflexivity.
  - rewrite finishedDeal_run. destruct (UntagFunds _ _) as [rf f'] eqn:E1.
    destruct (Untag _ _) as [rs s'] eqn:E2. cbn.
    split; ledger_back u' Hne'; reflexivity.
Qed.

Lemma handled_other `{!FundManagerSpec F} `{!StorageManagerSpec S}
    (msgs : list Msg) (p : Provider F S D R) (u' : UUID) :
  Forall (fun m => DealUuid (dealOf m) <> u' /\ isOfflineProposal m = false) msgs ->
  fundTags (fundManager (handled msgs p).1.2) !! u' = fundTags (fundManager p) !! u'
  /\ storageTags (storageManager (handled msgs p).1.2) !! u'
     = storageTags (storageManager p) !! u'.
Proof.
  intros Hall. revert p.
  induction Hall as [| m msgs [Hne Hprop] _ IH]; intros p; [by split |].
  cbn [handled]. unfold bind.
  pose proof (loopCase_other m p u' Hne Hprop) as Hm.
  destruct (loopCase m p) as [[[] p1] t1].
  specialize (IH p1). destruct (handled msgs p1) as [[[] p2] t2].
  cbn in *. destruct Hm as [Hm1 Hm2], IH as [IH1 IH2]. split; congruence.
Qed.

(** X11.  Deals do not touch one another's reservations: with a fund
    manager and a storage manager that meet their contracts, whatever
    messages the loop handles for other deals (accept requests that are not
    offline proposals, and releases), the funds and the staging bytes tagged
    for a deal are after the run what they were before it. *)
Theorem X11_other_deals (msgs : list Msg) (p : Provider F S D R) (u' : UUID) :
  FundManagerSpec F -> StorageManagerSpec S ->
  Forall (fun m => DealUuid (dealOf m) <> u' /\ isOfflineProposal m = false) msgs ->
  fundTags (fundManager (loop msgs p).1.2) !! u' = fundTags (fundManager p) !! u'
  /\ storageTags (storageManager (loop msgs p).1.2) !! u'
     = storageTags (storageManager p) !! u'.
Proof.
  intros FMS SMS Hall. rewrite loop_handled.
  pose proof (handled_other msgs p u' Hall) as Hh.
  destruct (handled msgs p) as [[[] p1] tr]. exact Hh.
Qed.


(** X9.  A deal's reservations are a round trip: start from a provider
    that holds nothing for the deal, let the loop handle any messages for
    that deal (its acceptance as an online deal or as an import, accepted or
    rejected, and any releases) and then its finish release; with managers
    that meet their contracts, the fund ledger and the storage ledger are
    then exactly what they were at the start. *)
Theorem X9_round_trip (msgs : list Msg) (fin : finishedDealReq)
    (p : Provider F S D R) (u : UUID) :
  FundManagerSpec F -> StorageManagerSpec S ->
  Forall (fun m => DealUuid (dealOf m) = u /\ isOfflineProposal m = false) msgs ->
  DealUuid (finDeal fin) = u ->
  fundTags (fundManager p) !! u = None ->
  storageTags (storageManager p) !! u = None ->
  fundTags (fundManager (loop (msgs ++ [finishedDealChan fin]) p).1.2)
    = fundTags (fundManager p)
  /\ storageTags (storageManager (loop (msgs ++ [finishedDealChan fin]) p).1.2)
     = storageTags (storageManager p).
Proof.
  intros FMS SMS Hall Hfin Hf0 Hs0.
  rewrite loop_handled, handled_app.
  assert (Hoff : forall i, i <> u ->
            fundTags (fundManager (handled msgs p).1.2) !! i = fundTags (fundManager p) !! i
            /\ storageTags (storageManager (handled msgs p).1.2) !! i
               = storageTags (storageManager p) !! i).
  { intros i Hi. apply handled_other.
    eapply Forall_impl; [exact Hall |]. intros m [Hm Hp]. split; [congruence | done]. }
  destruct (handled msgs p) as [[[] p1] tr]. cbn in Hoff.
  cbn [handled loopCase]. unfold bind, ret. rewrite finishedDeal_run, Hfin.
  pose proof (UntagFunds_clears u (fundManager p1)) as Hfc.
  pose proof (Untag_clears u (storageManager p1)) as Hsc.
  pose proof (UntagFunds_other u) as Hfo. pose proof (Untag_other u) as Hso.
  specialize (fun i => Hfo i (fundManager p1)).
  specialize (fun i => Hso i (storageManager p1)).
  destruct (UntagFunds u (fundManager p1)) as [rf f'].
  destruct (Untag u (storageManager p1)) as [rs s']. cbn in *.
  split; apply map_eq; intros i; destruct (decide (i = u)) as [-> | Hi].
  - by rewrite Hfc, Hf0.
  - rewrite (Hfo i Hi). by apply Hoff.
  - by rewrite Hsc, Hs0.
  - rewrite (Hso i Hi). by apply Hoff.
Qed.

(** X10.  An accepted deal holds its reservations: when the loop answers
    [Accepted: true] to an online proposal or to an import request, and the
    managers meet their contracts, funds are tagged for the deal's UUID
    when the loop has answered; for an online proposal exactly
    [Transfer.Size] bytes of staging storage are tagged for it as well, while
    an import leaves the storage manager as it was. *)
Theorem X10_accepted_holds (dealReq : acceptDealReq) (p p' : Provider F S D R)
    (tr : list Event) :
  let d := deal dealReq in
  let u := DealUuid d in
  FundManagerSpec F -> StorageManagerSpec S ->
  startsFiber dealReq = true ->
  acceptDeal dealReq p = (tt, p', tr) ->
  existsb isAcceptedReply tr = true ->
  fundsTagged (fundManager p') u = true
  /\ if IsOffline d then storageManager p' = storageManager p
     else taggedBytes (storageManager p') u = TransferSize (Transfer_ d).
Proof.
  intros d u FMS SMS Hst Hrun Hacc. subst d u.
  rewrite acceptDeal_routine in Hrun. unfold routineOf, startsFiber in *.
  destruct (IsOffline (deal dealReq)); [destruct (isImport dealReq); [| done] |].
  - revert Hrun. unfold_accept. run.
    all: intros ?; simplify_eq.
    all: cbn in Hacc; try discriminate Hacc.
    all: unfold fundsTagged; cbn.
    all: match goal with
         | H : TagFunds ?u ?pr ?f = (inl _, _) |- _ =>
             let X := fresh in
             pose proof (TagFunds_spec u pr f) as X; rewrite H in X; destruct X as [amt ->]
         end.
    all: split; [| reflexivity].
    all: first [ reflexivity | apply bool_decide_eq_true; rewrite lookup_insert_eq; eauto ].
  - revert Hrun. unfold_accept. run.
    all: intros ?; simplify_eq; resolve_cleanup.
    all: rewrite ?app_nil_r in *.
    all: cbn in Hacc; rewrite ?existsb_app in Hacc; cbn in Hacc;
      rewrite ?cleanupEvents_existsb in Hacc by (by intros []); try discriminate Hacc.
    all: unfold fundsTagged, taggedBytes; cbn.
    all: match goal with
         | H : TagFunds ?u ?pr ?f = (inl _, _) |- _ =>
             let X := fresh in
             pose proof (TagFunds_spec u pr f) as X; rewrite H in X; destruct X as [amt ->]
         end.
    all: match goal with
         | H : Tag ?u ?sz ?s = (None, _) |- _ =>
             let X := fresh in
             pose proof (Tag_spec u sz s) as X; rewrite H in X; destruct X as [Ht _]
         end.
    all: match goal with
         | H : DownloadFilePath ?u ?s = (inl _, _) |- _ =>
             let X := fresh in
             pose proof (DownloadFilePath_spec u s) as X; rewrite H in X;
             destruct X as (_ & _ & -> & _)
         end.
    all: rewrite Ht, !lookup_insert_eq; cbn; split; [| reflexivity].
    all: first [ reflexivity | apply bool_decide_eq_true; eauto ].
Qed.

End More.

(** *** On the sample runs *)

Module MoreSamples.

Import Ref.

Lemma run_parts {A B : Type} (x : A * B * list Event) : x = (x.1.1, x.1.2, x.2).
Proof. by destruct x as [[? ?] ?]. Qed.

Ltac in_run := apply list_elem_of_In; vm_compute; tauto.

Lemma X4_witness :
  let run := acceptDeal Ex.proposeOnline Ex2.cramped in
  IsOffline (deal Ex.proposeOnline) = false
  /\ EvTag 7%N 62914560%N (Some ErrNoSpaceLeft) ∈ run.2
  /\ rejectionEvents Ex.proposeOnline (tagStorageRejection ErrNoSpaceLeft) =
       [EvInfow 7%N "deal acceptance request rejected"
          [VStr "reason";
           VStr "server error: provider has no space left for storage deals"];
        EvSendRsp 1%N
          {| ri := {| RiAccepted := false;
                      RiReason := "server error: provider has no space left for storage deals" |};
             respErr := None |}]
  /\ fundTags (fundManager run.1.2) !! 7%N = None.
Proof.
  intros run.
  assert (Hin : EvTag 7%N 62914560%N (Some ErrNoSpaceLeft) ∈ run.2) by in_run.
  split; [reflexivity |]. split; [exact Hin |].
  destruct (X4_no_space_left Ex.proposeOnline Ex2.cramped run.1.2 run.2 _ _
              eq_refl (run_parts run) Hin)
    as (_ & _ & Hreason & _ & _ & _ & _ & Hledger).
  split; [exact (Hreason eq_refl) | exact (Hledger RefFacts.Funds_spec)].
Defined.

Lemma X5_witness :
  let run := acceptDeal Ex.proposeOnline Ex2.choosy in
  let params :=
    {| dfDealParams :=
         {| dpDealUUID := 7%N; dpClientDealProposal := ClientDealProposal_ Ex.online;
            dpDealDataRoot := "bafyroot"; dpTransfer := Transfer_ Ex.online |};
       dfSealingPipelineState := {| SectorStates := [("Proving", 3%Z)]; Workers := [] |} |} in
  IsOffline (deal Ex.proposeOnline) = false
  /\ EvDealFilter params (inl (false, "not taking deals today")) ∈ run.2
  /\ fundManager run.1.2 = fundManager Ex2.choosy.
Proof.
  intros run params.
  assert (Hin : EvDealFilter params (inl (false, "not taking deals today")) ∈ run.2)
    by in_run.
  split; [reflexivity |]. split; [exact Hin |].
  destruct (X5_deal_filter Ex.proposeOnline Ex2.choosy run.1.2 run.2 _ _
              eq_refl (run_parts run) Hin)
    as (_ & pre & post & _ & _ & Hf & _).
  exact Hf.
Defined.

Lemma X6_witness :
  let run := acceptDeal Ex.proposeOnline Ex2.stalled in
  IsOffline (deal Ex.proposeOnline) = false
  /\ EvGetStatus (inr (ErrorNew "connection refused")) ∈ run.2
  /\ existsb isTagging run.2 = false.
Proof.
  intros run.
  assert (Hin : EvGetStatus (inr (ErrorNew "connection refused")) ∈ run.2) by in_run.
  split; [reflexivity |]. split; [exact Hin |].
  destruct (X6_sealing_status Ex.proposeOnline Ex2.stalled run.1.2 run.2 _
              eq_refl (run_parts run) Hin)
    as (_ & _ & Ht & _).
  exact Ht.
Defined.

Lemma X7_witness :
  let run := acceptDeal Ex.proposeOnline Ex.failing in
  let d0 := (processDealProposal Ex.online Ex.failing).1.1.1 in
  IsOffline (deal Ex.proposeOnline) = false
  /\ EvInsert d0 (Some (ErrorNew "database is locked")) ∈ run.2
  /\ InboundFilePath d0 = "/staging/7.car"
  /\ EvRemove "/staging/7.car" ∈ run.2
  /\ existsb isSpawn run.2 = false.
Proof.
  intros run d0.
  assert (Hin : EvInsert d0 (Some (ErrorNew "database is locked")) ∈ run.2) by in_run.
  split; [reflexivity |]. split; [exact Hin |]. split; [reflexivity |].
  destruct (X7_insert_failure Ex.proposeOnline Ex.failing run.1.2 run.2 _ _
              eq_refl (run_parts run) Hin)
    as (path & pre & rf & rs & _ & _ & Hpath & _ & Hrm & Hsp & _).
  split; [| exact Hsp].
  apply Hrm. rewrite <- Hpath. split; [reflexivity | discriminate].
Defined.

Lemma X8_witness :
  let run := acceptDeal Ex.proposeOnline Ex.rich in
  let d' := (processDealProposal Ex.online Ex.rich).1.1.1 in
  IsOffline (deal Ex.proposeOnline) = false
  /\ EvGoDoDeal d' (Ex.handler 7%N) ∈ run.2
  /\ exists pre t1 t2,
       run.2 = pre ++ [EvNow t1; EvNow t2; EvInsert d' None;
                       EvInfow 7%N "inserted deal into deals DB" [];
                       EvWgAdd; EvGoDoDeal d' (Ex.handler 7%N);
                       EvSendRsp 1%N acceptedResp].
Proof.
  intros run d'.
  assert (Hin : EvGoDoDeal d' (Ex.handler 7%N) ∈ run.2) by in_run.
  split; [reflexivity |]. split; [exact Hin |].
  destruct (X8_spawned_deal Ex.proposeOnline Ex.rich run.1.2 run.2 _ _
              eq_refl (run_parts run) Hin)
    as (_ & path & t1 & t2 & pre & _ & Htr & _).
  exists pre, t1, t2. exact Htr.
Defined.

Lemma X9_witness :
  let msgs := [acceptDealChan Ex.proposeOnline; storageSpaceChan Ex.release1] in
  let p' := (loop (msgs ++ [finishedDealChan Ex.finish]) Ex.rich).1.2 in
  Forall (fun m => DealUuid (dealOf m) = 7%N /\ isOfflineProposal m = false) msgs
  /\ fundTags (fundManager p') = fundTags (fundManager Ex.rich)
  /\ storageTags (storageManager p') = storageTags (storageManager Ex.rich).
Proof.
  intros msgs p'.
  assert (Hall : Forall (fun m => DealUuid (dealOf m) = 7%N
                                  /\ isOfflineProposal m = false) msgs).
  { repeat constructor. }
  split; [exact Hall |].
  exact (X9_round_trip msgs Ex.finish Ex.rich 7%N RefFacts.Funds_spec
           RefFacts.Storage_spec Hall eq_refl eq_refl eq_refl).
Defined.

Lemma X10_witness :
  let run := acceptDeal Ex.proposeOnline Ex.rich in
  startsFiber Ex.proposeOnline = true
  /\ existsb isAcceptedReply run.2 = true
  /\ fundsTagged (fundManager run.1.2) 7%N = true
  /\ taggedBytes (storageManager run.1.2) 7%N = 62914560%N.
Proof.
  intros run.
  assert (Hacc : existsb isAcceptedReply run.2 = true) by (vm_compute; reflexivity).
  split; [reflexivity |]. split; [exact Hacc |].
  exact (X10_accepted_holds Ex.proposeOnline Ex.rich run.1.2 run.2
           RefFacts.Funds_spec RefFacts.Storage_spec eq_refl (run_parts run) Hacc).
Defined.

Lemma X11_witness :
  let msgs := [acceptDealChan Ex.importOffline; finishedDealChan Ex2.finishOffline] in
  let p' := (loop msgs Ex.tagging).1.2 in
  Forall (fun m => DealUuid (dealOf m) <> 7%N /\ isOfflineProposal m = false) msgs
  /\ fundTags (fundManager p') !! 7%N = Some (5%Z, 1%Z)
  /\ storageTags (storageManager p') !! 7%N = Some 62914560%N.
Proof.
  intros msgs p'.
  assert (Hall : Forall (fun m => DealUuid (dealOf m) <> 7%N
                                  /\ isOfflineProposal m = false) msgs).
  { repeat constructor; discriminate. }
  split; [exact Hall |].
  destruct (X11_other_deals msgs Ex.tagging 7%N RefFacts.Funds_spec
              RefFacts.Storage_spec Hall) as [Hf Hs].
  split; [etrans; [exact Hf | reflexivity] | etrans; [exact Hs | reflexivity]].
Defined.

End MoreSamples.

(** ** The status line *)

Module GqlFacts.

Import Gql.

(** X12.  [Message] panics in exactly one situation: the deal is at
    checkpoint [New], some bytes other than exactly 100 have been
    transferred, and the piece size of the proposal is zero; the percentage
    is then a division by zero.  In every other state of a deal it returns a
    string. *)
Theorem X12_Message_panics (dr : dealResolver) :
  (exists msg, Message dr = Panics msg) <->
  drCheckpoint dr = New /\ transferred dr <> 0%N /\ transferred dr <> 100%N
  /\ drPieceSize dr = 0%N.
Proof.
  unfold Message. split.
  - intros [msg H]. destruct (drCheckpoint dr); try discriminate H.
    + destruct (N.eqb_spec (transferred dr) 0); [discriminate H |].
      destruct (N.eqb_spec (transferred dr) 100); [discriminate H |].
      destruct (N.eqb_spec (drPieceSize dr) 0); [done | discriminate H].
    + repeat match type of H with context [if ?b then _ else _] => destruct b end;
        discriminate H.
  - intros (-> & H0 & H100 & ->).
    apply N.eqb_neq in H0, H100. rewrite H0, H100. cbn. eauto.
Qed.

(** X13.  While a deal is at checkpoint [New] and its transfer is under
    way (some bytes, not exactly 100, and no more than the piece size, have
    arrived; the numbers are such that [100 * transferred] fits 64 bits),
    the message is "Transferring p%" where [p] is the percentage of the
    piece transferred, rounded down; [p] is at most 100, and it is 100
    only when all of the piece has arrived. *)
Theorem X13_Message_percent (dr : dealResolver) :
  drCheckpoint dr = New ->
  transferred dr <> 0%N -> transferred dr <> 100%N ->
  (transferred dr <= drPieceSize dr)%N ->
  (100 * transferred dr < 2 ^ 64)%N ->
  exists pct,
    Message dr = Returns ("Transferring " +:+ pretty pct +:+ "%")
    /\ pct = (100 * transferred dr / drPieceSize dr)%N
    /\ (pct <= 100)%N
    /\ (pct = 100%N <-> transferred dr = drPieceSize dr).
Proof.
  intros Hc H0 H100 Hle Hov. unfold Message. rewrite Hc.
  apply N.eqb_neq in H0 as H0', H100 as H100'. rewrite H0', H100'.
  assert (Hpos : (0 < drPieceSize dr)%N) by lia.
  destruct (N.eqb_spec (drPieceSize dr) 0) as [Hz | Hz]; [lia |].
  unfold uint64. rewrite N.mod_small by exact Hov.
  eexists. split; [reflexivity |]. split; [reflexivity |].
  set (t := transferred dr) in *. set (s := drPieceSize dr) in *.
  assert (Hq : (100 * t / s <= 100)%N).
  { apply N.Div0.div_le_upper_bound. nia. }
  split; [exact Hq |]. split.
  - intros Heq.
    assert (100 * s <= 100 * t)%N; [| lia].
    rewrite <- Heq at 1. rewrite N.mul_comm. apply N.Div0.mul_div_le.
  - intros ->. by apply N.div_mul.
Qed.

(** X14.  At checkpoint [New] the message "Transfer Complete" is shown
    exactly when the number of bytes transferred is 100: the byte count is
    compared with the number 100, not with the piece size.  A piece of any
    other size, not zero, that has arrived in full is shown as
    "Transferring p%", where [p] is [100 * size] cut to 64 bits and divided
    by the size; [p] is 100 when [100 * size] fits 64 bits. *)
Theorem X14_Message_transfer_complete (dr : dealResolver) :
  drCheckpoint dr = New ->
  (Message dr = Returns "Transfer Complete" <-> transferred dr = 100%N)
  /\ (transferred dr = drPieceSize dr -> transferred dr <> 0%N ->
      transferred dr <> 100%N ->
      let pct := (uint64 (100 * drPieceSize dr) / drPieceSize dr)%N in
      Message dr = Returns ("Transferring " +:+ pretty pct +:+ "%")
      /\ ((100 * drPieceSize dr < 2 ^ 64)%N -> pct = 100%N)).
Proof.
  intros Hc. split.
  - unfold Message. rewrite Hc.
    destruct (N.eqb_spec (transferred dr) 0) as [H0 | H0].
    { split; [discriminate | intros H; rewrite H in H0; discriminate H0]. }
    destruct (N.eqb_spec (transferred dr) 100) as [H100 | H100]; [done |].
    destruct (N.eqb (drPieceSize dr) 0); (split; [| done]).
    + discriminate.
    + cbn. discriminate.
  - intros Heq H0 H100 pct. subst pct. split.
    + unfold Message. rewrite Hc.
      apply N.eqb_neq in H0 as H0', H100 as H100'. rewrite H0', H100'.
      rewrite <- Heq. by rewrite H0'.
    + intros Hov. unfold uint64. rewrite N.mod_small by exact Hov.
      apply N.div_mul. by rewrite <- Heq.
Qed.

Lemma X13_witness :
  drCheckpoint arriving = New
  /\ Message arriving = Returns "Transferring 25%".
Proof.
  split; [reflexivity |].
  destruct (X13_Message_percent arriving eq_refl) as (pct & Hm & -> & _);
    [discriminate | discriminate | by vm_compute | by vm_compute |].
  exact Hm.
Defined.

Lemma X14_witness :
  drCheckpoint landed = New
  /\ Message landed = Returns "Transferring 100%"
  /\ Message tiny = Returns "Transfer Complete".
Proof.
  split; [reflexivity |]. split.
  - destruct (X14_Message_transfer_complete landed eq_refl) as [_ H].
    destruct H as [Hm Hp]; [reflexivity | discriminate | discriminate |].
    rewrite Hm, Hp; [reflexivity | by vm_compute].
  - by apply (X14_Message_transfer_complete tiny eq_refl).
Defined.

End GqlFacts.

(** ** The deal command *)

Module DealCmdFacts.

Import DealCmd.

Ltac unfold_cmd :=
  unfold dealCmdAction, defer, clinode_Setup, lcli_GetGatewayAPI,
    call_closer, n_GetProvidedOrDefaultWallet, log_Debugw, cmd_GetAddrInfo,
    n_Host_Connect, uuid_New, n_Host_NewStream, s_Close, call_doRpc, fmt_Println,
    DealCmd.bind, DealCmd.ret; cbn.

Ltac unfold_steps :=
  unfold providerCollateralFor, startEpochFor, dealProposal,
    api_StateDealProviderCollateralBounds, api_ChainHead, n_Wallet_WalletSign,
    log_Debugw, DealCmd.bind, DealCmd.ret; cbn.

Lemma split_app {A : Type} (l rest pre s : list A) :
  rest = pre ++ s -> l ++ rest = (l ++ pre) ++ s.
Proof. intros ->. by rewrite app_assoc. Qed.

(** Find the prefix in front of a suffix that is written out, across the
    events of the steps. *)
Ltac split_steps :=
  first [ apply split_here
        | apply split_later; split_steps
        | apply split_app; split_steps ].

Section Facts.

Context {W : Type} `{WD : World W} `{FT : Formats}.

Lemma providerCollateralFor_events cctx size (w w' : W) r t e :
  providerCollateralFor cctx size w = (r, w', t) -> e ∈ t -> isStepEvent e = true.
Proof.
  unfold_steps. intros Hrun Hin. revert Hrun. run.
  all: intros ?; simplify_eq; elem_cases Hin; subst; reflexivity.
Qed.

Lemma startEpochFor_events cctx (w w' : W) r t e :
  startEpochFor cctx w = (r, w', t) -> e ∈ t -> isStepEvent e = true.
Proof.
  unfold_steps. intros Hrun Hin. revert Hrun. run.
  all: intros ?; simplify_eq; elem_cases Hin; subst; reflexivity.
Qed.

Lemma dealProposal_events a b c d e0 f g h i j (w w' : W) r t e :
  dealProposal a b c d e0 f g h i j w = (r, w', t) -> e ∈ t -> isStepEvent e = true.
Proof.
  unfold_steps. intros Hrun Hin. revert Hrun. run.
  all: intros ?; simplify_eq; elem_cases Hin; subst; reflexivity.
Qed.

End Facts.

(** Membership in a run of the command: case by case through the events
    written out, and by kind through the events of a step. *)
Ltac elem_steps H :=
  repeat first
    [ lazymatch type of H with
      | _ ∈ _ :: _ => apply elem_of_cons in H as [H | H]; [try discriminate H |]
      end
    | lazymatch type of H with
      | _ ∈ [] => apply elem_of_nil in H; destruct H
      end
    | lazymatch type of H with
      | _ ∈ ?t ++ _ =>
          apply elem_of_app in H as [H | H];
          [ first
              [ match goal with
                | Hr : providerCollateralFor _ _ _ = (_, _, t) |- _ =>
                    apply (providerCollateralFor_events _ _ _ _ _ _ _ Hr) in H
                | Hr : startEpochFor _ _ = (_, _, t) |- _ =>
                    apply (startEpochFor_events _ _ _ _ _ _ Hr) in H
                | Hr : dealProposal _ _ _ _ _ _ _ _ _ _ _ = (_, _, t) |- _ =>
                    apply (dealProposal_events _ _ _ _ _ _ _ _ _ _ _ _ _ _ _ Hr) in H
                end; try discriminate H
              | idtac ]
          | ]
      end ].

(** Show an event in a run of the command. *)
Ltac find_steps :=
  repeat first
    [ apply elem_of_cons; left; reflexivity
    | apply elem_of_cons; right
    | apply elem_of_app; right ].

Section Theorems.

Context {W : Type} `{WD : World W} `{FT : Formats}.

(** X15.  What the command opens it closes: on every path, whatever
    fails, the closer of the gateway connection runs exactly once, as the
    last thing the command does, if the connection was set up, and never
    otherwise; the stream to the provider is closed exactly once, right
    before that, if it was opened, and never otherwise. *)
Theorem X15_dealCmd_releases (cctx : Flags) (isOnline : bool) (w : W) :
  let tr := (dealCmdAction cctx isOnline w).2 in
  (EvGetGatewayAPI None ∈ tr -> exists pre, tr = pre ++ [EvCloser] /\ EvCloser ∉ pre)
  /\ (EvGetGatewayAPI None ∉ tr -> EvCloser ∉ tr)
  /\ (forall peer proto, EvNewStream peer proto None ∈ tr ->
        exists pre, tr = pre ++ [EvStreamClose; EvCloser] /\ EvStreamClose ∉ pre)
  /\ ((forall peer proto, EvNewStream peer proto None ∉ tr) -> EvStreamClose ∉ tr).
Proof.
  unfold_cmd. run.
  all: rewrite <- ?app_assoc; cbn.
  all: (split; [| split; [| split]]).
  all: try (intros Hin; elem_steps Hin; fail).
  all: try (intros ? ? Hin; elem_steps Hin; fail).
  all: try (intros _ Hin; elem_steps Hin; fail).
  all: try (intros Hno; exfalso; apply Hno; find_steps; fail).
  all: try (intros Hno; exfalso; eapply Hno; find_steps; fail).
  all: try (intros _; eexists; split; [split_steps | intros Hin; elem_steps Hin]; fail).
  all: try (intros ? ? _; eexists; split; [split_steps | intros Hin; elem_steps Hin]; fail).
Qed.


(** A run of the command either sends no proposal, and then fails, or it
    is the one run that gets as far as the RPC. *)
Lemma dealCmd_cases (cctx : Flags) (isOnline : bool) (w w' : W)
    (res : option error) (tr : list Ev) :
  dealCmdAction cctx isOnline w = (res, w', tr) ->
  ((forall req r, EvDoRpc req r ∉ tr)
   /\ is_Some res
   /\ (forall msg, EvPrintln msg ∉ tr)
   /\ (forall peer proto, EvNewStream peer proto None ∉ tr))
  \/ exists walletAddr maddr addrInfo u pieceCid rootCid transfer pc se proposal
            (w1 w2 w3 w4 : W) l l0 l1 r,
       let req := {| DealUUID := u; ClientDealProposal_ := proposal;
                     DealDataRoot := rootCid; IsOffline := negb isOnline;
                     Transfer_ := transfer |} in
       tr = [EvSetup (flagRepo cctx) None; EvGetGatewayAPI None;
             EvGetProvidedOrDefaultWallet (flagWallet cctx) (inl walletAddr);
             EvDebugw "selected wallet" [LStr "wallet"; LStr walletAddr];
             EvGetAddrInfo maddr (inl addrInfo);
             EvDebugw "found storage provider"
               [LStr "id"; LStr (aiID addrInfo); LStr "multiaddrs";
                LStrs (aiAddrs addrInfo); LStr "addr"; LStr maddr];
             EvConnect addrInfo None; EvUuidNew u]
            ++ l ++ l0 ++ l1
            ++ [EvDebugw "about to submit deal proposal"
                  [LStr "uuid"; LStr (uuidToString u)];
                EvNewStream (aiID addrInfo) DealProtocolv120 None;
                EvDoRpc req r]
            ++ match r with
               | inl resp =>
                   if Accepted resp
                   then [EvPrintln (sentMessage cctx isOnline u maddr walletAddr
                                      rootCid proposal)]
                   else []
               | inr _ => []
               end
            ++ [EvStreamClose; EvCloser]
       /\ res = match r with
                | inr err => Some (ErrorWrap "send proposal rpc" err)
                | inl resp =>
                    if Accepted resp then None
                    else Some (ErrorNew ("deal proposal rejected: " +:+ Message resp))
                end
       /\ addressNewFromString (flagProvider cctx) = inl maddr
       /\ cidParse (flagCommp cctx) = inl pieceCid
       /\ cidParse (flagPayloadCid cctx) = inl rootCid
       /\ flagPieceSize cctx <> 0%N
       /\ flagCarSize cctx <> 0%N
       /\ transferFor cctx isOnline (flagCarSize cctx) = inl transfer
       /\ providerCollateralFor cctx (flagPieceSize cctx) w1 = (inl pc, w2, l)
       /\ startEpochFor cctx w2 = (inl se, w3, l0)
       /\ dealProposal walletAddr rootCid (flagPieceSize cctx) pieceCid maddr se
            (flagDuration cctx) (flagVerified cctx) pc (flagStoragePricePerEpoch cctx) w3
          = (inl proposal, w4, l1).
Proof.
  unfold_cmd. run.
  all: rewrite <- ?app_assoc; cbn.
  all: intros ?; simplify_eq.
  all: repeat match goal with
              | H : negb _ = true |- _ => apply negb_true_iff in H
              | H : negb _ = false |- _ => apply negb_false_iff in H
              end.
  all: first
    [ left; split; [intros ? ? Hin; elem_steps Hin |];
      split; [eauto |];
      split; [intros ? Hin; elem_steps Hin | intros ? ? Hin; elem_steps Hin]
    | right; do 17 eexists;
      match goal with H : doRpc _ _ = (?r, _) |- _ => exists r end;
      split; [cbn; use_tests; reflexivity |];
      split; [cbn; use_tests; reflexivity |];
      repeat (split; [first [ eassumption | reflexivity | by apply N.eqb_neq ] |]);
      eassumption ].
Qed.

Lemma dealProposal_inl clientAddr rootCid pieceSize pieceCid minerAddr startEpoch
    duration verified providerCollateral storagePricePerEpoch
    (w w' : W) (cdp : ClientDealProposal) (t : list Ev) :
  dealProposal clientAddr rootCid pieceSize pieceCid minerAddr startEpoch duration
    verified providerCollateral storagePricePerEpoch w = (inl cdp, w', t) ->
  Proposal cdp =
    {| PieceCID := pieceCid; PieceSize := pieceSize; VerifiedDeal := verified;
       Client := clientAddr; ProviderAddr := minerAddr; Label := rootCid;
       StartEpoch := startEpoch; EndEpoch := int64 (startEpoch + duration);
       StoragePricePerEpoch := storagePricePerEpoch;
       ProviderCollateral := providerCollateral; ClientCollateral := 0%Z |}
  /\ exists buf,
       cborDump (Proposal cdp) = inl buf
       /\ t = [EvWalletSign clientAddr buf (inl (ClientSignature cdp))].
Proof.
  unfold_steps. run. all: intros ?; simplify_eq. cbn. split; [reflexivity |].
  eexists. split; [eassumption | reflexivity].
Qed.

Lemma providerCollateralFor_inl cctx size (w w' : W) pc t :
  providerCollateralFor cctx size w = (inl pc, w', t) ->
  match flagProviderCollateral cctx with
  | Some v => pc = v /\ t = []
  | None =>
      exists bounds,
        t = [EvCollateralBounds size (flagVerified cctx) (inl bounds)]
        /\ pc = boundsMin bounds
  end.
Proof.
  unfold_steps. run. all: intros ?; simplify_eq; eauto.
Qed.

Lemma startEpochFor_inl cctx (w w' : W) se t :
  startEpochFor cctx w = (inl se, w', t) ->
  match flagStartEpoch cctx with
  | Some v => se = v /\ t = []
  | None =>
      exists head,
        t = [EvChainHead (inl head);
             EvDebugw "current block height" [LStr "number"; LEpoch head]]
        /\ se = int64 (head + 5760)
  end.
Proof.
  unfold_steps. run. all: intros ?; simplify_eq; eauto.
Qed.

(** X16.  What is sent.  If the command sends a proposal at all, both sizes
    given on the command line are positive and every argument parsed; the
    proposal carries the UUID the command drew, the payload CID as data
    root and as label, the piece CID and piece size of the flags, the
    wallet as client and the parsed provider address as provider, an end
    epoch that is the start epoch plus the duration (in 64-bit
    arithmetic), no client collateral, and [IsOffline] exactly when the
    command is the offline one; its signature is what the wallet answered
    for the CBOR encoding of exactly that proposal; and it is the only
    proposal the run sends. *)
Theorem X16_dealCmd_proposal (cctx : Flags) (isOnline : bool) (w w' : W)
    (res : option error) (tr : list Ev) (req : DealParams) (r : DealResponse + error) :
  dealCmdAction cctx isOnline w = (res, w', tr) ->
  EvDoRpc req r ∈ tr ->
  let prop := Proposal (ClientDealProposal_ req) in
  flagPieceSize cctx <> 0%N /\ flagCarSize cctx <> 0%N
  /\ cidParse (flagCommp cctx) = inl (PieceCID prop)
  /\ cidParse (flagPayloadCid cctx) = inl (DealDataRoot req)
  /\ addressNewFromString (flagProvider cctx) = inl (ProviderAddr prop)
  /\ EvGetProvidedOrDefaultWallet (flagWallet cctx) (inl (Client prop)) ∈ tr
  /\ EvUuidNew (DealUUID req) ∈ tr
  /\ IsOffline req = negb isOnline
  /\ transferFor cctx isOnline (flagCarSize cctx) = inl (Transfer_ req)
  /\ PieceSize prop = flagPieceSize cctx
  /\ VerifiedDeal prop = flagVerified cctx
  /\ Label prop = DealDataRoot req
  /\ EndEpoch prop = int64 (StartEpoch prop + flagDuration cctx)
  /\ StoragePricePerEpoch prop = flagStoragePricePerEpoch cctx
  /\ ClientCollateral prop = 0%Z
  /\ (exists buf,
        cborDump prop = inl buf
        /\ EvWalletSign (Client prop) buf
             (inl (ClientSignature (ClientDealProposal_ req))) ∈ tr)
  /\ (forall req' r', EvDoRpc req' r' ∈ tr -> req' = req /\ r' = r).
Proof.
  intros Hrun Hin prop.
  destruct (dealCmd_cases _ _ _ _ _ _ Hrun) as [(Hno & _) | Hsent].
  { destruct (Hno _ _ Hin). }
  destruct Hsent as (walletAddr & maddr & addrInfo & u & pieceCid & rootCid & transfer
                     & pc & se & proposal & w1 & w2 & w3 & w4 & l & l0 & l1 & r0
                     & Htr & Hres & Hmaddr & Hpiece & Hroot & Hps & Hcs & Htransfer
                     & Hpc & Hse & Hprop).
  cbn zeta in Htr.
  destruct (dealProposal_inl _ _ _ _ _ _ _ _ _ _ _ _ _ _ Hprop) as (Hfields & buf & Hbuf & Hl1).
  assert (Hone : forall req' r', EvDoRpc req' r' ∈ tr ->
            req' = {| DealUUID := u; ClientDealProposal_ := proposal;
                      DealDataRoot := rootCid; IsOffline := negb isOnline;
                      Transfer_ := transfer |} /\ r' = r0).
  { intros req' r' Hi. rewrite Htr in Hi. cbn in Hi.
    elem_steps Hi; try by simplify_eq.
    destruct r0 as [resp | err]; [destruct (Accepted resp) |]; cbn in Hi; elem_steps Hi. }
  destruct (Hone _ _ Hin) as [-> ->]. subst prop. cbn. rewrite Hfields. cbn.
  repeat (split; [first [ done | rewrite Htr; solve [find_steps] ] |]).
  split.
  - exists buf. split; [by rewrite <- Hfields |].
    rewrite Htr, Hl1. cbn. find_steps.
  - exact Hone.
Qed.

(** X17.  The defaults.  In a proposal the command sends, the start epoch is the
    [start-epoch] flag if it is set, and then the chain head is not asked
    for; otherwise it is the height of the chain head plus 5760 epochs.  The
    provider collateral is the [provider-collateral] flag if it is set, and
    then the bounds are not asked for; otherwise it is the minimum of the
    bounds the chain gives for the piece size and the [verified] flag. *)
Theorem X17_dealCmd_defaults (cctx : Flags) (isOnline : bool) (w w' : W)
    (res : option error) (tr : list Ev) (req : DealParams) (r : DealResponse + error) :
  dealCmdAction cctx isOnline w = (res, w', tr) ->
  EvDoRpc req r ∈ tr ->
  let prop := Proposal (ClientDealProposal_ req) in
  match flagStartEpoch cctx with
  | Some v => StartEpoch prop = v /\ (forall h, EvChainHead h ∉ tr)
  | None =>
      exists head, EvChainHead (inl head) ∈ tr /\ StartEpoch prop = int64 (head + 5760)
  end
  /\ match flagProviderCollateral cctx with
     | Some v =>
         ProviderCollateral prop = v /\ (forall s b x, EvCollateralBounds s b x ∉ tr)
     | None =>
         exists bounds,
           EvCollateralBounds (flagPieceSize cctx) (flagVerified cctx) (inl bounds) ∈ tr
           /\ ProviderCollateral prop = boundsMin bounds
     end.
Proof.
  intros Hrun Hin prop.
  destruct (dealCmd_cases _ _ _ _ _ _ Hrun) as [(Hno & _) | Hsent].
  { destruct (Hno _ _ Hin). }
  destruct Hsent as (walletAddr & maddr & addrInfo & u & pieceCid & rootCid & transfer
                     & pc & se & proposal & w1 & w2 & w3 & w4 & l & l0 & l1 & r0
                     & Htr & Hres & Hmaddr & Hpiece & Hroot & Hps & Hcs & Htransfer
                     & Hpc & Hse & Hprop).
  cbn zeta in Htr.
  destruct (dealProposal_inl _ _ _ _ _ _ _ _ _ _ _ _ _ _ Hprop) as (Hfields & buf & Hbuf & Hl1).
  pose proof (providerCollateralFor_inl _ _ _ _ _ _ Hpc) as Hpc'.
  pose proof (startEpochFor_inl _ _ _ _ _ Hse) as Hse'.
  assert (Hreq : req = {| DealUUID := u; ClientDealProposal_ := proposal;
                          DealDataRoot := rootCid; IsOffline := negb isOnline;
                          Transfer_ := transfer |}).
  { rewrite Htr in Hin. cbn in Hin. elem_steps Hin; try by simplify_eq.
    destruct r0 as [resp | err]; [destruct (Accepted resp) |]; cbn in Hin; elem_steps Hin. }
  subst prop req. cbn. rewrite Hfields. cbn. clear Hpc Hse Hprop.
  rewrite Hl1 in Htr. clear Hl1.
  assert (Htail : forall e, isStepEvent e = true ->
            e ∈ match r0 with
                | inl resp =>
                    if Accepted resp
                    then [EvPrintln (sentMessage cctx isOnline u maddr walletAddr
                                       rootCid proposal)]
                    else []
                | inr _ => []
                end ++ [EvStreamClose; EvCloser] -> False).
  { intros e He Hi.
    destruct r0 as [resp | err]; [destruct (Accepted resp) |]; cbn in Hi;
      elem_cases Hi; subst; discriminate He. }
  split.
  - destruct (flagStartEpoch cctx) as [v |].
    + destruct Hse' as [-> ->]. split; [reflexivity |].
      intros h Hi. rewrite Htr in Hi.
      destruct (flagProviderCollateral cctx).
      * destruct Hpc' as [_ ->]. cbn in Hi. elem_cases Hi.
        by apply Htail in Hi.
      * destruct Hpc' as (b & -> & _). cbn in Hi. elem_cases Hi.
        by apply Htail in Hi.
    + destruct Hse' as (head & -> & ->). exists head. split; [| reflexivity].
      rewrite Htr. cbn. find_steps.
  - destruct (flagProviderCollateral cctx) as [v |].
    + destruct Hpc' as [-> ->]. split; [reflexivity |].
      intros s b x Hi. rewrite Htr in Hi.
      destruct (flagStartEpoch cctx).
      * destruct Hse' as [_ ->]. cbn in Hi. elem_cases Hi.
        by apply Htail in Hi.
      * destruct Hse' as (h & -> & _). cbn in Hi. elem_cases Hi.
        by apply Htail in Hi.
    + destruct Hpc' as (bounds & -> & ->). exists bounds. split; [| reflexivity].
      rewrite Htr. cbn. find_steps.
Qed.

(** X18.  The outcome.  The command succeeds exactly when it sent a proposal and
    the provider answered [Accepted]; only then does it print, once, the
    summary of the deal.  When the provider answers that the proposal is
    rejected the command fails with "deal proposal rejected: " followed by
    the provider's message; when the RPC itself fails the command fails
    with that error, wrapped. *)
Theorem X18_dealCmd_outcome (cctx : Flags) (isOnline : bool) (w w' : W)
    (res : option error) (tr : list Ev) :
  dealCmdAction cctx isOnline w = (res, w', tr) ->
  (res = None <-> exists req resp, EvDoRpc req (inl resp) ∈ tr /\ Accepted resp = true)
  /\ (forall msg, EvPrintln msg ∈ tr ->
        res = None
        /\ exists pre, tr = pre ++ [EvPrintln msg; EvStreamClose; EvCloser]
                       /\ forall msg', EvPrintln msg' ∉ pre)
  /\ (forall req resp, EvDoRpc req (inl resp) ∈ tr -> Accepted resp = false ->
        res = Some (ErrorNew ("deal proposal rejected: " +:+ Message resp)))
  /\ (forall req err, EvDoRpc req (inr err) ∈ tr ->
        res = Some (ErrorWrap "send proposal rpc" err)).
Proof.
  intros Hrun.
  destruct (dealCmd_cases _ _ _ _ _ _ Hrun) as [(Hno & Hres & Hnp & _) | Hsent].
  { split; [split |].
    - intros ->. by destruct Hres.
    - intros (req & resp & Hin & _). destruct (Hno _ _ Hin).
    - split; [intros msg Hin; destruct (Hnp _ Hin) |].
      split; intros ? ? Hin; destruct (Hno _ _ Hin). }
  destruct Hsent as (walletAddr & maddr & addrInfo & u & pieceCid & rootCid & transfer
                     & pc & se & proposal & w1 & w2 & w3 & w4 & l & l0 & l1 & r0
                     & Htr & Hres & _ & _ & _ & _ & _ & _ & Hpc & Hse & Hprop).
  cbn zeta in Htr.
  assert (Hone : forall req' r', EvDoRpc req' r' ∈ tr -> r' = r0).
  { intros req' r' Hi. rewrite Htr in Hi. cbn in Hi.
    elem_steps Hi; try by simplify_eq.
    destruct r0 as [resp | err]; [destruct (Accepted resp) |]; cbn in Hi; elem_steps Hi. }
  assert (Hsent : exists req, EvDoRpc req r0 ∈ tr).
  { eexists. rewrite Htr. cbn. find_steps. }
  split; [split |]; [| | split; [| split]].
  - intros ->. destruct Hsent as [req Hin].
    destruct r0 as [resp | err]; [| discriminate Hres].
    exists req, resp. split; [exact Hin |]. by destruct (Accepted resp).
  - intros (req & resp & Hin & Hacc). apply Hone in Hin as <-. by rewrite Hacc in Hres.
  - intros msg Hin. rewrite Htr in Hin |- *. cbn in Hin |- *.
    elem_steps Hin.
    destruct r0 as [resp | err]; [destruct (Accepted resp) |]; cbn in Hin |- *;
      elem_steps Hin.
    simplify_eq. split; [reflexivity |].
    eexists. split; [split_steps |]. intros msg' Hi. elem_steps Hi.
  - intros req resp Hin Hacc. apply Hone in Hin as <-. by rewrite Hacc in Hres.
  - intros req err Hin. by apply Hone in Hin as <-.
Qed.


End Theorems.

(** *** The HTTP headers *)

Section Headers.

Lemma Split_not_nil (s : string) (sep : ascii) : Split s sep <> [].
Proof.
  destruct s as [| c s]; cbn; [discriminate |].
  destruct (Ascii.eqb c sep); [discriminate |]. by destruct (Split s sep).
Qed.

Lemma Split_length (s : string) (sep : ascii) :
  length (Split s sep) = S (countByte sep s).
Proof.
  unfold countByte. induction s as [| c s IH]; cbn; [reflexivity |].
  destruct (Ascii.eqb_spec c sep) as [-> | Hne].
  - cbn. rewrite IH. by destruct (ascii_dec sep sep).
  - destruct (ascii_dec c sep); [done |].
    pose proof (Split_not_nil s sep). destruct (Split s sep); [done |]. exact IH.
Qed.

Lemma Split_one (s v : string) (sep : ascii) :
  Split s sep = [v] -> s = v /\ countByte sep s = 0.
Proof.
  intros Hs. pose proof (Split_length s sep) as Hl. rewrite Hs in Hl. cbn in Hl.
  split; [| lia]. assert (Hc : countByte sep s = 0) by lia. clear Hl.
  revert v Hs Hc. unfold countByte.
  induction s as [| c s IH]; cbn; intros v Hs Hc; [by simplify_eq |].
  destruct (Ascii.eqb_spec c sep) as [-> | Hne].
  - by destruct (ascii_dec sep sep).
  - destruct (ascii_dec c sep); [done |].
    pose proof (Split_not_nil s sep) as Hnn.
    destruct (Split s sep) as [| w ws] eqn:E; [done |].
    injection Hs as <- ->. f_equal. by apply IH.
Qed.

Lemma Split_none (s : string) (sep : ascii) :
  countByte sep s = 0 -> Split s sep = [s].
Proof.
  unfold countByte. induction s as [| c s IH]; cbn; [reflexivity |].
  destruct (Ascii.eqb_spec c sep) as [-> | Hne].
  - by destruct (ascii_dec sep sep).
  - destruct (ascii_dec c sep); [done |]. intros H0. by rewrite (IH H0).
Qed.

(** X20.  A header is taken when it has exactly one ["="], and then it is split
    into what stands before the ["="] and what stands after it: the key and
    the value are the two parts of the header, and neither holds an ["="].
    So a value with an ["="] in it, such as a base64 token with padding,
    cannot be passed. *)
Theorem X20_header_split (header k v : string) :
  Split header "=" = [k; v] <->
  header = k +:+ "=" +:+ v /\ countByte "=" k = 0 /\ countByte "=" v = 0.
Proof.
  split.
  - revert k. induction header as [| c h IH]; cbn; intros k Hs; [discriminate |].
    destruct (Ascii.eqb_spec c "=") as [-> | Hne].
    + injection Hs as <- Hs. destruct (Split_one _ _ _ Hs) as [-> Hv]. by repeat split.
    + pose proof (Split_not_nil h "=") as Hnn.
      destruct (Split h "=") as [| w ws] eqn:E; [done |].
      injection Hs as <- ->.
      destruct (IH w eq_refl) as (-> & Hw & Hv).
      repeat split; [| done]. unfold countByte in *. cbn.
      by destruct (ascii_dec c "=").
  - intros (-> & Hk & Hv). revert Hk. unfold countByte.
    induction k as [| c k IH].
    + intros _. change ("" +:+ "=" +:+ v) with (String "=" v).
      cbn. by rewrite (Split_none _ _ Hv).
    + change (String c k +:+ "=" +:+ v) with (String c (k +:+ "=" +:+ v)). cbn.
      destruct (ascii_dec c "=") as [-> | Hne]; [done |]. intros Hk.
      destruct (Ascii.eqb_spec c "="); [done |]. by rewrite (IH Hk).
Qed.

Lemma header_taken (header : string) :
  (exists k v, Split header "=" = [k; v]) <-> countByte "=" header = 1.
Proof.
  split.
  - intros (k & v & Hs). pose proof (Split_length header "=") as Hl.
    rewrite Hs in Hl. cbn in Hl. lia.
  - intros Hc. pose proof (Split_length header "=") as Hl. rewrite Hc in Hl.
    destruct (Split header "=") as [| k [| v [| ? ?]]]; try discriminate Hl. eauto.
Qed.

(** X21.  The first malformed header stops the loop: the headers fail to parse
    exactly when one of them does not have exactly one ["="], and the error
    names the first such header. *)
Theorem X21_parseHeaders_malformed (headers : list string) (m0 : gmap string string)
    (e : error) :
  parseHeaders headers m0 = inr e <->
  exists pre header post,
    headers = pre ++ header :: post
    /\ Forall (fun h => countByte "=" h = 1) pre
    /\ countByte "=" header <> 1
    /\ e = ErrorNew ("malformed http header: " +:+ header).
Proof.
  revert m0. induction headers as [| h rest IH]; intros m0; cbn.
  - split; [discriminate |]. intros (pre & header & post & Heq & _). by destruct pre.
  - destruct (Split h "=") as [| k [| v [| x xs]]] eqn:E.
    1, 2, 4:
      (assert (Hbad : countByte "=" h <> 1)
         by (intros Hc; apply header_taken in Hc as (? & ? & Hc); congruence);
       split;
       [ intros [= <-]; exists [], h, rest; by repeat split
       | intros (pre & header & post & Heq & Hpre & Hh & ->);
         destruct pre as [| p pre]; cbn in Heq; simplify_eq; [done |];
         apply Forall_cons in Hpre as [Hp _]; done ]).
    assert (Hok : countByte "=" h = 1) by (apply header_taken; eauto).
    rewrite IH. split.
    + intros (pre & header & post & -> & Hpre & Hh & ->).
      exists (h :: pre), header, post. repeat split; [by apply Forall_cons | done].
    + intros (pre & header & post & Heq & Hpre & Hh & ->).
      destruct pre as [| p pre]; cbn in Heq; simplify_eq.
      apply Forall_cons in Hpre as [_ Hpre]. by exists pre, header, post.
Qed.

(** X22.  The last header wins: when the headers parse, every one of them has
    exactly one ["="], and a key maps to the value of the last header
    with that key; the keys no header names keep what the map held. *)
Theorem X22_parseHeaders_last (headers : list string) (m0 m : gmap string string) :
  parseHeaders headers m0 = inl m ->
  Forall (fun h => countByte "=" h = 1) headers
  /\ forall key, m !! key = match lastValue key headers with
                            | Some v => Some v
                            | None => m0 !! key
                            end.
Proof.
  revert m0. induction headers as [| h rest IH]; intros m0; cbn.
  - intros [= <-]. by split.
  - destruct (Split h "=") as [| k [| v [| x xs]]] eqn:E; try discriminate.
    intros Hp. destruct (IH _ Hp) as [Hall Hlook]. split.
    + apply Forall_cons. split; [apply header_taken; eauto | exact Hall].
    + intros key. rewrite Hlook. destruct (lastValue key rest); [reflexivity |].
      destruct (String.eqb_spec k key) as [-> | Hne].
      * by rewrite lookup_insert_eq.
      * by rewrite lookup_insert_ne.
Qed.

End Headers.

(** *** On the sample world *)

Module CmdSamples.

Import CmdRef.

Lemma cmd_run_parts {A B : Type} (x : A * B * list Ev) : x = (x.1.1, x.1.2, x.2).
Proof. by destruct x as [[? ?] ?]. Qed.

(** Show an event of a run that is computed. *)
Ltac in_cmd_run :=
  apply list_elem_of_In; vm_compute; repeat first [ left; reflexivity | right ].

(** The proposal a run sends and the answer it gets. *)
Ltac sent_in run :=
  let t := eval vm_compute in (snd run) in
  lazymatch t with
  | context [EvDoRpc ?a ?b] => exists a, b; in_cmd_run
  end.

Lemma X16_witness :
  let run := dealCmdAction flags true accepting in
  exists req r,
    EvDoRpc req r ∈ run.2
    /\ IsOffline req = false
    /\ Label (Proposal (ClientDealProposal_ req)) = "bafyroot"
    /\ EndEpoch (Proposal (ClientDealProposal_ req))
       = int64 (StartEpoch (Proposal (ClientDealProposal_ req)) + 518400).
Proof.
  intros run.
  assert (Hrun : dealCmdAction flags true accepting = (run.1.1, run.1.2, run.2))
    by exact (cmd_run_parts run).
  assert (Hex : exists req r, EvDoRpc req r ∈ run.2) by sent_in run.
  destruct Hex as (req & r & Hin). exists req, r. split; [exact Hin |].
  destruct (X16_dealCmd_proposal flags true accepting run.1.2 run.1.1 run.2 req r
              Hrun Hin)
    as (_ & _ & _ & Hroot & _ & _ & _ & Hoff & _ & _ & _ & Hlabel & Hend & _).
  split; [exact Hoff |]. split; [| exact Hend].
  rewrite Hlabel.
  assert (Hr : inl "bafyroot" = inl (DealDataRoot req) :> Cid + error) by exact Hroot.
  by injection Hr as <-.
Defined.

Lemma X17_witness :
  let run := dealCmdAction flags true accepting in
  exists req r,
    EvDoRpc req r ∈ run.2
    /\ StartEpoch (Proposal (ClientDealProposal_ req)) = 6760%Z
    /\ ProviderCollateral (Proposal (ClientDealProposal_ req)) = 10%Z.
Proof.
  intros run.
  assert (Hrun : dealCmdAction flags true accepting = (run.1.1, run.1.2, run.2))
    by exact (cmd_run_parts run).
  assert (Hex : exists req r, EvDoRpc req r ∈ run.2) by sent_in run.
  destruct Hex as (req & r & Hin). exists req, r. split; [exact Hin |].
  destruct (X17_dealCmd_defaults flags true accepting run.1.2 run.1.1 run.2 req r
              Hrun Hin) as [Hse Hpc].
  cbn in Hse, Hpc.
  destruct Hse as (head & Hhead & ->). destruct Hpc as (bounds & Hb & ->).
  apply list_elem_of_In in Hhead, Hb. vm_compute in Hhead, Hb.
  split.
  - repeat (destruct Hhead as [Hhead | Hhead]; [try discriminate Hhead |]);
      [by injection Hhead as <- | destruct Hhead].
  - repeat (destruct Hb as [Hb | Hb]; [try discriminate Hb |]);
      [by injection Hb as <- | destruct Hb].
Defined.

Lemma X18_witness :
  let run := dealCmdAction flags true rejecting in
  run.1.1 = Some (ErrorNew "deal proposal rejected: deal filter rejected deal")
  /\ forall msg, EvPrintln msg ∉ run.2.
Proof.
  intros run.
  assert (Hrun : dealCmdAction flags true rejecting = (run.1.1, run.1.2, run.2))
    by exact (cmd_run_parts run).
  destruct (X18_dealCmd_outcome flags true rejecting run.1.2 run.1.1 run.2
              Hrun) as (_ & Hprint & Hrej & _).
  assert (Hres : run.1.1
                 = Some (ErrorNew "deal proposal rejected: deal filter rejected deal")).
  { assert (Hex : exists req r,
              EvDoRpc req r ∈ run.2
              /\ r = inl {| Accepted := false; Message := "deal filter rejected deal" |}).
    { let t := eval vm_compute in (snd run) in
      lazymatch t with
      | context [EvDoRpc ?a ?b] => exists a, b; split; [in_cmd_run | reflexivity]
      end. }
    destruct Hex as (req & r & Hin & ->). exact (Hrej _ _ Hin eq_refl). }
  split; [exact Hres |].
  intros msg Hin. destruct (Hprint msg Hin) as [Hnone _]. rewrite Hres in Hnone.
  discriminate Hnone.
Defined.


Lemma X22_witness :
  let headers := ["X-Trace=1"; "Authorization=Bearer abc"; "X-Trace=2"] in
  exists m,
    parseHeaders headers ∅ = inl m
    /\ Forall (fun h => countByte "=" h = 1) headers
    /\ forall key, m !! key = lastValue key headers.
Proof.
  intros headers.
  destruct (parseHeaders headers ∅) as [m | e] eqn:E;
    [| vm_compute in E; discriminate E].
  exists m. split; [reflexivity |].
  destruct (X22_parseHeaders_last headers ∅ m E) as [Hall Hlast].
  split; [exact Hall |].
  intros key. rewrite Hlast, lookup_empty. by destruct (lastValue key headers).
Defined.

End CmdSamples.

End DealCmdFacts.

(** ** The startup commands of the development network *)

Module DevnetFacts.

Import Devnet.

Section Facts.

Context {W : Type} `{SY : System W}.

Lemma started_app (a b : list Ev) : started (a ++ b) = started a ++ started b.
Proof. unfold started. apply omap_app. Qed.

(** The loop starts the commands in the order of the list; it stops at an
    empty command, which it cannot start, and after a command that failed
    while the context was live; otherwise it starts them all. *)
Lemma runLoop_started (name logFile homeDir : string) (commands : list (list string))
    (w : W) :
  let '(e, w', t) := runLoop name logFile homeDir commands w in
  exists n,
    started t = take n commands
    /\ (forall c, EvClose c ∉ t)
    /\ match e with
       | Exited => False
       | Panicked _ =>
           commands !! n = Some []
           /\ failedLive t = false
       | Returned =>
           if failedLive t
           then exists pre args env err,
                  t = pre ++ [EvRun args env logFile (Some err); EvCtxErr None;
                              EvErrorw "check logfile for details" err logFile]
                  /\ failedLive pre = false
           else n = length commands
       end.
Proof.
  revert w. induction commands as [| cmdArgs rest IH]; intros w; cbn.
  - exists 0. repeat split. intros c Hin. by apply elem_of_nil in Hin.
  - destruct cmdArgs as [| c0 args].
    { exists 0. repeat split. intros c Hin.
      apply elem_of_cons in Hin as [Hin | Hin]; [done | by apply elem_of_nil in Hin]. }
    destruct (cmdRun _ _ _ w) as [[err |] w1].
    + destruct (ctxErr w1) as [[cerr |] w2].
      * specialize (IH w2). destruct (runLoop _ _ _ rest w2) as [[e w3] t].
        destruct IH as (n & Hst & Hcl & He). exists (S n). unfold started in *. cbn. rewrite Hst.
        split; [reflexivity |]. split.
        { intros c Hin. repeat (apply elem_of_cons in Hin as [Hin | Hin]; [done |]).
          by apply Hcl in Hin. }
        destruct e as [| | msg]; [| done | exact He].
        destruct (failedLive t); [| by rewrite He].
        destruct He as (pre & a & env & er & -> & Hpre).
        eexists (_ :: _ :: _ :: pre), a, env, er. split; [reflexivity | exact Hpre].
      * exists 1. cbn. rewrite take_0. split; [reflexivity |]. split.
        { intros c Hin. repeat (apply elem_of_cons in Hin as [Hin | Hin]; [done |]).
          by apply elem_of_nil in Hin. }
        eexists [_], _, _, _. split; reflexivity.
    + specialize (IH w1). destruct (runLoop _ _ _ rest w1) as [[e w2] t].
      destruct IH as (n & Hst & Hcl & He). exists (S n). unfold started in *. cbn. rewrite Hst.
      split; [reflexivity |]. split.
      { intros c Hin. repeat (apply elem_of_cons in Hin as [Hin | Hin]; [done |]).
        by apply Hcl in Hin. }
      destruct e as [| | msg]; [| done | exact He].
      destruct (failedLive t); [| by rewrite He].
      destruct He as (pre & a & env & er & -> & Hpre).
      eexists (_ :: _ :: pre), a, env, er. split; [reflexivity | exact Hpre].
Qed.

(** X23.  The commands are started in the order of the list and nothing
    is started out of turn: the commands a run starts are the first [n] of
    the list.  If the log file cannot be created the process exits with
    none started.  Otherwise the log file is closed once, at the very end,
    and the run stops early only in two ways: at an empty command, which
    panics, or after a command that failed while the context was live, which
    is logged and is the last one started.  A command that fails after the
    context was cancelled does not stop the run: the commands after it are
    still started. *)
Theorem X23_runCmdsWithLog_started (name : string) (commands : list (list string))
    (homeDir : string) (w : W) :
  let logFile := name +:+ ".log" in
  let '(e, w', tr) := runCmdsWithLog name commands homeDir w in
  exists n,
    started tr = take n commands
    /\ match e with
       | Exited =>
           (* the log file could not be created *)
           n = 0 /\ exists err, tr = [EvCreate logFile (Some err); EvFatal err]
       | Panicked _ =>
           (* an empty command *)
           commands !! n = Some []
           /\ exists body, tr = EvCreate logFile None :: body ++ [EvClose logFile]
                           /\ forall c, EvClose c ∉ body
       | Returned =>
           exists body,
             tr = EvCreate logFile None :: body ++ [EvClose logFile]
             /\ (forall c, EvClose c ∉ body)
             /\ if failedLive body
                then exists pre args env err,
                       body = pre ++ [EvRun args env logFile (Some err); EvCtxErr None;
                                      EvErrorw "check logfile for details" err logFile]
                       /\ failedLive pre = false
                else n = length commands
       end.
Proof.
  intros logFile. unfold runCmdsWithLog. fold logFile.
  destruct (osCreate logFile w) as [[err |] w1].
  - exists 0. rewrite take_0. split; [reflexivity |]. split; [reflexivity | by exists err].
  - pose proof (runLoop_started name logFile homeDir commands w1) as Hl.
    destruct (runLoop name logFile homeDir commands w1) as [[e w2] t].
    destruct Hl as (n & Hst & Hcl & He). exists n. split.
    { cbn. rewrite started_app, Hst. cbn. by rewrite app_nil_r. }
    destruct e as [| | msg]; [| done |].
    + by exists t.
    + destruct He as [He _]. split; [exact He |]. by exists t.
Qed.

End Facts.
End DevnetFacts.

(** ** Following a deal *)

Module GqlSubFacts.

Import GqlSub.

Section Facts.

Context {W : Type} `{SR : Surroundings W}.

Lemma delivered_app (a b : list Ev) :
  delivered (a ++ b) = delivered a ++ delivered b.
Proof. unfold delivered. apply omap_app. Qed.

(** The goroutine: what it sends is a prefix of the updates it met; while
    it has not returned it has sent them all and has not closed the
    subscription; once it has returned, closing the subscription was the
    last thing it did, and it did it once. *)
Lemma pipe_facts (steps : list Step) :
  (delivered (pipe steps).1) `prefix_of` (updates steps)
  /\ ((pipe steps).2 = false ->
      delivered (pipe steps).1 = updates steps /\ (EvSubClose ∉ (pipe steps).1))
  /\ ((pipe steps).2 = true ->
      exists t, (pipe steps).1 = t ++ [EvSubClose] /\ (EvSubClose ∉ t)
                /\ (EvGo ∉ t)).
Proof.
  induction steps as [| s rest (IH1 & IH2 & IH3)]; cbn.
  - split; [done |]. split; [| done]. intros _. split; [done |].
    apply not_elem_of_nil.
  - destruct s as [| di [|]]; cbn.
    + split; [apply prefix_nil |]. split; [done |]. intros _.
      exists [EvSelectDone]. split; [done |].
      split; intros Hi; apply list_elem_of_singleton in Hi; discriminate Hi.
    + destruct (pipe rest) as [t returned] eqn:E. cbn in *.
      split; [by apply prefix_cons |]. split.
      * intros Hr. destruct (IH2 Hr) as [-> Hn]. split; [done |].
        intros Hi. apply elem_of_cons in Hi as [Hi | Hi]; [discriminate Hi |].
        apply elem_of_cons in Hi as [Hi | Hi]; [discriminate Hi | done].
      * intros Hr. destruct (IH3 Hr) as (t0 & -> & Hn & Hg).
        exists (EvOut di :: EvSend di :: t0). split; [done |].
        split; intros Hi;
          (apply elem_of_cons in Hi as [Hi | Hi]; [discriminate Hi |]);
          (apply elem_of_cons in Hi as [Hi | Hi]; [discriminate Hi | done]).
    + split; [apply prefix_nil |]. split; [done |]. intros _.
      exists [EvOut di; EvSelectDone]. split; [done |].
      split; intros Hi;
        (apply elem_of_cons in Hi as [Hi | Hi]; [discriminate Hi |]);
        apply list_elem_of_singleton in Hi; discriminate Hi.
Qed.

Lemma dealByID_events (u : UUID) (w : W) :
  forall e, e ∈ (dealByID u w).2 ->
            (exists r, e = EvByID u r) \/ (exists u' n, e = EvTransferred u' n).
Proof.
  intros e. unfold dealByID.
  destruct (ByID u w) as [[deal | err] w1]; cbn.
  - destruct (TransportTransferred (DealUuid deal) w1) as [n w2]. cbn.
    intros Hi. apply elem_of_cons in Hi as [-> | Hi]; [left; eauto |].
    apply list_elem_of_singleton in Hi as ->. right; eauto.
  - intros Hi. apply list_elem_of_singleton in Hi as ->. left; eauto.
Qed.

(** X24.  When [DealUpdate] returns an error after the provider has
    accepted the subscription (the deal could not be read from the
    database, or the context was done before the first state could be
    sent), no goroutine is started and [sub.Close()] is never called: the
    subscription stays registered with the provider. *)
Theorem X24_DealUpdate_unreleased (id : string) (steps : list Step) (w w' : W)
    (c : option Channel) (err : error) (tr : list Ev) (u : UUID) :
  DealUpdate id steps w = ((c, Some err), w', tr) ->
  EvSubscribeDealUpdates u None ∈ tr ->
  c = None /\ (EvGo ∉ tr) /\ (EvSubClose ∉ tr) /\ (EvCloseChan ∉ tr).
Proof.
  unfold DealUpdate. intros H Hsub.
  destruct (toUuid id) as [dealUuid | e0];
    [| simplify_eq; by apply elem_of_nil in Hsub].
  destruct (SubscribeDealUpdates dealUuid w) as [[serr |] w1].
  { destruct (IsDealExecNotFound serr); simplify_eq.
    apply elem_of_cons in Hsub as [Hsub | Hsub]; [discriminate Hsub |].
    apply list_elem_of_singleton in Hsub. discriminate Hsub. }
  pose proof (dealByID_events dealUuid w1) as Hev.
  destruct (dealByID dealUuid w1) as [[[deal | e1] w2] t]; cbn in Hev.
  - destruct (ctxDone w2) as [[|] w3]; simplify_eq.
    split; [done |].
    repeat split; intros Hi;
      (apply elem_of_cons in Hi as [Hi | Hi]; [discriminate Hi |]);
      (apply elem_of_cons in Hi as [Hi | Hi]; [discriminate Hi |]);
      (apply elem_of_app in Hi as [Hi | Hi];
       [destruct (Hev _ Hi) as [[? ?] | (? & ? & ?)]; discriminate |]);
      apply list_elem_of_singleton in Hi; discriminate Hi.
  - simplify_eq. split; [done |].
    repeat split; intros Hi;
      (apply elem_of_cons in Hi as [Hi | Hi]; [discriminate Hi |]);
      (apply elem_of_cons in Hi as [Hi | Hi]; [discriminate Hi |]);
      destruct (Hev _ Hi) as [[? ?] | (? & ? & ?)]; discriminate.
Qed.

(** X25.  When [DealUpdate] returns a channel that is open, the first
    value sent on it is the deal as the database has it, with the number of
    bytes the transport reports for that deal; after it come updates of
    the subscription, in the order they arrived and each once (a prefix of
    them: an update that arrives when the context is done is dropped and
    ends the goroutine).  The subscription is closed at most once, by the
    goroutine, as the last event. *)
Theorem X25_DealUpdate_delivery (id : string) (steps : list Step) (w w' : W)
    (tr : list Ev) :
  DealUpdate id steps w = ((Some Open, None), w', tr) ->
  exists dealUuid w1 deal w2 n w3 sent,
    toUuid id = inl dealUuid
    /\ SubscribeDealUpdates dealUuid w = (None, w1)
    /\ ByID dealUuid w1 = (inl deal, w2)
    /\ TransportTransferred (DealUuid deal) w2 = (n, w3)
    /\ delivered tr = {| Deal := deal; Transferred := n |} :: sent
    /\ sent `prefix_of` (updates steps)
    /\ ((pipe steps).2 = false -> sent = updates steps /\ (EvSubClose ∉ tr))
    /\ ((pipe steps).2 = true ->
        exists t, tr = t ++ [EvSubClose] /\ (EvSubClose ∉ t)).
Proof.
  unfold DealUpdate, dealByID. intros H.
  destruct (toUuid id) as [dealUuid | e0]; [| by simplify_eq].
  destruct (SubscribeDealUpdates dealUuid w) as [[serr |] w1] eqn:Es.
  { destruct (IsDealExecNotFound serr); simplify_eq. }
  destruct (ByID dealUuid w1) as [[deal | e1] w2] eqn:Eb; [| by simplify_eq].
  destruct (TransportTransferred (DealUuid deal) w2) as [n w3] eqn:Et.
  destruct (ctxDone w3) as [[|] w4]; simplify_eq.
  destruct (pipe_facts steps) as (P1 & P2 & P3).
  exists dealUuid, w1, deal, w2, n, w3, (delivered (pipe steps).1).
  do 4 (split; [done |]).
  split; [by rewrite !delivered_app |]. split; [exact P1 |]. split.
  - intros Hr. destruct (P2 Hr) as [Hd Hn]. split; [exact Hd |].
    cbn. intros Hi.
    repeat (apply elem_of_cons in Hi as [Hi | Hi]; [discriminate Hi |]).
    done.
  - intros Hr. destruct (P3 Hr) as (t & Ht & Hn & _). rewrite Ht.
    eexists (_ :: _ :: _ :: _ :: _ :: _ :: t). split; [reflexivity |].
    intros Hi.
    repeat (apply elem_of_cons in Hi as [Hi | Hi]; [discriminate Hi |]).
    done.
Qed.

(** X26.  [DealNew] either fails with the error of the subscription,
    wrapped, and then starts nothing; or it returns an open channel on
    which the goroutine sends new deals in the order they arrived, each
    once, until the context is done; the goroutine closes the subscription
    once, as the last thing it does, and not while it is still running. *)
Theorem X26_DealNew_delivery (steps : list Step) (w : W) :
  let '(r, w', tr) := DealNew steps w in
  match SubscribeNewDeals w with
  | (Some err, w1) =>
      r = (None, Some (ErrorWrap "subscribing to new deal events" err))
      /\ w' = w1 /\ delivered tr = [] /\ (EvGo ∉ tr) /\ (EvSubClose ∉ tr)
  | (None, w1) =>
      r = (Some Open, None) /\ w' = w1
      /\ (delivered tr) `prefix_of` (updates steps)
      /\ ((pipe steps).2 = false ->
          delivered tr = updates steps /\ (EvSubClose ∉ tr))
      /\ ((pipe steps).2 = true ->
          exists t, tr = t ++ [EvSubClose] /\ (EvSubClose ∉ t))
  end.
Proof.
  unfold DealNew.
  destruct (SubscribeNewDeals w) as [[err |] w1]; cbn.
  - do 3 (split; [done |]).
    split; intros Hi;
      (apply elem_of_cons in Hi as [Hi | Hi]; [discriminate Hi |]);
      apply list_elem_of_singleton in Hi; discriminate Hi.
  - destruct (pipe_facts steps) as (P1 & P2 & P3).
    do 2 (split; [done |]). split; [exact P1 |]. split.
    + intros Hr. destruct (P2 Hr) as [Hd Hn]. split; [exact Hd |].
      intros Hi.
      repeat (apply elem_of_cons in Hi as [Hi | Hi]; [discriminate Hi |]).
      done.
    + intros Hr. destruct (P3 Hr) as (t & Ht & Hn & _). rewrite Ht.
      eexists (_ :: _ :: _ :: t). split; [reflexivity |].
      intros Hi.
      repeat (apply elem_of_cons in Hi as [Hi | Hi]; [discriminate Hi |]).
      done.
Qed.

End Facts.

Module SubSamples.

Import SubRef.

(** X24 on a deal whose row has gone from the database. *)
Lemma X24_witness :
  let run := DealUpdate "7" [Cancelled] vanished in
  run.1.1 = (None, Some (ErrSentinel NoRows))
  /\ EvSubscribeDealUpdates 7%N None ∈ run.2
  /\ (EvGo ∉ run.2) /\ (EvSubClose ∉ run.2) /\ (EvCloseChan ∉ run.2).
Proof.
  intros run.
  assert (Hrun : DealUpdate "7" [Cancelled] vanished
                 = ((None, Some (ErrSentinel NoRows)), run.1.2, run.2))
    by (vm_compute; reflexivity).
  assert (Hsub : EvSubscribeDealUpdates 7%N None ∈ run.2)
    by (vm_compute; apply elem_of_cons; right; apply elem_of_cons; by left).
  split; [by vm_compute |]. split; [exact Hsub |].
  exact (proj2 (X24_DealUpdate_unreleased _ _ _ _ _ _ _ _ Hrun Hsub)).
Defined.

(** X25 on a deal that is updated twice before the connection ends. *)
Lemma X25_witness :
  let first := {| Deal := Ex.online; Transferred := 512 |} in
  let second := {| Deal := Ex.online; Transferred := 1024 |} in
  let third := {| Deal := Ex.online; Transferred := 2048 |} in
  let run := DealUpdate "7" [Updated second true; Updated third false] following in
  run.1.1 = (Some Open, None)
  /\ exists sent, delivered run.2 = first :: sent
                  /\ sent `prefix_of` [second; third].
Proof.
  intros first second third run.
  assert (Hrun : DealUpdate "7" [Updated second true; Updated third false] following
                 = ((Some Open, None), run.1.2, run.2))
    by (vm_compute; reflexivity).
  split; [by vm_compute |].
  destruct (X25_DealUpdate_delivery _ _ _ _ _ Hrun)
    as (u & w1 & deal & w2 & n & w3 & sent & Hu & Hs & Hb & Ht & Hd & Hp & _).
  exists sent. split; [| exact Hp].
  rewrite Hd. cbv in Hs. simplify_eq. cbv in Hb. simplify_eq.
  cbv in Ht. by simplify_eq.
Defined.

End SubSamples.

End GqlSubFacts.
